(** * Fai Chun photobooth backend: the finalize state machine and its helpers

    A shallow embedding of [server/main.py]: the loosely typed JSON values
    the service receives from the workflow API, the two extraction helpers
    ([extract_task_id], [find_first_http_url]), the archive store, and the
    routes [api_run], [api_finalize], [api_download] together with the
    background routine [finalize_job], first each on its own, then as
    coroutines interleaved on the event loop.  Calls to [print] are left
    out; file writes into an existing directory and [json.dumps] are taken
    not to fail. *)

From Stdlib Require Import ZArith String Ascii List Lia PrimFloat DecimalString.
From Stdlib.Strings Require Import Byte.
From stdpp Require Import gmap strings.
Import ListNotations.
Local Open Scope string_scope.

(** ** JSON values, as [json.loads] and [r.json()] produce them

    A Python [dict] keeps its insertion order, which [x.values()] follows,
    so a dictionary is an association list; its keys are pairwise distinct
    ([wf_json]).  [None] is [JNull]. *)

#[local] Set Warnings "-register-all".
Inductive json : Type :=
| JNull
| JBool (b : bool)
| JInt (n : Z)
| JFloat (f : float)
| JStr (s : string)
| JList (l : list json)
| JDict (d : list (string * json)).

Abbreviation dict := (list (string * json)).

Section JsonInduction.
Variable P : json -> Prop.
Hypothesis Hnull : P JNull.
Hypothesis Hbool : forall b, P (JBool b).
Hypothesis Hint : forall n, P (JInt n).
Hypothesis Hfloat : forall f, P (JFloat f).
Hypothesis Hstr : forall s, P (JStr s).
Hypothesis Hlist : forall l, Forall P l -> P (JList l).
Hypothesis Hdict : forall d, Forall (fun kv => P (snd kv)) d -> P (JDict d).

Fixpoint json_nested_ind (x : json) : P x :=
  match x with
  | JNull => Hnull
  | JBool b => Hbool b
  | JInt n => Hint n
  | JFloat f => Hfloat f
  | JStr s => Hstr s
  | JList l =>
      Hlist l
        ((fix items (l : list json) : Forall P l :=
            match l with
            | [] => @List.Forall_nil _ _
            | i :: l' => @List.Forall_cons _ _ _ _ (json_nested_ind i) (items l')
            end) l)
  | JDict d =>
      Hdict d
        ((fix entries (d : dict) : Forall (fun kv => P (snd kv)) d :=
            match d with
            | [] => @List.Forall_nil _ _
            | kv :: d' => @List.Forall_cons _ _ _ _ (json_nested_ind (snd kv)) (entries d')
            end) d)
  end.
End JsonInduction.

(** [d.get(k)]: the value stored under [k], [None] when the key is missing. *)
Fixpoint dict_lookup (d : dict) (k : string) : option json :=
  match d with
  | [] => None
  | (k', v) :: d' => if String.eqb k' k then Some v else dict_lookup d' k
  end.

Definition dict_get (d : dict) (k : string) : json :=
  match dict_lookup d k with
  | Some v => v
  | None => JNull
  end.

(** [d.get(k, default)]. *)
Definition dict_get_default (d : dict) (k : string) (default : json) : json :=
  match dict_lookup d k with
  | Some v => v
  | None => default
  end.

(** [d[k] = v]: an existing key keeps its place, a new key goes last. *)
Fixpoint dict_set (d : dict) (k : string) (v : json) : dict :=
  match d with
  | [] => [(k, v)]
  | (k', v') :: d' =>
      if String.eqb k' k then (k', v) :: d' else (k', v') :: dict_set d' k v
  end.

Definition dict_has (d : dict) (k : string) : bool :=
  match dict_lookup d k with
  | Some _ => true
  | None => false
  end.

(** Keys of a Python dictionary are pairwise distinct, at every depth. *)
Fixpoint wf_json (x : json) : bool :=
  match x with
  | JList l => forallb wf_json l
  | JDict d =>
      bool_decide (NoDup (map fst d)) && forallb (fun kv => wf_json (snd kv)) d
  | _ => true
  end.

(** Python truthiness, as [or], [not] and [if] use it. *)
Definition truthy (x : json) : bool :=
  match x with
  | JNull => false
  | JBool b => b
  | JInt n => negb (Z.eqb n 0)
  | JFloat f => negb (PrimFloat.eqb f PrimFloat.zero)
  | JStr s => negb (String.eqb s "")
  | JList l => match l with [] => false | _ => true end
  | JDict d => match d with [] => false | _ => true end
  end.

(** [a or b]. *)
Definition py_or (a b : json) : json := if truthy a then a else b.

(** ** Exceptions *)

(** [RuntimeError] carries the fixed part of its message and the values the
    f-string formats after it. *)
Inductive exn : Type :=
| RuntimeError (msg : string) (args : list json)
| AttributeError (msg : string)
| NetworkError (msg : string)
| HTTPStatusError (msg : string)
| HttpError (msg : string)
| OtherException (msg : string).

Inductive result (A : Type) : Type :=
| Ok (a : A)
| Raise (e : exn).
Arguments Ok {A} a.
Arguments Raise {A} e.

(** ** extract_task_id (lines 96-102)

    [resp.get] on a value that is not a dictionary raises
    [AttributeError]. *)

Definition extract_task_id (resp : json) : result json :=
  match resp with
  | JDict r =>
      let data := dict_get r "data" in
      match data with
      | JDict dd =>
          Ok (py_or (py_or (dict_get dd "taskId") (dict_get dd "task_id"))
                    (dict_get dd "id"))
      | JStr _ => Ok data
      | _ => Ok (py_or (dict_get r "taskId") (dict_get r "task_id"))
      end
  | _ => Raise (AttributeError "object has no attribute 'get'")
  end.

(** ** find_first_http_url (lines 105-121) *)

Definition candidate_keys : list string := ["fileUrl"; "url"; "file"; "path"].

(** One round of the [for k in ...] loop of [walk]: [found.append(v)] when
    [x.get(k)] is a string that starts with "http". *)
Definition check_key (d : dict) (found : list string) (k : string) : list string :=
  match dict_get d k with
  | JStr v => if String.prefix "http" v then found ++ [v] else found
  | _ => found
  end.

(** [walk] threads the list [found] it appends to. *)
Fixpoint walk (x : json) (found : list string) : list string :=
  match x with
  | JList l =>
      (fix walk_items (l : list json) (found : list string) : list string :=
         match l with
         | [] => found
         | i :: l' => walk_items l' (walk i found)
         end) l found
  | JDict d =>
      let found1 := fold_left (check_key d) candidate_keys found in
      (fix walk_values (vs : dict) (found : list string) : list string :=
         match vs with
         | [] => found
         | kv :: vs' => walk_values vs' (walk (snd kv) found)
         end) d found1
  | _ => found
  end.

Definition find_first_http_url (obj : json) : option string :=
  match walk obj [] with
  | u :: _ => Some u
  | [] => None
  end.

(** ** Byte strings and base64 *)

Abbreviation bytes := (list Byte.byte).

Definition b64_alphabet : string :=
  "ABCDEFGHIJKLMNOPQRSTUVWXYZabcdefghijklmnopqrstuvwxyz0123456789+/".

Definition b64_char (n : N) : ascii :=
  match String.get (N.to_nat n) b64_alphabet with
  | Some c => c
  | None => "="%char
  end.

(** [base64.b64encode(img_bytes).decode("utf-8")]. *)
Fixpoint b64encode (bs : bytes) : string :=
  match bs with
  | [] => ""
  | [a] =>
      let x := Byte.to_N a in
      String (b64_char (x / 4)) (String (b64_char ((x mod 4) * 16)) "==")
  | [a; b] =>
      let x := Byte.to_N a in
      let y := Byte.to_N b in
      String (b64_char (x / 4))
        (String (b64_char ((x mod 4) * 16 + y / 16))
           (String (b64_char ((y mod 16) * 4)) "="))
  | a :: b :: c :: rest =>
      let x := Byte.to_N a in
      let y := Byte.to_N b in
      let z := Byte.to_N c in
      String (b64_char (x / 4))
        (String (b64_char ((x mod 4) * 16 + y / 16))
           (String (b64_char ((y mod 16) * 4 + z / 64))
              (String (b64_char (z mod 64)) (b64encode rest))))
  end%N.

(** [str(int(n))]. *)
Definition str_of_int (n : Z) : string := NilZero.string_of_int (Z.to_int n).

(** What is sent to the mirror: raw bytes, or the UTF-8 text of
    [json.dumps(meta, indent=2, ensure_ascii=False)]. *)
Inductive blob : Type :=
| Raw (data : bytes)
| JsonText (meta : dict).

(** ** Configuration read from the environment (lines 31-57) *)

Record config : Type := {
  API_KEY : string;
  WORKFLOW_ID : string;
  BASE : string;
  GDRIVE_ENABLED : bool;
  GDRIVE_ROOT_FOLDER_ID : string;
  TOKEN_PATH : string
}.

Definition RH_CREATE (cfg : config) : string := BASE cfg ++ "/task/openapi/create".
Definition RH_OUTPUTS (cfg : config) : string := BASE cfg ++ "/task/openapi/outputs".

(** ** The outside world

    Every call that leaves the process is logged as an [event]; the index
    of the event in the log is the logical time at which the environment
    answers, so that an answer may depend on everything that happened
    before. *)

Inductive event : Type :=
| EPost (url : string) (payload : json)
| EGet (url : string)
| ESleep (seconds : Z)
| ENow
| EUuid
| ERandint (lo hi : Z)
| ETokenExists
| EDriveBuild
| EDriveCreateFolder (name : string) (parents : list string)
| EDriveUpload (name : string) (data : blob) (mime : string) (parent : json).

(** What [client.post] gives: an exception, or a response with its status,
    its body as [r.json()] parses it ([None] when parsing fails) and
    [r.text]. *)
Inductive post_reply : Type :=
| PostFails (e : exn)
| PostResponse (status : Z) (body : option json) (text : string).

Record world : Type := {
  w_post : nat -> string -> json -> post_reply;
  (** [client.get(url)] followed by [r.raise_for_status()] and [r.content] *)
  w_get : nat -> string -> result bytes;
  (** [datetime.now()], already formatted by the caller *)
  w_now : nat -> string;
  (** [uuid.uuid4().hex[:8]] *)
  w_uuid : nat -> string;
  w_random : nat -> Z;
  (** [TOKEN_PATH.exists()] *)
  w_token_exists : nat -> bool;
  (** [Credentials.from_authorized_user_file] and [build] *)
  w_drive_build : nat -> result unit;
  (** [drive.files().create(...).execute()["id"]] for a folder *)
  w_drive_create_folder : nat -> string -> list string -> result string;
  w_drive_upload : nat -> string -> blob -> string -> json -> result unit
}.

(** ** The archive store

    One directory per archive id under [ARCHIVE_DIR], holding
    [input.jpg], [output.png] and [meta.json].  [meta.json] is only ever
    written as [json.dumps] of a dictionary (lines 247, 342, 373), so the
    store keeps the dictionary that [json.loads] gives back.

    An archive id stands for the directory it names, and the store is
    keyed by the id as it is given.  This is how the service uses the ids
    it issues, which are one path component each; an id that
    [ARCHIVE_DIR / archive_id] resolves to the directory of another id, or
    for which [mkdir] fails, is outside the model. *)

Record entry : Type := {
  input_jpg : option bytes;
  output_png : option bytes;
  meta_json : option dict
}.

Definition empty_entry : entry :=
  {| input_jpg := None; output_png := None; meta_json := None |}.

Record state : Type := {
  fs : gmap string entry;
  trace : list event;
  (** tasks handed to [BackgroundTasks.add_task] and not yet run *)
  pending : list (json * string)
}.

Definition init_state (files : gmap string entry) : state :=
  {| fs := files; trace := []; pending := [] |}.

(** ** A state and exception monad for the handlers *)

Definition M (A : Type) : Type := state -> result A * state.

Definition ret {A} (a : A) : M A := fun st => (Ok a, st).

Definition raise {A} (e : exn) : M A := fun st => (Raise e, st).

Definition bind {A B} (m : M A) (k : A -> M B) : M B :=
  fun st =>
    match m st with
    | (Ok a, st') => k a st'
    | (Raise e, st') => (Raise e, st')
    end.

(** [try: m  except Exception as e: h e]; what [m] did before it raised
    stays done. *)
Definition try_catch {A} (m : M A) (h : exn -> M A) : M A :=
  fun st =>
    match m st with
    | (Ok a, st') => (Ok a, st')
    | (Raise e, st') => h e st'
    end.

Notation "'let*' x ':=' m 'in' k" := (bind m (fun x => k))
  (at level 10, x name, m at level 200, k at level 200).
Notation "m ';;' k" := (bind m (fun _ => k))
  (at level 100, k at level 200, right associativity, only parsing).

Definition lift_result {A} (r : result A) : M A :=
  match r with
  | Ok a => ret a
  | Raise e => raise e
  end.

(** Log an event and give the time at which it happened. *)
Definition emit (e : event) : M nat :=
  fun st =>
    (Ok (length (trace st)),
     {| fs := fs st; trace := trace st ++ [e]; pending := pending st |}).

Definition get_fs : M (gmap string entry) := fun st => (Ok (fs st), st).

Definition put_fs (files : gmap string entry) : M unit :=
  fun st => (Ok tt, {| fs := files; trace := trace st; pending := pending st |}).

Definition add_task (task_id : json) (archive_id : string) : M unit :=
  fun st =>
    (Ok tt,
     {| fs := fs st; trace := trace st;
        pending := pending st ++ [(task_id, archive_id)] |}).

(** ** Archive store operations *)

(** [get_play_dir] (lines 130-133): [mkdir(parents=True, exist_ok=True)]. *)
Definition get_play_dir (archive_id : string) : M unit :=
  let* files := get_fs in
  match files !! archive_id with
  | Some _ => ret tt
  | None => put_fs (<[archive_id := empty_entry]> files)
  end.

(** Writing a file needs its directory. *)
Definition update_entry (archive_id : string) (f : entry -> entry) : M unit :=
  let* files := get_fs in
  match files !! archive_id with
  | Some e => put_fs (<[archive_id := f e]> files)
  | None => raise (OtherException "FileNotFoundError")
  end.

Definition with_input (e : entry) (data : bytes) : entry :=
  {| input_jpg := Some data; output_png := output_png e; meta_json := meta_json e |}.

Definition with_output (e : entry) (data : bytes) : entry :=
  {| input_jpg := input_jpg e; output_png := Some data; meta_json := meta_json e |}.

Definition with_meta (e : entry) (meta : dict) : entry :=
  {| input_jpg := input_jpg e; output_png := output_png e; meta_json := Some meta |}.

(** [(play_dir / "input.jpg").write_bytes(data)] *)
Definition write_input (archive_id : string) (data : bytes) : M unit :=
  update_entry archive_id (fun e => with_input e data).

(** [output_path.write_bytes(data)] *)
Definition write_output (archive_id : string) (data : bytes) : M unit :=
  update_entry archive_id (fun e => with_output e data).

(** [meta_path.write_text(json.dumps(meta, ...))] *)
Definition write_meta (archive_id : string) (meta : dict) : M unit :=
  update_entry archive_id (fun e => with_meta e meta).

(** [output_path.exists()]. *)
Definition output_exists (archive_id : string) : M bool :=
  let* files := get_fs in
  ret match files !! archive_id with
      | Some e => match output_png e with Some _ => true | None => false end
      | None => false
      end.

(** Lines 319-321: [meta = {}], replaced by the stored record if there is one. *)
Definition read_meta (archive_id : string) : M dict :=
  let* files := get_fs in
  ret match files !! archive_id with
      | Some e => match meta_json e with Some m => m | None => [] end
      | None => []
      end.

(** ** Calls to the outside *)

(** Lines 87-93 of [rh_post_json]: what becomes of the reply to the POST. *)
Definition decode_reply (r : post_reply) : result json :=
  match r with
  | PostFails e => Raise e
  | PostResponse status body text =>
      let j := match body with
               | Some j => j
               | None => JDict [("raw", JStr text)]
               end in
      if (status >=? 400)%Z
      then Raise (RuntimeError "RunningHub HTTP" [JInt status; j])
      else Ok j
  end.

(** [out.get("data", out)] (lines 274, 332) *)
Definition get_data (out : json) : result json :=
  match out with
  | JDict o => Ok (dict_get_default o "data" out)
  | _ => Raise (AttributeError "object has no attribute 'get'")
  end.

(** Lines 233-235 of [api_run] *)
Definition check_task_id (run_resp : json) : result json :=
  match extract_task_id run_resp with
  | Ok task_id =>
      if negb (truthy task_id)
      then Raise (RuntimeError "Missing taskId from run response:" [run_resp])
      else Ok task_id
  | Raise e => Raise e
  end.

Section Handlers.
Variable cfg : config.
Variable w : world.

Definition now : M string :=
  let* t := emit ENow in ret (w_now w t).

Definition sleep (seconds : Z) : M unit :=
  emit (ESleep seconds) ;; ret tt.

(** [random.randint(lo, hi)] *)
Definition randint (lo hi : Z) : M Z :=
  let* t := emit (ERandint lo hi) in
  ret (lo + (w_random w t) mod (hi - lo + 1))%Z.

(** [make_archive_id] (lines 124-127) *)
Definition make_archive_id : M string :=
  let* ts := now in
  let* t := emit EUuid in
  ret (ts ++ "_" ++ w_uuid w t).

(** [rh_post_json] (lines 84-93) *)
Definition rh_post_json (url : string) (payload : json) : M json :=
  let* t := emit (EPost url payload) in
  lift_result (decode_reply (w_post w t url payload)).

(** Lines 347-350: the download of the output image. *)
Definition download (url : string) : M bytes :=
  let* t := emit (EGet url) in
  lift_result (w_get w t url).

(** [get_drive] (lines 139-143) *)
Definition get_drive : M unit :=
  let* t := emit ETokenExists in
  if negb (w_token_exists w t)
  then raise (RuntimeError "token.json not found at" [JStr (TOKEN_PATH cfg)])
  else
    let* t' := emit EDriveBuild in
    lift_result (w_drive_build w t').

(** [drive_create_folder] (lines 146-151) *)
Definition drive_create_folder (name parent_id : string) : M string :=
  let parents := if String.eqb parent_id "" then [] else [parent_id] in
  let* t := emit (EDriveCreateFolder name parents) in
  lift_result (w_drive_create_folder w t name parents).

(** [drive_upload_bytes] (lines 154-161) *)
Definition drive_upload_bytes
    (name : string) (data : blob) (mime : string) (parent_id : json) : M unit :=
  let* t := emit (EDriveUpload name data mime parent_id) in
  lift_result (w_drive_upload w t name data mime parent_id).

(** [drive_upload_text] (lines 164-165) *)
Definition drive_upload_text (name : string) (text : dict) (parent_id : json) : M unit :=
  drive_upload_bytes name (JsonText text) "application/json" parent_id.

(** ** Responses of the routes

    A returned dictionary is a 200 response; [ErrorResponse s e] is
    [JSONResponse(status_code=s, content={"error": str(e)})]. *)
Inductive response : Type :=
| JSONResponse (status_code : Z) (content : json)
| ErrorResponse (status_code : Z) (e : exn)
| FileResponse (content : bytes) (media_type filename : string).

(** [require_env] (lines 75-81) *)
Definition require_env : option response :=
  if String.eqb (API_KEY cfg) "" || String.eqb (WORKFLOW_ID cfg) ""
  then Some (JSONResponse 500
               (JDict [("error",
                        JStr "Missing RUNNINGHUB_API_KEY or RUNNINGHUB_WORKFLOW_ID")]))
  else None.

(** ** The template table (lines 187-192, 207) *)

Definition TEMPLATE_TO_INT : gmap string Z :=
  <["fai_chun_01" := 1%Z]>
    (<["fai_chun_02" := 2%Z]>
       (<["fai_chun_03" := 3%Z]>
          (<["fai_chun_04" := 4%Z]> ∅))).

(** [TEMPLATE_TO_INT.get(templateId, 1)] *)
Definition switch_value (templateId : string) : Z :=
  default 1%Z (TEMPLATE_TO_INT !! templateId).

Definition node_info (nodeId fieldName fieldValue : string) : json :=
  JDict [("nodeId", JStr nodeId); ("fieldName", JStr fieldName);
         ("fieldValue", JStr fieldValue)].

(** Lines 222-226 *)
Definition node_info_list (img_b64 : string) (templateId : string) (seed : Z) : json :=
  JList [node_info "627" "data" img_b64;
         node_info "582" "value" (str_of_int (switch_value templateId));
         node_info "471" "noise_seed" (str_of_int seed)].

(** ** finalize_job (lines 314-382) *)

Definition truthy_url (image_url : option string) : bool :=
  match image_url with
  | Some u => truthy (JStr u)
  | None => false
  end.

Definition outputs_payload (task_id : json) : json :=
  JDict [("apiKey", JStr (API_KEY cfg)); ("taskId", task_id)].

(** One attempt (lines 330-337): the new value of [image_url] and
    whether the loop breaks. *)
Definition poll_once (task_id : json) (image_url : option string)
  : M (option string * bool) :=
  try_catch
    (let* out := rh_post_json (RH_OUTPUTS cfg) (outputs_payload task_id) in
     let* data := lift_result (get_data out) in
     let image_url' := find_first_http_url data in
     ret (image_url', truthy_url image_url'))
    (fun _ => ret (image_url, false)).

(** [for _ in range(n)] (lines 329-338) *)
Fixpoint poll_loop (n : nat) (task_id : json) (image_url : option string)
  : M (option string) :=
  match n with
  | O => ret image_url
  | S n' =>
      let* r := poll_once task_id image_url in
      if snd r then ret (fst r)
      else sleep 2 ;; poll_loop n' task_id (fst r)
  end.

Definition timeout_message : string := "Timeout waiting for RunningHub output".

(** Lines 340-344 *)
Definition finalize_timeout (archive_id : string) (meta : dict) : M unit :=
  write_meta archive_id (dict_set meta "finalizeError" (JStr timeout_message)).

(** Lines 359-368: the mirror copy of the output; gives the record back,
    stamped when the upload went through. *)
Definition mirror_output (img_bytes : bytes) (meta : dict) (drive_folder_id : json)
  : M dict :=
  if GDRIVE_ENABLED cfg && truthy drive_folder_id
  then
    try_catch
      (get_drive ;;
       drive_upload_bytes "output.png" (Raw img_bytes) "image/png" drive_folder_id ;;
       let* stamp := now in
       ret (dict_set meta "driveOutputUploadedAt" (JStr stamp)))
      (fun _ => ret meta)
  else ret meta.

(** Lines 376-382 *)
Definition mirror_meta (meta : dict) (drive_folder_id : json) : M unit :=
  if GDRIVE_ENABLED cfg && truthy drive_folder_id
  then
    try_catch
      (get_drive ;; drive_upload_text "meta.json" meta drive_folder_id)
      (fun _ => ret tt)
  else ret tt.

(** Lines 346-382 *)
Definition finalize_commit (archive_id : string) (meta : dict) (image_url : string)
  : M unit :=
  let* img_bytes := download image_url in
  write_output archive_id img_bytes ;;
  let drive_folder_id := dict_get meta "driveFolderId" in
  let* meta1 := mirror_output img_bytes meta drive_folder_id in
  let meta2 := dict_set meta1 "outputUrl" (JStr image_url) in
  let* stamp := now in
  let meta3 := dict_set meta2 "finalizedAt" (JStr stamp) in
  write_meta archive_id meta3 ;;
  mirror_meta meta3 drive_folder_id.

Definition finalize_job (task_id : json) (archive_id : string) : M unit :=
  get_play_dir archive_id ;;
  let* meta := read_meta archive_id in
  let* finalized := output_exists archive_id in
  if finalized then ret tt
  else
    let* image_url := poll_loop 300 task_id None in
    match image_url with
    | Some u =>
        if truthy_url image_url
        then finalize_commit archive_id meta u
        else finalize_timeout archive_id meta
    | None => finalize_timeout archive_id meta
    end.

(** ** api_run (lines 176-263) *)

(** Lines 210-219: the mirror folder and the copy of the input. *)
Definition mirror_input (archive_id : string) (img_bytes : bytes) : M json :=
  if GDRIVE_ENABLED cfg
  then
    try_catch
      (get_drive ;;
       let* folder := drive_create_folder archive_id (GDRIVE_ROOT_FOLDER_ID cfg) in
       drive_upload_bytes "input.jpg" (Raw img_bytes) "image/jpeg" (JStr folder) ;;
       ret (JStr folder))
      (fun _ => ret JNull)
  else ret JNull.

(** Lines 228-231: the body of the create request. *)
Definition create_payload (img_b64 templateId : string) (seed : Z) : json :=
  JDict [("apiKey", JStr (API_KEY cfg));
         ("workflowId", JStr (WORKFLOW_ID cfg));
         ("nodeInfoList", node_info_list img_b64 templateId seed)].

(** Lines 228-235: [createJob]. *)
Definition create_job (img_b64 templateId : string) (seed : Z) : M json :=
  let* run_resp :=
    rh_post_json (RH_CREATE cfg) (create_payload img_b64 templateId seed) in
  lift_result (check_task_id run_resp).

Definition api_run (photo : bytes) (templateId : string) (seed : option Z)
  : M response :=
  match require_env with
  | Some missing => ret missing
  | None =>
      try_catch
        (let img_bytes := photo in
         let img_b64 := b64encode img_bytes in
         let* archive_id := make_archive_id in
         get_play_dir archive_id ;;
         write_input archive_id img_bytes ;;
         let* seed :=
           match seed with
           | Some s => ret s
           | None => randint 100000000 999999999
           end in
         let* drive_folder_id := mirror_input archive_id img_bytes in
         let* task_id := create_job img_b64 templateId seed in
         let* created := now in
         let meta :=
           [("archiveId", JStr archive_id);
            ("taskId", task_id);
            ("templateId", JStr templateId);
            ("seed", JInt seed);
            ("createdAt", JStr created);
            ("driveFolderId", drive_folder_id)] in
         write_meta archive_id meta ;;
         mirror_meta meta drive_folder_id ;;
         add_task task_id archive_id ;;
         ret (JSONResponse 200
                (JDict [("taskId", task_id); ("archiveId", JStr archive_id)])))
        (fun e => ret (ErrorResponse 500 e))
  end.

(** ** api_result (lines 266-283) *)
Definition api_result (taskId : string) : M response :=
  match require_env with
  | Some missing => ret missing
  | None =>
      try_catch
        (let* out := rh_post_json (RH_OUTPUTS cfg) (outputs_payload (JStr taskId)) in
         let* data := lift_result (get_data out) in
         let image_url := find_first_http_url data in
         match image_url with
         | Some u =>
             if truthy_url image_url
             then ret (JSONResponse 200
                         (JDict [("ready", JBool true); ("imageUrl", JStr u)]))
             else ret (JSONResponse 200
                         (JDict [("ready", JBool false); ("imageUrl", JNull)]))
         | None =>
             ret (JSONResponse 200
                    (JDict [("ready", JBool false); ("imageUrl", JNull)]))
         end)
        (fun e => ret (ErrorResponse 500 e))
  end.

(** ** api_finalize (lines 286-290): nothing catches what [finalize_job]
    raises. *)
Definition api_finalize (taskId archiveId : string) : M response :=
  finalize_job (JStr taskId) archiveId ;;
  ret (JSONResponse 200 (JDict [("ok", JBool true)])).

(** ** api_download (lines 293-308) *)
Definition api_download (taskId archiveId : string) : M response :=
  get_play_dir archiveId ;;
  let* finalized := output_exists archiveId in
  (if negb finalized then finalize_job (JStr taskId) archiveId else ret tt) ;;
  let* files := get_fs in
  match files !! archiveId with
  | Some {| output_png := Some content |} =>
      ret (FileResponse content "image/png" ("AI_FaiChun_" ++ archiveId ++ ".png"))
  | _ => ret (JSONResponse 404 (JDict [("error", JStr "Output not ready yet")]))
  end.

(** ** Background tasks

    The tasks given to [add_task] run once the response is out; the
    client never sees what they raise.  [serve_run] is the schedule in
    which the finalize task of a submission runs to its end right after
    the submission, before anything else is served; the other schedules
    are those of the event loop further down. *)
Definition take_pending : M (list (json * string)) :=
  fun st => (Ok (pending st), {| fs := fs st; trace := trace st; pending := [] |}).

Fixpoint run_tasks (tasks : list (json * string)) : M unit :=
  match tasks with
  | [] => ret tt
  | (task_id, archive_id) :: rest =>
      finalize_job task_id archive_id ;; run_tasks rest
  end.

Definition serve_run (photo : bytes) (templateId : string) (seed : option Z)
  : M response :=
  let* resp := api_run photo templateId seed in
  try_catch (let* tasks := take_pending in run_tasks tasks) (fun _ => ret tt) ;;
  ret resp.

(** ** The routes together *)

Inductive request : Type :=
| RunRequest (photo : bytes) (templateId : string) (seed : option Z)
| ResultRequest (taskId : string)
| FinalizeRequest (taskId archiveId : string)
| DownloadRequest (taskId archiveId : string).

Definition handle (req : request) : M response :=
  match req with
  | RunRequest photo templateId seed => serve_run photo templateId seed
  | ResultRequest taskId => api_result taskId
  | FinalizeRequest taskId archiveId => api_finalize taskId archiveId
  | DownloadRequest taskId archiveId => api_download taskId archiveId
  end.

End Handlers.

(** ** Specification-level notions for URL extraction *)

(** A string that starts with "http", as [walk] asks of a candidate value. *)
Definition http_string (v : json) : option string :=
  match v with
  | JStr s => if String.prefix "http" s then Some s else None
  | _ => None
  end.

Section FirstSome.
Context {A B : Type}.
Variable f : A -> option B.

Fixpoint first_some (l : list A) : option B :=
  match l with
  | [] => None
  | a :: l' =>
      match f a with
      | Some b => Some b
      | None => first_some l'
      end
  end.
End FirstSome.

(** URL extraction as the specification words it: the first string that
    looks like an HTTP URL under one of the candidate field names, the names
    tried in priority order at each object met by a depth-first traversal
    (the object itself before its values, values and list items in order);
    nothing when there is none.  It stops at the first match instead of
    collecting all of them. *)
Fixpoint first_http_url_spec (x : json) : option string :=
  match x with
  | JList l => first_some first_http_url_spec l
  | JDict d =>
      match first_some (fun k => http_string (dict_get d k)) candidate_keys with
      | Some u => Some u
      | None => first_some (fun kv => first_http_url_spec (snd kv)) d
      end
  | _ => None
  end.

(** [candidate_in u x]: somewhere in [x] a dictionary holds the string
    [u], which starts with "http", under one of the candidate keys. *)
Inductive candidate_in (u : string) : json -> Prop :=
| candidate_here (d : dict) (k : string) :
    In k candidate_keys ->
    dict_lookup d k = Some (JStr u) ->
    String.prefix "http" u = true ->
    candidate_in u (JDict d)
| candidate_in_value (d : dict) (k : string) (v : json) :
    In (k, v) d -> candidate_in u v -> candidate_in u (JDict d)
| candidate_in_item (l : list json) (i : json) :
    In i l -> candidate_in u i -> candidate_in u (JList l).

(** What the [for k in ...] loop of [walk] appends for one dictionary, and
    everything [walk] appends for a value. *)
Definition own_urls (d : dict) : list string :=
  flat_map (fun k => match http_string (dict_get d k) with
                     | Some v => [v]
                     | None => []
                     end) candidate_keys.

Definition all_urls (x : json) : list string := walk x [].


(** ** Specification-level notions for the poll loop *)

(** The URL one attempt of the poll loop takes from a reply: none when the
    call raised, the status is an error, the body is no dictionary or no
    candidate is found. *)
Definition reply_url (r : post_reply) : option string :=
  match decode_reply r with
  | Ok out =>
      match get_data out with
      | Ok data => find_first_http_url data
      | Raise _ => None
      end
  | Raise _ => None
  end.

(** The poll request of [finalize_job] and the reply to attempt number [i]
    (from 0) of a poll loop that starts at time [t0]: a failed attempt
    logs its POST and its sleep. *)
Definition poll_event (cfg : config) (task_id : json) : event :=
  EPost (RH_OUTPUTS cfg) (outputs_payload cfg task_id).

Definition poll_reply (cfg : config) (w : world) (task_id : json) (t0 i : nat)
  : post_reply :=
  w_post w (t0 + 2 * i) (RH_OUTPUTS cfg) (outputs_payload cfg task_id).

Definition attempt_url (cfg : config) (w : world) (task_id : json) (t0 i : nat)
  : option string :=
  reply_url (poll_reply cfg w task_id t0 i).

(** [k] attempts that found nothing, each followed by its sleep. *)
Fixpoint rounds (cfg : config) (task_id : json) (k : nat) : list event :=
  match k with
  | O => []
  | S k' => poll_event cfg task_id :: ESleep 2 :: rounds cfg task_id k'
  end.

Definition add_events (st : state) (evs : list event) : state :=
  {| fs := fs st; trace := (trace st ++ evs)%list; pending := pending st |}.

Definition set_fs (st : state) (files : gmap string entry) : state :=
  {| fs := files; trace := trace st; pending := pending st |}.

Definition is_poll (e : event) : bool :=
  match e with
  | EPost _ _ => true
  | _ => false
  end.

Definition count_polls (evs : list event) : nat :=
  length (List.filter is_poll evs).

(** ** A big-step description of the finalize state machine *)

(** The store once [get_play_dir] has made sure of the directory. *)
Definition opened (archive_id : string) (files : gmap string entry)
  : gmap string entry :=
  match files !! archive_id with
  | Some _ => files
  | None => <[archive_id := empty_entry]> files
  end.

(** The entry of an archive id, empty when there is no directory yet, and
    the Job Record of an entry, [{}] when there is no [meta.json]. *)
Definition entry_of (archive_id : string) (files : gmap string entry) : entry :=
  default empty_entry (files !! archive_id).

Definition record_of (e : entry) : dict := default [] (meta_json e).

(** Events that are neither a POST nor a sleep. *)
Definition quiet (e : event) : bool :=
  match e with
  | EPost _ _ | ESleep _ => false
  | _ => true
  end.

(** No upload to the mirror goes through. *)
Definition uploads_fail (w : world) : Prop :=
  forall t name data mime parent,
    exists e, w_drive_upload w t name data mime parent = Raise e.

(** No folder can be created on the mirror. *)
Definition folders_fail (w : world) : Prop :=
  forall t name parents,
    exists e, w_drive_create_folder w t name parents = Raise e.

Section FinalizeOutcome.
Variable cfg : config.
Variable w : world.
Variable task_id : json.
Variable archive_id : string.
Variable st : state.

(** [first_ready k u]: attempt [k] is the first that sees a URL, [u]. *)
Definition first_ready (k : nat) (u : string) : Prop :=
  k < 300
  /\ (forall i, i < k -> attempt_url cfg w task_id (length (trace st)) i = None)
  /\ attempt_url cfg w task_id (length (trace st)) k = Some u.

Definition never_ready : Prop :=
  forall i, i < 300 -> attempt_url cfg w task_id (length (trace st)) i = None.

(** The four ways a run ends: the entry is already finalized; the poll
    budget runs out; the download of the URL found fails; the output is
    committed. *)
Inductive finalize_outcome : result unit -> state -> Prop :=
| fin_noop (content : bytes) :
    output_png (entry_of archive_id (fs st)) = Some content ->
    finalize_outcome (Ok tt) st
| fin_timeout :
    output_png (entry_of archive_id (fs st)) = None ->
    never_ready ->
    finalize_outcome (Ok tt)
      (add_events
         (set_fs st
            (<[archive_id :=
                 with_meta (entry_of archive_id (fs st))
                   (dict_set (record_of (entry_of archive_id (fs st)))
                      "finalizeError" (JStr timeout_message))]>
               (fs st)))
         (rounds cfg task_id 300))
| fin_download_fails (k : nat) (u : string) (e : exn) :
    output_png (entry_of archive_id (fs st)) = None ->
    first_ready k u ->
    w_get w (length (trace st) + 2 * k + 1) u = Raise e ->
    finalize_outcome (Raise e)
      (add_events (set_fs st (opened archive_id (fs st)))
         (rounds cfg task_id k ++ [poll_event cfg task_id; EGet u]))
| fin_commit (k : nat) (u : string) (content : bytes)
             (meta1 : dict) (stamp : string) (evs : list event) :
    output_png (entry_of archive_id (fs st)) = None ->
    first_ready k u ->
    w_get w (length (trace st) + 2 * k + 1) u = Ok content ->
    (meta1 = record_of (entry_of archive_id (fs st))
     \/ exists s,
          meta1 = dict_set (record_of (entry_of archive_id (fs st)))
                    "driveOutputUploadedAt" (JStr s)) ->
    (uploads_fail w -> meta1 = record_of (entry_of archive_id (fs st))) ->
    Forall (fun e => quiet e = true) evs ->
    finalize_outcome (Ok tt)
      (add_events
         (set_fs st
            (<[archive_id :=
                 with_meta (with_output (entry_of archive_id (fs st)) content)
                   (dict_set (dict_set meta1 "outputUrl" (JStr u))
                      "finalizedAt" (JStr stamp))]>
               (fs st)))
         (rounds cfg task_id k ++ [poll_event cfg task_id; EGet u] ++ evs)).
End FinalizeOutcome.

(** ** The shape of a Job Record *)

(** The success fields come together, and only with an output artifact. *)
Definition record_ok (e : entry) : Prop :=
  dict_has (record_of e) "outputUrl" = dict_has (record_of e) "finalizedAt"
  /\ (dict_has (record_of e) "outputUrl" = true -> output_png e <> None).

Definition store_ok (files : gmap string entry) : Prop :=
  forall a e, files !! a = Some e -> record_ok e.


(** ** Task identifiers in a create-job response *)

(** A task identifier: a string that is not empty. *)
Definition is_identifier (v : json) : bool :=
  match v with
  | JStr s => negb (String.eqb s "")
  | _ => false
  end.

(** The response holds an identifier under one of the recognized keys:
    [taskId], [task_id] or [id] inside the [data] object, a string-valued
    [data], or top-level [taskId] or [task_id]. *)
Definition has_recognized_id (resp : json) : bool :=
  match resp with
  | JDict r =>
      match dict_get r "data" with
      | JDict dd =>
          is_identifier (dict_get dd "taskId")
          || is_identifier (dict_get dd "task_id")
          || is_identifier (dict_get dd "id")
      | JStr s => is_identifier (JStr s)
      | _ => false
      end
      || is_identifier (dict_get r "taskId")
      || is_identifier (dict_get r "task_id")
  | _ => false
  end.

(** The values job creation looks at, in order; which ones depends on the
    shape of [data]. *)
Definition consulted (r : dict) : list json :=
  match dict_get r "data" with
  | JDict dd => [dict_get dd "taskId"; dict_get dd "task_id"; dict_get dd "id"]
  | JStr s => [JStr s]
  | _ => [dict_get r "taskId"; dict_get r "task_id"]
  end.

Definition first_truthy (vs : list json) : option json :=
  List.find truthy vs.

(** ** Sample configuration and environments *)

Definition sample_config : config :=
  {| API_KEY := "key"; WORKFLOW_ID := "workflow";
     BASE := "https://www.runninghub.ai";
     GDRIVE_ENABLED := true; GDRIVE_ROOT_FOLDER_ID := "root";
     TOKEN_PATH := "/etc/secrets/token.json" |}.

Definition ok_reply (body : json) : post_reply := PostResponse 200 (Some body) "".

(** An environment that answers the POST made at time [t] with [post t],
    serves [content] for every download, and whose mirror works or not. *)
Definition make_world
    (post : nat -> post_reply) (content : result bytes) (mirror_up : bool) : world :=
  {| w_post := fun t _ _ => post t;
     w_get := fun _ _ => content;
     w_now := fun _ => "2025-01-29T12:00:00";
     w_uuid := fun _ => "0a1b2c3d";
     w_random := fun _ => 7%Z;
     w_token_exists := fun _ => mirror_up;
     w_drive_build := fun _ => Ok tt;
     w_drive_create_folder :=
       fun _ _ _ => if mirror_up then Ok "folder-1" else Raise (HttpError "503");
     w_drive_upload :=
       fun _ _ _ _ _ => if mirror_up then Ok tt else Raise (HttpError "503") |}.

(** The POST made at time [t] gets the reply number [t / 2] of a script,
    an empty object once the script is over: a poll loop that starts at
    time 0 gets the replies of the script one after the other. *)
Definition scripted_world
    (script : list post_reply) (content : result bytes) (mirror_up : bool) : world :=
  make_world (fun t => nth (t / 2) script (ok_reply (JDict []))) content mirror_up.

Definition sample_png : bytes := ["P"%byte; "N"%byte; "G"%byte].

Definition sample_url_reply : post_reply :=
  ok_reply (JDict [("fileUrl", JStr "http://x/out.png")]).

(** An archive entry that is already finalized. *)
Definition finalized_entry : entry :=
  {| input_jpg := Some ["J"%byte]; output_png := Some sample_png;
     meta_json := Some [("archiveId", JStr "a1"); ("taskId", JStr "task-1")] |}.

(** An environment whose upstream answers at once and whose mirror is
    down, and an entry that was given a mirror folder at submission. *)
Definition mirror_down_world : world :=
  scripted_world [sample_url_reply] (Ok sample_png) false.

Definition mirrored_state : state :=
  init_state
    (<["a1" := with_meta empty_entry [("driveFolderId", JStr "folder-0")]]> ∅).

(** An environment whose upstream answers at once with a URL that cannot
    be downloaded. *)
Definition broken_download_world : world :=
  scripted_world [sample_url_reply] (Raise (HTTPStatusError "404 Not Found")) true.

(** An environment whose upstream never has an output. *)
Definition never_ready_world : world :=
  scripted_world [] (Ok sample_png) true.

(** An environment whose upstream has the output whenever it is asked. *)
Definition ready_world : world :=
  make_world (fun _ => sample_url_reply) (Ok sample_png) true.


(** What job creation makes of the reply to the create request
    (lines 87-93, then 233-235). *)
Definition created (reply : post_reply) : result json :=
  match decode_reply reply with
  | Ok run_resp => check_task_id run_resp
  | Raise e => Raise e
  end.

(** The response of [api_run] for a given outcome of job creation. *)
Definition run_response (archive_id : string) (r : result json) : response :=
  match r with
  | Ok task_id =>
      JSONResponse 200 (JDict [("taskId", task_id); ("archiveId", JStr archive_id)])
  | Raise e => ErrorResponse 500 e
  end.

(** A create-job reply with an identifier at top level next to a [data]
    object that has none. *)
Definition stray_id_response : json :=
  JDict [("code", JInt 0);
         ("data", JDict [("taskStatus", JStr "QUEUED")]);
         ("taskId", JStr "1907")].

Definition stray_id_world : world :=
  make_world (fun _ => ok_reply stray_id_response) (Ok sample_png) true.

(** ** The service on its event loop

    The routes and the background tasks are coroutines on one event loop:
    a coroutine runs alone from one [await] to the next, and at an [await]
    the others may run.  [api_run] awaits the reply to the create request
    (line 228); [finalize_job] awaits the reply to each poll (line 331),
    each sleep (line 338) and the download (line 348).  The store is read
    and written between the awaits, so the service moves by such pieces,
    in any order. *)

(** Where a finalize run in flight stands: about to make a poll attempt
    with [left] iterations of the loop to go (the loop is exhausted when
    [left] is 0), or out of the loop by [break], waiting for its
    download. *)
Inductive phase : Type :=
| Polling (left : nat)
| Leaving.

(** A finalize run in flight: its arguments, its locals [meta] (the copy
    of the Job Record read at line 321) and [image_url], and its phase. *)
Record run : Type := {
  run_task : json;
  run_archive : string;
  run_meta : dict;
  run_url : option string;
  run_phase : phase
}.

(** Lines 316-328 of [finalize_job], up to the poll loop: there is nothing
    to run when the entry is finalized. *)
Definition finalize_begin (task_id : json) (archive_id : string) : M (option run) :=
  get_play_dir archive_id ;;
  let* meta := read_meta archive_id in
  let* finalized := output_exists archive_id in
  if finalized then ret None
  else ret (Some {| run_task := task_id; run_archive := archive_id;
                    run_meta := meta; run_url := None;
                    run_phase := Polling 300 |}).

(** A submission in flight: [api_run] waiting for the reply to the create
    request it sent at time [sub_sent]. *)
Record submission : Type := {
  sub_archive : string;
  sub_template : string;
  sub_seed : Z;
  sub_folder : json;
  sub_payload : json;
  sub_sent : nat
}.

(** The server: the store, the finalize runs and the submissions in
    flight. *)
Record server : Type := {
  store : state;
  runs : list run;
  submissions : list submission
}.

Definition idle : server :=
  {| store := init_state ∅; runs := []; submissions := [] |}.

(** What makes the server move: a submission arrives; the create reply of
    a submission in flight arrives; a result request is served; a finalize
    run starts, for [/api/finalize] or for [/api/download] on an entry
    without output; a scheduled background task starts; a run in flight
    resumes from its await; the process restarts, which loses what is in
    flight or scheduled and keeps the archive. *)
Inductive action : Type :=
| Submit (photo : bytes) (templateId : string) (seed : option Z)
| Answer (i : nat)
| Ask (taskId : string)
| Start (task_id : json) (archive_id : string)
| StartTask (i : nat)
| Resume (i : nat)
| Restart.

Definition take_task (i : nat) (st : state) : state :=
  {| fs := fs st; trace := trace st; pending := delete i (pending st) |}.

Section Scheduling.
Variable cfg : config.
Variable w : world.

(** Lines 340-382 of [finalize_job], once the loop is left. *)
Definition finalize_end (archive_id : string) (meta : dict) (image_url : option string)
  : M unit :=
  match image_url with
  | Some u =>
      if truthy_url image_url
      then finalize_commit cfg w archive_id meta u
      else finalize_timeout archive_id meta
  | None => finalize_timeout archive_id meta
  end.

(** One piece of a run: a poll attempt with its [break] or its sleep, or
    the end of the run, after which nothing is left of it. *)
Definition run_step (r : run) : M (option run) :=
  match run_phase r with
  | Polling (S n) =>
      let* p := poll_once cfg w (run_task r) (run_url r) in
      if snd p
      then ret (Some {| run_task := run_task r; run_archive := run_archive r;
                        run_meta := run_meta r; run_url := fst p;
                        run_phase := Leaving |})
      else sleep 2 ;;
           ret (Some {| run_task := run_task r; run_archive := run_archive r;
                        run_meta := run_meta r; run_url := fst p;
                        run_phase := Polling n |})
  | _ => finalize_end (run_archive r) (run_meta r) (run_url r) ;; ret None
  end.

(** A run whose pieces follow each other with nothing in between. *)
Fixpoint run_alone (fuel : nat) (r : run) : M unit :=
  match fuel with
  | O => ret tt
  | S fuel' =>
      let* next := run_step r in
      match next with
      | Some r' => run_alone fuel' r'
      | None => ret tt
      end
  end.

(** Lines 195-231 of [api_run], up to the sending of the create
    request. *)
Definition submit_begin (photo : bytes) (templateId : string) (seed : option Z)
  : M submission :=
  let img_bytes := photo in
  let img_b64 := b64encode img_bytes in
  let* archive_id := make_archive_id w in
  get_play_dir archive_id ;;
  write_input archive_id img_bytes ;;
  let* seed :=
    match seed with
    | Some s => ret s
    | None => randint w 100000000 999999999
    end in
  let* drive_folder_id := mirror_input cfg w archive_id img_bytes in
  let payload := create_payload cfg img_b64 templateId seed in
  let* t := emit (EPost (RH_CREATE cfg) payload) in
  ret {| sub_archive := archive_id; sub_template := templateId;
         sub_seed := seed; sub_folder := drive_folder_id;
         sub_payload := payload; sub_sent := t |}.

(** Lines 87-93 of [rh_post_json], then lines 233-260 of [api_run]: from
    the reply to the create request on. *)
Definition submit_end (s : submission) : M response :=
  let* run_resp :=
    lift_result
      (decode_reply (w_post w (sub_sent s) (RH_CREATE cfg) (sub_payload s))) in
  let* task_id := lift_result (check_task_id run_resp) in
  let* created_at := now w in
  let meta :=
    [("archiveId", JStr (sub_archive s));
     ("taskId", task_id);
     ("templateId", JStr (sub_template s));
     ("seed", JInt (sub_seed s));
     ("createdAt", JStr created_at);
     ("driveFolderId", sub_folder s)] in
  write_meta (sub_archive s) meta ;;
  mirror_meta cfg w meta (sub_folder s) ;;
  add_task task_id (sub_archive s) ;;
  ret (JSONResponse 200
         (JDict [("taskId", task_id); ("archiveId", JStr (sub_archive s))])).

(** The start of a finalize run on the store [st]. *)
Definition start (task_id : json) (archive_id : string) (st : state) (sv : server)
  : server :=
  match finalize_begin task_id archive_id st with
  | (Ok (Some r), st') =>
      {| store := st'; runs := (runs sv ++ [r])%list;
         submissions := submissions sv |}
  | (_, st') =>
      {| store := st'; runs := runs sv; submissions := submissions sv |}
  end.

(** One move of the server.  What a route answers is left out: it does
    not touch the store.  An exception ends the coroutine it leaves. *)
Definition act (a : action) (sv : server) : server :=
  match a with
  | Submit photo templateId seed =>
      match require_env cfg with
      | Some _ => sv
      | None =>
          match submit_begin photo templateId seed (store sv) with
          | (Ok s, st') =>
              {| store := st'; runs := runs sv;
                 submissions := (submissions sv ++ [s])%list |}
          | (Raise _, st') =>
              {| store := st'; runs := runs sv; submissions := submissions sv |}
          end
      end
  | Answer i =>
      match submissions sv !! i with
      | Some s =>
          {| store := snd (submit_end s (store sv)); runs := runs sv;
             submissions := delete i (submissions sv) |}
      | None => sv
      end
  | Ask taskId =>
      {| store := snd (api_result cfg w taskId (store sv)); runs := runs sv;
         submissions := submissions sv |}
  | Start task_id archive_id => start task_id archive_id (store sv) sv
  | StartTask i =>
      match pending (store sv) !! i with
      | Some (task_id, archive_id) =>
          start task_id archive_id (take_task i (store sv)) sv
      | None => sv
      end
  | Resume i =>
      match runs sv !! i with
      | Some r =>
          match run_step r (store sv) with
          | (Ok (Some r'), st') =>
              {| store := st'; runs := <[i := r']> (runs sv);
                 submissions := submissions sv |}
          | (_, st') =>
              {| store := st'; runs := delete i (runs sv);
                 submissions := submissions sv |}
          end
      | None => sv
      end
  | Restart =>
      {| store := {| fs := fs (store sv); trace := trace (store sv);
                     pending := [] |};
         runs := []; submissions := [] |}
  end.
End Scheduling.

(** Every state the service can be in: it starts idle with an empty
    archive, and each move is made against some behaviour of the
    outside. *)
Inductive interleaved (cfg : config) : server -> Prop :=
| interleaved_idle : interleaved cfg idle
| interleaved_act (sv : server) (w : world) (a : action) :
    interleaved cfg sv -> interleaved cfg (act cfg w a sv).


(** A server with nothing in flight. *)
Definition at_rest (st : state) : server :=
  {| store := st; runs := []; submissions := [] |}.



(** [keeps_dirs m]: running [m] removes no directory of the archive. *)
Definition keeps_dirs {A} (m : M A) : Prop :=
  forall st a, is_Some (fs st !! a) -> is_Some (fs (snd (m st)) !! a).

(** A poll reply with a URL under [fileUrl] at its top level, next to a
    [data] field that is null; and an upstream that gives it as its third
    reply, after two empty objects and before empty objects again. *)
Definition url_beside_data : json :=
  JDict [("code", JInt 0); ("data", JNull);
         ("fileUrl", JStr "http://x/out.png")].

Definition url_beside_data_world : world :=
  scripted_world
    [ok_reply (JDict []); ok_reply (JDict []); ok_reply url_beside_data]
    (Ok sample_png) true.

(** A poll reply whose payload is a list with the URL inside, and an
    upstream that gives it as its third reply. *)
Definition url_in_list : json :=
  JDict [("code", JInt 0);
         ("data", JList [JDict [("fileUrl", JStr "http://x/out.png")]])].

Definition url_in_list_world : world :=
  scripted_world
    [ok_reply (JDict []); ok_reply (JDict [("data", JList [])]);
     ok_reply url_in_list]
    (Ok sample_png) false.


(** [preserves m]: running [m] keeps the store well shaped, whether it
    returns or raises. *)
Definition preserves {A} (m : M A) : Prop :=
  forall st, store_ok (fs st) -> store_ok (fs (snd (m st))).

(** ** Further notions: the log of a handler, replies by route *)

(** Calls to the mirror. *)
Definition is_drive (e : event) : bool :=
  match e with
  | ETokenExists | EDriveBuild | EDriveCreateFolder _ _ | EDriveUpload _ _ _ _ => true
  | _ => false
  end.

(** Events other than a call to the mirror, a sleep or a download. *)
Definition no_drive (e : event) : bool := negb (is_drive e).

Definition is_sleep (e : event) : bool :=
  match e with
  | ESleep _ => true
  | _ => false
  end.

Definition is_download (e : event) : bool :=
  match e with
  | EGet _ => true
  | _ => false
  end.

Definition no_wait (e : event) : bool := negb (is_sleep e) && negb (is_download e).

(** [emits_only P m]: whatever [m] does, it only appends to the log, and
    only events that satisfy [P]. *)
Definition emits_only {A} (P : event -> bool) (m : M A) : Prop :=
  forall st,
    exists evs,
      trace (snd (m st)) = (trace st ++ evs)%list
      /\ Forall (fun e => P e = true) evs.

(** The payload the routes search for a URL: [out.get("data", out)] of the
    decoded reply. *)
Definition reply_data (r : post_reply) : result json :=
  match decode_reply r with
  | Ok out => get_data out
  | Raise e => Raise e
  end.

Definition missing_env_response : response :=
  JSONResponse 500
    (JDict [("error", JStr "Missing RUNNINGHUB_API_KEY or RUNNINGHUB_WORKFLOW_ID")]).

Definition not_ready_response : response :=
  JSONResponse 404 (JDict [("error", JStr "Output not ready yet")]).

Definition download_name (archive_id : string) : string :=
  "AI_FaiChun_" ++ archive_id ++ ".png".

(** The archive id [make_archive_id] gives when called at time [t]. *)
Definition archive_id_at (w : world) (t : nat) : string :=
  w_now w t ++ "_" ++ w_uuid w (t + 1).

(** The Job Record [api_run] writes (lines 238-245). *)
Definition new_record
    (archive_id : string) (task_id : json) (templateId : string) (seed : Z)
    (created_at : string) (drive_folder_id : json) : dict :=
  [("archiveId", JStr archive_id);
   ("taskId", task_id);
   ("templateId", JStr templateId);
   ("seed", JInt seed);
   ("createdAt", JStr created_at);
   ("driveFolderId", drive_folder_id)].

(** The keys a finalize run writes into the Job Record. *)
Definition finalize_keys : list string :=
  ["finalizeError"; "outputUrl"; "finalizedAt"; "driveOutputUploadedAt"].


Definition task_reply : post_reply :=
  ok_reply (JDict [("code", JInt 0); ("data", JDict [("taskId", JStr "1907")])]).

Definition sample_photo : bytes := ["J"%byte; "P"%byte; "G"%byte].

(** A configuration without API key, and one without mirror. *)
Definition keyless_config : config :=
  {| API_KEY := ""; WORKFLOW_ID := "workflow";
     BASE := "https://www.runninghub.ai";
     GDRIVE_ENABLED := true; GDRIVE_ROOT_FOLDER_ID := "root";
     TOKEN_PATH := "/etc/secrets/token.json" |}.

Definition local_config : config :=
  {| API_KEY := "key"; WORKFLOW_ID := "workflow";
     BASE := "https://www.runninghub.ai";
     GDRIVE_ENABLED := false; GDRIVE_ROOT_FOLDER_ID := "";
     TOKEN_PATH := "" |}.

(** An environment whose mirror makes folders but takes no upload. *)
Definition half_mirror_world : world :=
  {| w_post := fun _ _ _ => task_reply;
     w_get := fun _ _ => Ok sample_png;
     w_now := fun _ => "2025-01-29T12:00:00";
     w_uuid := fun _ => "0a1b2c3d";
     w_random := fun _ => 7%Z;
     w_token_exists := fun _ => true;
     w_drive_build := fun _ => Ok tt;
     w_drive_create_folder := fun _ _ _ => Ok "folder-1";
     w_drive_upload := fun _ _ _ _ _ => Raise (HttpError "403") |}.

(** An upstream that turns every request down, and one that accepts every
    submission. *)
Definition refusing_world : world :=
  make_world (fun _ => PostResponse 500 None "Internal Server Error")
    (Ok sample_png) true.

Definition accepting_world : world :=
  make_world (fun _ => task_reply) (Ok sample_png) true.

(** What [api_run] may log: no sleep, no download, and no request other
    than the create request. *)
Definition submit_event (cfg : config) (e : event) : bool :=
  match e with
  | ESleep _ | EGet _ => false
  | EPost url _ => String.eqb url (RH_CREATE cfg)
  | _ => true
  end.

(** What a finalize run may log once it has downloaded [content]: reads of
    the clock, the opening of the mirror, and uploads into [folder] of
    [content] as [output.png] and of [record] as [meta.json]. *)
Definition mirror_copy
    (content : bytes) (record : dict) (folder : json) (e : event) : Prop :=
  e = ETokenExists \/ e = EDriveBuild \/ e = ENow
  \/ e = EDriveUpload "output.png" (Raw content) "image/png" folder
  \/ e = EDriveUpload "meta.json" (JsonText record) "application/json" folder.
Local Open Scope list_scope.

(** * Properties *)

(** ** URL extraction *)

Lemma check_key_app d found k :
  check_key d found k =
  found ++ match http_string (dict_get d k) with Some v => [v] | None => [] end.
Proof.
  unfold check_key, http_string.
  destruct (dict_get d k); try (now rewrite app_nil_r).
  destruct (String.prefix "http" s); [reflexivity | now rewrite app_nil_r].
Qed.

Lemma fold_check_key d ks found :
  fold_left (check_key d) ks found =
  found ++ flat_map (fun k => match http_string (dict_get d k) with
                              | Some v => [v]
                              | None => []
                              end) ks.
Proof.
  revert found; induction ks as [|k ks IH]; intros found; simpl.
  - now rewrite app_nil_r.
  - rewrite IH, check_key_app, <- app_assoc. reflexivity.
Qed.

Lemma walk_list_unfold l found :
  walk (JList l) found = fold_left (fun acc i => walk i acc) l found.
Proof.
  simpl. revert found. induction l as [|i l IH]; intros found; simpl; auto.
Qed.

Lemma walk_dict_unfold d found :
  walk (JDict d) found =
  fold_left (fun acc kv => walk (snd kv) acc) d
    (fold_left (check_key d) candidate_keys found).
Proof.
  cbn [walk].
  set (acc := fold_left (check_key d) candidate_keys found). clearbody acc.
  revert acc. induction d as [|kv vs IH]; intros acc; simpl; auto.
Qed.

Lemma fold_walk_items l :
  Forall (fun i => forall found, walk i found = found ++ all_urls i) l ->
  forall acc,
    fold_left (fun acc i => walk i acc) l acc = acc ++ flat_map all_urls l.
Proof.
  induction 1 as [|i l Hi _ IH]; intros acc; simpl.
  - now rewrite app_nil_r.
  - rewrite IH, Hi, <- app_assoc. reflexivity.
Qed.

Lemma fold_walk_values (vs : dict) :
  Forall (fun kv => forall found, walk (snd kv) found = found ++ all_urls (snd kv)) vs ->
  forall acc,
    fold_left (fun acc kv => walk (snd kv) acc) vs acc =
    acc ++ flat_map (fun kv => all_urls (snd kv)) vs.
Proof.
  induction 1 as [|kv vs Hkv _ IH]; intros acc; simpl.
  - now rewrite app_nil_r.
  - rewrite IH, Hkv, <- app_assoc. reflexivity.
Qed.

Lemma walk_app x : forall found, walk x found = found ++ all_urls x.
Proof.
  induction x as [| | | | |l IH|d IH] using json_nested_ind; intros found;
    try (unfold all_urls; simpl; now rewrite app_nil_r).
  - unfold all_urls. rewrite !walk_list_unfold, !(fold_walk_items l IH).
    reflexivity.
  - unfold all_urls. rewrite !walk_dict_unfold, !(fold_walk_values d IH).
    rewrite !fold_check_key, <- app_assoc. reflexivity.
Qed.

Lemma all_urls_list l : all_urls (JList l) = flat_map all_urls l.
Proof.
  unfold all_urls at 1. rewrite walk_list_unfold, fold_walk_items; [reflexivity|].
  apply Forall_forall. intros i _. apply walk_app.
Qed.

Lemma all_urls_dict d :
  all_urls (JDict d) = own_urls d ++ flat_map (fun kv => all_urls (snd kv)) d.
Proof.
  unfold all_urls at 1. rewrite walk_dict_unfold, fold_walk_values.
  - rewrite fold_check_key. reflexivity.
  - apply Forall_forall. intros kv _. apply walk_app.
Qed.

Lemma find_first_http_url_head x : find_first_http_url x = head (all_urls x).
Proof. unfold find_first_http_url, all_urls. destruct (walk x []); reflexivity. Qed.

Lemma head_flat_map {A} (f : A -> list string) (l : list A) :
  head (flat_map f l) = first_some (fun a => head (f a)) l.
Proof.
  induction l as [|a l IH]; simpl; auto.
  destruct (f a); simpl; auto.
Qed.

Lemma first_some_ext {A B} (f g : A -> option B) (l : list A) :
  Forall (fun a => f a = g a) l -> first_some f l = first_some g l.
Proof.
  induction 1 as [|a l Ha _ IH]; simpl; auto. rewrite Ha, IH. reflexivity.
Qed.

Lemma head_own_urls d :
  head (own_urls d) = first_some (fun k => http_string (dict_get d k)) candidate_keys.
Proof.
  unfold own_urls. rewrite head_flat_map. apply first_some_ext.
  apply Forall_forall. intros k _. destruct (http_string (dict_get d k)); reflexivity.
Qed.

Lemma first_http_url_spec_dict d :
  first_http_url_spec (JDict d) =
  match first_some (fun k => http_string (dict_get d k)) candidate_keys with
  | Some u => Some u
  | None => first_some (fun kv => first_http_url_spec (snd kv)) d
  end.
Proof. reflexivity. Qed.

Lemma find_first_http_url_refines x :
  find_first_http_url x = first_http_url_spec x.
Proof.
  rewrite find_first_http_url_head.
  induction x as [| | | | |l IH|d IH] using json_nested_ind; try reflexivity.
  - rewrite all_urls_list, head_flat_map. simpl. apply first_some_ext, IH.
  - rewrite all_urls_dict, first_http_url_spec_dict, <- head_own_urls. destruct (own_urls d) as [|u us]; simpl; auto.
    rewrite head_flat_map. apply first_some_ext, IH.
Qed.

Lemma http_string_Some v u :
  http_string v = Some u <-> v = JStr u /\ String.prefix "http" u = true.
Proof.
  unfold http_string. split.
  - destruct v; try discriminate.
    destruct (String.prefix "http" s) eqn:E; [|discriminate].
    intros [= ->]. auto.
  - intros [-> ->]. reflexivity.
Qed.

Lemma dict_get_JStr d k u :
  dict_get d k = JStr u <-> dict_lookup d k = Some (JStr u).
Proof.
  unfold dict_get. destruct (dict_lookup d k).
  - split; [intros ->; reflexivity | intros [= ->]; reflexivity].
  - split; discriminate.
Qed.

Lemma in_own_urls d u :
  In u (own_urls d) <->
  exists k, In k candidate_keys /\ dict_lookup d k = Some (JStr u)
            /\ String.prefix "http" u = true.
Proof.
  unfold own_urls. rewrite List.in_flat_map. split.
  - intros (k & Hk & Hu). exists k. split; [exact Hk|].
    destruct (http_string (dict_get d k)) as [v|] eqn:E; [|destruct Hu].
    destruct Hu as [->|[]]. apply http_string_Some in E as [E1 E2].
    apply dict_get_JStr in E1. auto.
  - intros (k & Hk & Hl & Hp). exists k. split; [exact Hk|].
    apply dict_get_JStr in Hl. rewrite Hl. simpl. rewrite Hp. now left.
Qed.

Lemma in_all_urls x u : In u (all_urls x) <-> candidate_in u x.
Proof.
  induction x as [| | | | |l IH|d IH] using json_nested_ind;
    try (split; [intros [] | inversion 1]).
  - rewrite all_urls_list, List.in_flat_map.
    rewrite List.Forall_forall in IH. split.
    + intros (i & Hi & Hu). apply candidate_in_item with i; [exact Hi|].
      now apply IH.
    + inversion 1 as [| |l' i Hi Hu]; subst. exists i. split; [exact Hi|].
      now apply IH.
  - rewrite all_urls_dict, List.in_app_iff, in_own_urls, List.in_flat_map.
    rewrite List.Forall_forall in IH. split.
    + intros [(k & Hk & Hl & Hp) | ([k v] & Hkv & Hu)].
      * now apply candidate_here with k.
      * apply candidate_in_value with k v; [exact Hkv|]. now apply (IH (k, v)).
    + inversion 1 as [d' k Hk Hl Hp | d' k v Hkv Hu |]; subst.
      * left. eauto.
      * right. exists (k, v). split; [exact Hkv|]. now apply (IH (k, v)).
Qed.

Lemma find_first_http_url_sound x u :
  find_first_http_url x = Some u -> candidate_in u x.
Proof.
  rewrite find_first_http_url_head. intros H. apply in_all_urls.
  destruct (all_urls x) as [|v vs]; [discriminate|].
  injection H as ->. now left.
Qed.

Lemma find_first_http_url_none x :
  find_first_http_url x = None <-> forall u, ~ candidate_in u x.
Proof.
  rewrite find_first_http_url_head. split.
  - intros H u Hu. apply in_all_urls in Hu.
    destruct (all_urls x); [destruct Hu | discriminate].
  - intros H. destruct (all_urls x) as [|v vs] eqn:E; [reflexivity|].
    exfalso. apply (H v), in_all_urls. rewrite E. now left.
Qed.

Lemma candidate_in_prefix u x : candidate_in u x -> String.prefix "http" u = true.
Proof. induction 1; auto. Qed.

(** C5. URL extraction returns the first match of a search that, at each
    dictionary, tries the keys [fileUrl], [url], [file], [path] in that
    order before it goes down into the values, depth first and in
    insertion order, and through the items of a list in order; it finds a
    URL exactly when some candidate key somewhere holds a string that
    starts with "http", and gives [None] exactly when there is none. *)
Theorem find_first_http_url_first_match (x : json) :
  find_first_http_url x = first_http_url_spec x
  /\ (forall d,
        find_first_http_url (JDict d) =
        match http_string (dict_get d "fileUrl") with
        | Some u => Some u
        | None =>
            match http_string (dict_get d "url") with
            | Some u => Some u
            | None =>
                match http_string (dict_get d "file") with
                | Some u => Some u
                | None =>
                    match http_string (dict_get d "path") with
                    | Some u => Some u
                    | None =>
                        first_some (fun kv => find_first_http_url (snd kv)) d
                    end
                end
            end
        end)
  /\ (forall l, find_first_http_url (JList l) = first_some find_first_http_url l)
  /\ ((exists u, candidate_in u x) <-> (exists u, find_first_http_url x = Some u))
  /\ ((forall u, ~ candidate_in u x) <-> find_first_http_url x = None).
Proof.
  split; [apply find_first_http_url_refines|]. split.
  { intros d. rewrite find_first_http_url_refines, first_http_url_spec_dict.
    unfold candidate_keys, first_some.
    repeat (destruct (http_string _); [reflexivity|]).
    apply first_some_ext, Forall_forall. intros kv _.
    symmetry. apply find_first_http_url_refines. }
  split.
  { intros l. rewrite find_first_http_url_refines. simpl.
    apply first_some_ext, Forall_forall. intros i _.
    symmetry. apply find_first_http_url_refines. }
  split.
  - split.
    + intros [u Hu]. destruct (find_first_http_url x) as [v|] eqn:E; [eauto|].
      exfalso. exact (proj1 (find_first_http_url_none x) E u Hu).
    + intros [u Hu]. exists u. now apply find_first_http_url_sound.
  - symmetry. apply find_first_http_url_none.
Qed.

(** C10. Whatever URL extraction returns is the value of a candidate key
    in some dictionary of the input and starts with "http"; without such a
    value the result is [None].  A string that is the input itself, an
    item of a list, the value of another key, or a candidate value that
    does not start with "http" is not returned. *)
Theorem find_first_http_url_only_candidates (x : json) :
  (forall u, find_first_http_url x = Some u ->
             candidate_in u x /\ String.prefix "http" u = true)
  /\ ((forall u, ~ candidate_in u x) -> find_first_http_url x = None)
  /\ (forall s, find_first_http_url (JStr s) = None)
  /\ (forall ss, find_first_http_url (JList (map JStr ss)) = None)
  /\ (forall k s, ~ In k candidate_keys ->
                  find_first_http_url (JDict [(k, JStr s)]) = None)
  /\ (forall k s, String.prefix "http" s = false ->
                  find_first_http_url (JDict [(k, JStr s)]) = None).
Proof.
  split.
  { intros u Hu. apply find_first_http_url_sound in Hu. split; [exact Hu|].
    now apply candidate_in_prefix with x. }
  split; [apply find_first_http_url_none|].
  split; [reflexivity|].
  split.
  { intros ss. apply find_first_http_url_none. intros u Hu.
    inversion Hu as [| |l i Hi Hc]; subst.
    apply List.in_map_iff in Hi as (s & <- & _). inversion Hc. }
  split.
  - intros k s Hk. apply find_first_http_url_none. intros u Hu.
    inversion Hu as [d k' Hk' Hl Hp | d k' v Hkv Hc |]; subst.
    + simpl in Hl. destruct (String.eqb_spec k k'); [subst; contradiction | discriminate].
    + destruct Hkv as [[= <- <-]|[]]. inversion Hc.
  - intros k s Hs. apply find_first_http_url_none. intros u Hu.
    inversion Hu as [d k' Hk' Hl Hp | d k' v Hkv Hc |]; subst.
    + simpl in Hl. destruct (String.eqb k k'); [|discriminate].
      injection Hl as ->. congruence.
    + destruct Hkv as [[= <- <-]|[]]. inversion Hc.
Qed.

(** ** The monad and the store *)

Lemma add_events_nil st : add_events st [] = st.
Proof. destruct st. unfold add_events. simpl. now rewrite app_nil_r. Qed.

Lemma add_events_app st evs evs' :
  add_events (add_events st evs) evs' = add_events st (evs ++ evs').
Proof. unfold add_events. simpl. now rewrite app_assoc. Qed.

Lemma emit_eq e st : emit e st = (Ok (length (trace st)), add_events st [e]).
Proof. reflexivity. Qed.

Lemma bind_Ok {A B} (m : M A) (k : A -> M B) st a st' :
  m st = (Ok a, st') -> bind m k st = k a st'.
Proof. unfold bind. now intros ->. Qed.

Lemma bind_Raise {A B} (m : M A) (k : A -> M B) st e st' :
  m st = (Raise e, st') -> bind m k st = (Raise e, st').
Proof. unfold bind. now intros ->. Qed.

Lemma try_catch_Ok {A} (m : M A) h st a st' :
  m st = (Ok a, st') -> try_catch m h st = (Ok a, st').
Proof. unfold try_catch. now intros ->. Qed.

Lemma try_catch_Raise {A} (m : M A) h st e st' :
  m st = (Raise e, st') -> try_catch m h st = h e st'.
Proof. unfold try_catch. now intros ->. Qed.

Lemma sleep_eq s st : sleep s st = (Ok tt, add_events st [ESleep s]).
Proof. reflexivity. Qed.

Lemma now_eq w st : now w st = (Ok (w_now w (length (trace st))), add_events st [ENow]).
Proof. reflexivity. Qed.

Lemma find_first_http_url_truthy x u :
  find_first_http_url x = Some u -> truthy_url (Some u) = true.
Proof.
  intros H. apply find_first_http_url_sound, candidate_in_prefix in H.
  simpl. destruct u; [discriminate | reflexivity].
Qed.

(** ** The poll loop *)

Section PollLoop.
Variable cfg : config.
Variable w : world.
Variable task_id : json.

Lemma poll_once_None st :
  poll_once cfg w task_id None st =
  (Ok (attempt_url cfg w task_id (length (trace st)) 0,
       match attempt_url cfg w task_id (length (trace st)) 0 with
       | Some _ => true
       | None => false
       end),
   add_events st [poll_event cfg task_id]).
Proof.
  unfold poll_once, rh_post_json, attempt_url, poll_reply, reply_url.
  unfold try_catch, bind. cbn beta. rewrite emit_eq, Nat.add_0_r.
  destruct (decode_reply _) as [out|e]; simpl; [|reflexivity].
  destruct (get_data out) as [data|e]; simpl; [|reflexivity].
  destruct (find_first_http_url data) as [u|] eqn:E; [|reflexivity].
  apply find_first_http_url_truthy in E. simpl in E. simpl. now rewrite E.
Qed.

Lemma attempt_url_shift t0 i :
  attempt_url cfg w task_id (t0 + 2) i = attempt_url cfg w task_id t0 (S i).
Proof.
  unfold attempt_url, poll_reply.
  replace (t0 + 2 + 2 * i) with (t0 + 2 * S i) by lia. reflexivity.
Qed.

Lemma length_trace_round st :
  length (trace (add_events st [poll_event cfg task_id; ESleep 2])) =
  length (trace st) + 2.
Proof. unfold add_events. simpl. rewrite length_app. reflexivity. Qed.

(** No attempt sees a URL: the loop runs all its rounds. *)
Lemma poll_loop_exhausted n : forall st,
  (forall i, i < n -> attempt_url cfg w task_id (length (trace st)) i = None) ->
  poll_loop cfg w n task_id None st =
  (Ok None, add_events st (rounds cfg task_id n)).
Proof.
  induction n as [|n IH]; intros st H.
  - simpl. unfold ret. now rewrite add_events_nil.
  - simpl. unfold bind at 1. rewrite poll_once_None.
    rewrite (H 0) by lia. simpl.
    rewrite (bind_Ok _ _ _ _ _ (sleep_eq _ _)), add_events_app. simpl app.
    rewrite IH.
    + rewrite add_events_app. reflexivity.
    + intros i Hi. rewrite length_trace_round, attempt_url_shift.
      apply H. lia.
Qed.

(** Attempt [k] is the first to see a URL: the loop breaks there. *)
Lemma poll_loop_found n : forall k st u,
  k < n ->
  (forall i, i < k -> attempt_url cfg w task_id (length (trace st)) i = None) ->
  attempt_url cfg w task_id (length (trace st)) k = Some u ->
  poll_loop cfg w n task_id None st =
  (Ok (Some u),
   add_events st (rounds cfg task_id k ++ [poll_event cfg task_id])).
Proof.
  induction n as [|n IH]; intros k st u Hk Hnone Hsome; [lia|].
  simpl. unfold bind at 1. rewrite poll_once_None.
  destruct k as [|k].
  - rewrite Hsome. reflexivity.
  - rewrite (Hnone 0) by lia. simpl.
    rewrite (bind_Ok _ _ _ _ _ (sleep_eq _ _)), add_events_app. simpl app.
    rewrite (IH k _ u).
    + rewrite add_events_app. reflexivity.
    + lia.
    + intros i Hi. rewrite length_trace_round, attempt_url_shift.
      apply Hnone. lia.
    + rewrite length_trace_round, attempt_url_shift. exact Hsome.
Qed.

(** One of the two happens. *)
Lemma first_attempt n (f : nat -> option string) :
  (forall i, i < n -> f i = None)
  \/ (exists k u, k < n /\ (forall i, i < k -> f i = None) /\ f k = Some u).
Proof.
  induction n as [|n [IH|(k & u & Hk & Hn & Hs)]].
  - left. intros i Hi. lia.
  - destruct (f n) as [u|] eqn:E.
    + right. exists n, u. auto.
    + left. intros i Hi. destruct (Nat.eq_dec i n) as [->|]; [exact E|].
      apply IH. lia.
  - right. exists k, u. split; [lia | auto].
Qed.
End PollLoop.

(** ** Store operations *)

Lemma set_fs_same st : set_fs st (fs st) = st.
Proof. now destruct st. Qed.

Lemma set_fs_set_fs st f g : set_fs (set_fs st f) g = set_fs st g.
Proof. reflexivity. Qed.

Lemma add_events_set_fs st f evs :
  add_events (set_fs st f) evs = set_fs (add_events st evs) f.
Proof. reflexivity. Qed.

Lemma fs_set_fs st f : fs (set_fs st f) = f.
Proof. reflexivity. Qed.

Lemma fs_add_events st evs : fs (add_events st evs) = fs st.
Proof. reflexivity. Qed.

Lemma trace_set_fs st f : trace (set_fs st f) = trace st.
Proof. reflexivity. Qed.

Lemma trace_add_events st evs : trace (add_events st evs) = trace st ++ evs.
Proof. reflexivity. Qed.

Lemma opened_lookup a files : opened a files !! a = Some (entry_of a files).
Proof.
  unfold opened, entry_of. destruct (files !! a) eqn:E; simpl.
  - exact E.
  - apply lookup_insert_eq.
Qed.

Lemma insert_opened a e files : <[a := e]> (opened a files) = <[a := e]> files.
Proof.
  unfold opened. destruct (files !! a); [reflexivity|]. apply insert_insert_eq.
Qed.

Lemma get_play_dir_eq a st :
  get_play_dir a st = (Ok tt, set_fs st (opened a (fs st))).
Proof.
  unfold get_play_dir, opened, bind, get_fs. cbn beta iota.
  destruct (fs st !! a); [|reflexivity].
  unfold ret. now rewrite set_fs_same.
Qed.

Lemma update_entry_eq a f st e :
  fs st !! a = Some e ->
  update_entry a f st = (Ok tt, set_fs st (<[a := f e]> (fs st))).
Proof.
  intros H. unfold update_entry, bind, get_fs. cbn beta iota. now rewrite H.
Qed.

Lemma read_meta_eq a st :
  read_meta a st = (Ok (record_of (entry_of a (fs st))), st).
Proof.
  unfold read_meta, bind, get_fs, ret, record_of, entry_of. cbn beta iota.
  destruct (fs st !! a) as [e|]; simpl; [|reflexivity].
  now destruct (meta_json e).
Qed.

Lemma output_exists_eq a st :
  output_exists a st =
  (Ok match output_png (entry_of a (fs st)) with Some _ => true | None => false end,
   st).
Proof.
  unfold output_exists, bind, get_fs, ret, entry_of. cbn beta iota.
  now destruct (fs st !! a).
Qed.

(** ** The mirror never stops the caller *)

Ltac quiet_tac :=
  repeat first [ assumption | apply Forall_app; split | constructor ].

Section Mirror.
Variable cfg : config.
Variable w : world.

Lemma get_drive_runs st :
  exists r evs,
    get_drive cfg w st = (r, add_events st evs)
    /\ Forall (fun e => quiet e = true) evs.
Proof.
  unfold get_drive.
  rewrite (bind_Ok _ _ _ _ _ (emit_eq _ _)).
  destruct (w_token_exists w (length (trace st))); simpl.
  - rewrite (bind_Ok _ _ _ _ _ (emit_eq _ _)), add_events_app.
    destruct (w_drive_build w _) as [[]|e]; simpl;
      eexists _, _; (split; [reflexivity|]); repeat constructor.
  - eexists _, _. split; [reflexivity|]. repeat constructor.
Qed.

Lemma drive_upload_bytes_runs name data mime parent st :
  drive_upload_bytes w name data mime parent st =
  (w_drive_upload w (length (trace st)) name data mime parent,
   add_events st [EDriveUpload name data mime parent]).
Proof.
  unfold drive_upload_bytes. rewrite (bind_Ok _ _ _ _ _ (emit_eq _ _)).
  now destruct (w_drive_upload w _ name data mime parent).
Qed.

Lemma mirror_output_runs img meta folder st :
  exists meta1 evs,
    mirror_output cfg w img meta folder st = (Ok meta1, add_events st evs)
    /\ (meta1 = meta
        \/ exists s, meta1 = dict_set meta "driveOutputUploadedAt" (JStr s))
    /\ (uploads_fail w -> meta1 = meta)
    /\ Forall (fun e => quiet e = true) evs.
Proof.
  unfold mirror_output.
  destruct (GDRIVE_ENABLED cfg && truthy folder).
  2:{ exists meta, []. rewrite add_events_nil. repeat split; auto. }
  destruct (get_drive_runs st) as (r & evs & Hd & Hq).
  unfold try_catch. destruct r as [[]|e].
  - rewrite (bind_Ok _ _ _ _ _ Hd). unfold bind at 1.
    rewrite drive_upload_bytes_runs, add_events_app.
    destruct (w_drive_upload w _ _ _ _ _) as [[]|e] eqn:Eu.
    + rewrite (bind_Ok _ _ _ _ _ (now_eq _ _)), add_events_app.
      eexists _, _. split; [reflexivity|]. split; [right; eauto|]. split.
      * intros Hf. destruct (Hf (length (trace (add_events st evs)))
          "output.png" (Raw img) "image/png" folder) as [e He].
        rewrite He in Eu. discriminate.
      * quiet_tac.
    + eexists _, _. split; [reflexivity|]. split; [now left|]. split; [auto|].
      quiet_tac.
  - rewrite (bind_Raise _ _ _ _ _ Hd).
    eexists _, _. split; [reflexivity|]. auto.
Qed.

Lemma mirror_meta_runs meta folder st :
  exists evs,
    mirror_meta cfg w meta folder st = (Ok tt, add_events st evs)
    /\ Forall (fun e => quiet e = true) evs.
Proof.
  unfold mirror_meta.
  destruct (GDRIVE_ENABLED cfg && truthy folder).
  2:{ exists []. rewrite add_events_nil. auto. }
  destruct (get_drive_runs st) as (r & evs & Hd & Hq).
  unfold try_catch. destruct r as [[]|e].
  - rewrite (bind_Ok _ _ _ _ _ Hd). unfold drive_upload_text.
    rewrite drive_upload_bytes_runs, add_events_app.
    destruct (w_drive_upload w _ _ _ _ _) as [[]|e];
      eexists; (split; [reflexivity|]); quiet_tac.
  - rewrite (bind_Raise _ _ _ _ _ Hd). eauto.
Qed.
End Mirror.

(** ** finalize_job refines the big-step description *)

Section Finalize.
Variable cfg : config.
Variable w : world.

Lemma download_eq u st :
  download w u st = (w_get w (length (trace st)) u, add_events st [EGet u]).
Proof.
  unfold download. rewrite (bind_Ok _ _ _ _ _ (emit_eq _ _)).
  now destruct (w_get w _ u).
Qed.

Lemma finalize_commit_fails a meta u st e :
  w_get w (length (trace st)) u = Raise e ->
  finalize_commit cfg w a meta u st = (Raise e, add_events st [EGet u]).
Proof.
  intros H. unfold finalize_commit. apply bind_Raise.
  now rewrite download_eq, H.
Qed.

Lemma finalize_commit_ok a meta u st e1 content :
  fs st !! a = Some e1 ->
  w_get w (length (trace st)) u = Ok content ->
  exists meta1 stamp evs,
    finalize_commit cfg w a meta u st =
    (Ok tt,
     add_events
       (set_fs st
          (<[a := with_meta (with_output e1 content)
                    (dict_set (dict_set meta1 "outputUrl" (JStr u))
                       "finalizedAt" (JStr stamp))]> (fs st)))
       (EGet u :: evs))
    /\ (meta1 = meta
        \/ exists s, meta1 = dict_set meta "driveOutputUploadedAt" (JStr s))
    /\ (uploads_fail w -> meta1 = meta)
    /\ Forall (fun e => quiet e = true) evs.
Proof.
  intros He Hg. unfold finalize_commit.
  rewrite (bind_Ok _ _ _ content (add_events st [EGet u])) by
    now rewrite download_eq, Hg.
  unfold write_output, write_meta.
  rewrite (bind_Ok _ _ _ _ _
             (update_entry_eq a _ (add_events st [EGet u]) e1 He)).
  match goal with |- context [mirror_output cfg w ?i ?m ?f] =>
    destruct (mirror_output_runs cfg w i m f
                (set_fs (add_events st [EGet u])
                   (<[a := with_output e1 content]> (fs (add_events st [EGet u])))))
      as (meta1 & evs1 & Hm & Hor & Hfail & Hq1)
  end.
  rewrite (bind_Ok _ _ _ _ _ Hm).
  rewrite (bind_Ok _ _ _ _ _ (now_eq _ _)).
  erewrite (bind_Ok _ _ _ tt).
  2:{ apply update_entry_eq. simpl. apply lookup_insert_eq. }
  match goal with |- context [mirror_meta cfg w ?m ?f ?s] =>
    destruct (mirror_meta_runs cfg w m f s) as (evs2 & Hmm & Hq2)
  end.
  exists meta1, (w_now w (length (trace st ++ [EGet u]) + length evs1)),
    (evs1 ++ [ENow] ++ evs2).
  split.
  - rewrite Hmm. f_equal. unfold add_events, set_fs. simpl.
    rewrite length_app, insert_insert_eq, <- !app_assoc. reflexivity.
  - repeat split; auto. quiet_tac.
Qed.

Lemma entry_of_opened a files : entry_of a (opened a files) = entry_of a files.
Proof. unfold entry_of at 1. now rewrite opened_lookup. Qed.

Lemma output_opened a files content :
  output_png (entry_of a files) = Some content -> opened a files = files.
Proof.
  unfold entry_of, opened. destruct (files !! a); [reflexivity | discriminate].
Qed.

Lemma length_rounds task_id k : length (rounds cfg task_id k) = 2 * k.
Proof. induction k as [|k IH]; simpl; [reflexivity | rewrite IH; lia]. Qed.

Lemma attempt_url_truthy task_id t i u :
  attempt_url cfg w task_id t i = Some u -> truthy_url (Some u) = true.
Proof.
  unfold attempt_url, reply_url.
  destruct (decode_reply _) as [out|]; [|discriminate].
  destruct (get_data out) as [data|]; [|discriminate].
  apply find_first_http_url_truthy.
Qed.

Lemma finalize_job_outcome task_id archive_id st :
  finalize_outcome cfg w task_id archive_id st
    (fst (finalize_job cfg w task_id archive_id st))
    (snd (finalize_job cfg w task_id archive_id st)).
Proof.
  unfold finalize_job.
  rewrite (bind_Ok _ _ _ _ _ (get_play_dir_eq _ _)).
  rewrite (bind_Ok _ _ _ _ _ (read_meta_eq _ _)).
  rewrite (bind_Ok _ _ _ _ _ (output_exists_eq _ _)).
  rewrite !fs_set_fs, entry_of_opened.
  set (st1 := set_fs st (opened archive_id (fs st))).
  destruct (output_png (entry_of archive_id (fs st))) as [content|] eqn:Eo.
  { unfold ret, st1. simpl. rewrite (output_opened _ _ _ Eo), set_fs_same.
    now apply fin_noop with content. }
  destruct (first_attempt 300 (attempt_url cfg w task_id (length (trace st))))
    as [Hnone | (k & u & Hk & Hnone & Hsome)].
  - rewrite (bind_Ok _ _ _ None
               (add_events st1 (rounds cfg task_id 300)))
      by (apply poll_loop_exhausted; exact Hnone).
    unfold finalize_timeout, write_meta.
    rewrite (update_entry_eq _ _ _ (entry_of archive_id (fs st)))
      by apply opened_lookup.
    simpl. unfold st1. simpl fs. rewrite insert_opened.
    now apply fin_timeout.
  - rewrite (bind_Ok _ _ _ (Some u)
               (add_events st1
                  (rounds cfg task_id k ++ [poll_event cfg task_id])))
      by (apply poll_loop_found; assumption).
    rewrite (attempt_url_truthy _ _ _ _ Hsome).
    assert (Hlen : length (trace (add_events st1
                     (rounds cfg task_id k ++ [poll_event cfg task_id]))) =
                   length (trace st) + 2 * k + 1).
    { simpl. rewrite !length_app, length_rounds. simpl. lia. }
    destruct (w_get w (length (trace st) + 2 * k + 1) u) as [content|e] eqn:Eg.
    + destruct (finalize_commit_ok archive_id
                  (record_of (entry_of archive_id (fs st))) u
                  (add_events st1
                     (rounds cfg task_id k ++ [poll_event cfg task_id]))
                  (entry_of archive_id (fs st)) content)
        as (meta1 & stamp & evs & Hc & Hor & Hfail & Hq).
      { apply opened_lookup. }
      { now rewrite Hlen. }
      rewrite Hc. simpl fst. simpl snd.
      replace (add_events _ (EGet u :: evs)) with
        (add_events
           (set_fs st
              (<[archive_id :=
                   with_meta (with_output (entry_of archive_id (fs st)) content)
                     (dict_set (dict_set meta1 "outputUrl" (JStr u))
                        "finalizedAt" (JStr stamp))]> (fs st)))
           (rounds cfg task_id k ++ [poll_event cfg task_id; EGet u] ++ evs)).
      * apply fin_commit with (content := content); auto. now split.
      * unfold add_events, set_fs, st1. simpl. rewrite insert_opened.
        rewrite <- !app_assoc. reflexivity.
    + rewrite finalize_commit_fails with (e := e) by now rewrite Hlen.
      simpl fst. simpl snd. rewrite add_events_app, <- app_assoc. simpl app.
      apply fin_download_fails; auto. now split.
Qed.
End Finalize.

(** ** Dictionaries *)

Lemma dict_lookup_set_eq d k v : dict_lookup (dict_set d k v) k = Some v.
Proof.
  induction d as [|[k' v'] d IH]; simpl.
  - now rewrite String.eqb_refl.
  - destruct (String.eqb k' k) eqn:E; simpl; rewrite E; auto.
Qed.

Lemma dict_lookup_set_ne d k k' v :
  k <> k' -> dict_lookup (dict_set d k v) k' = dict_lookup d k'.
Proof.
  intros Hne. induction d as [|[k0 v0] d IH]; simpl.
  - destruct (String.eqb_spec k k'); [contradiction | reflexivity].
  - destruct (String.eqb_spec k0 k) as [->|]; simpl.
    + destruct (String.eqb_spec k k'); [contradiction | reflexivity].
    + now rewrite IH.
Qed.

Lemma dict_has_set_eq d k v : dict_has (dict_set d k v) k = true.
Proof. unfold dict_has. now rewrite dict_lookup_set_eq. Qed.

Lemma dict_has_set_ne d k k' v :
  k <> k' -> dict_has (dict_set d k v) k' = dict_has d k'.
Proof. intros H. unfold dict_has. now rewrite dict_lookup_set_ne. Qed.

(** ** Counting the polls of a trace *)

Lemma count_polls_app evs evs' :
  count_polls (evs ++ evs') = count_polls evs + count_polls evs'.
Proof. unfold count_polls. now rewrite List.filter_app, length_app. Qed.

Lemma count_polls_rounds cfg task_id k : count_polls (rounds cfg task_id k) = k.
Proof.
  induction k as [|k IH]; [reflexivity|].
  change (rounds cfg task_id (S k)) with
    ([poll_event cfg task_id; ESleep 2] ++ rounds cfg task_id k).
  rewrite count_polls_app, IH. reflexivity.
Qed.

Lemma count_polls_quiet evs :
  Forall (fun e => quiet e = true) evs -> count_polls evs = 0.
Proof.
  induction 1 as [|e evs He _ IH]; [reflexivity|].
  change (e :: evs) with ([e] ++ evs). rewrite count_polls_app, IH.
  destruct e; try discriminate; reflexivity.
Qed.

(** ** The cases of a finalize run *)

Section FinalizeCases.
Variable cfg : config.
Variable w : world.
Variable task_id : json.
Variable archive_id : string.
Variable st : state.

Lemma first_ready_unique k u k' u' :
  first_ready cfg w task_id st k u ->
  first_ready cfg w task_id st k' u' ->
  k = k' /\ u = u'.
Proof.
  intros (Hk & Hn & Hs) (Hk' & Hn' & Hs').
  destruct (Nat.lt_trichotomy k k') as [Hlt|[->|Hlt]].
  - rewrite (Hn' k Hlt) in Hs. discriminate.
  - rewrite Hs in Hs'. injection Hs' as ->. auto.
  - rewrite (Hn k' Hlt) in Hs'. discriminate.
Qed.

Lemma never_first_ready k u :
  never_ready cfg w task_id st -> first_ready cfg w task_id st k u -> False.
Proof.
  intros Hnever (Hk & _ & Hs). rewrite (Hnever k Hk) in Hs. discriminate.
Qed.

Lemma finalize_job_runs :
  exists r st',
    finalize_job cfg w task_id archive_id st = (r, st')
    /\ finalize_outcome cfg w task_id archive_id st r st'.
Proof.
  pose proof (finalize_job_outcome cfg w task_id archive_id st) as H.
  destruct (finalize_job cfg w task_id archive_id st) as [r st'].
  eauto.
Qed.

Lemma finalize_job_when_finalized content :
  output_png (entry_of archive_id (fs st)) = Some content ->
  finalize_job cfg w task_id archive_id st = (Ok tt, st).
Proof.
  intros Ho. destruct finalize_job_runs as (r & st' & -> & Hout).
  inversion Hout; subst; try reflexivity; congruence.
Qed.

Lemma finalize_job_when_never_ready :
  output_png (entry_of archive_id (fs st)) = None ->
  never_ready cfg w task_id st ->
  finalize_job cfg w task_id archive_id st =
  (Ok tt,
   add_events
     (set_fs st
        (<[archive_id :=
             with_meta (entry_of archive_id (fs st))
               (dict_set (record_of (entry_of archive_id (fs st)))
                  "finalizeError" (JStr timeout_message))]> (fs st)))
     (rounds cfg task_id 300)).
Proof.
  intros Ho Hnever. destruct finalize_job_runs as (r & st' & -> & Hout).
  inversion Hout; subst; try reflexivity; try congruence;
    exfalso; eauto using never_first_ready.
Qed.

Lemma finalize_job_when_download_fails k u e :
  output_png (entry_of archive_id (fs st)) = None ->
  first_ready cfg w task_id st k u ->
  w_get w (length (trace st) + 2 * k + 1) u = Raise e ->
  finalize_job cfg w task_id archive_id st =
  (Raise e,
   add_events (set_fs st (opened archive_id (fs st)))
     (rounds cfg task_id k ++ [poll_event cfg task_id; EGet u])).
Proof.
  intros Ho Hready Hget. destruct finalize_job_runs as (r & st' & -> & Hout).
  inversion Hout as [c Hc | Hn Hnever | k' u' e' Hn Hr' Hg' | k' u' c' m1 s evs Hn Hr' Hg'];
    subst; try congruence.
  - exfalso. eauto using never_first_ready.
  - destruct (first_ready_unique _ _ _ _ Hready Hr') as [<- <-].
    rewrite Hget in Hg'. injection Hg' as <-. reflexivity.
  - destruct (first_ready_unique _ _ _ _ Hready Hr') as [<- <-]. congruence.
Qed.

Lemma finalize_job_when_downloaded k u content :
  output_png (entry_of archive_id (fs st)) = None ->
  first_ready cfg w task_id st k u ->
  w_get w (length (trace st) + 2 * k + 1) u = Ok content ->
  exists meta1 stamp evs,
    finalize_job cfg w task_id archive_id st =
    (Ok tt,
     add_events
       (set_fs st
          (<[archive_id :=
               with_meta (with_output (entry_of archive_id (fs st)) content)
                 (dict_set (dict_set meta1 "outputUrl" (JStr u))
                    "finalizedAt" (JStr stamp))]> (fs st)))
       (rounds cfg task_id k ++ [poll_event cfg task_id; EGet u] ++ evs))
    /\ (meta1 = record_of (entry_of archive_id (fs st))
        \/ exists s, meta1 = dict_set (record_of (entry_of archive_id (fs st)))
                               "driveOutputUploadedAt" (JStr s))
    /\ (uploads_fail w -> meta1 = record_of (entry_of archive_id (fs st)))
    /\ Forall (fun e => quiet e = true) evs.
Proof.
  intros Ho Hready Hget. destruct finalize_job_runs as (r & st' & -> & Hout).
  inversion Hout as [c Hc | Hn Hnever | k' u' e' Hn Hr' Hg' | k' u' c' m1 s evs Hn Hr' Hg' Hor Hfail Hq];
    subst; try congruence.
  - exfalso. eauto using never_first_ready.
  - destruct (first_ready_unique _ _ _ _ Hready Hr') as [<- <-]. congruence.
  - destruct (first_ready_unique _ _ _ _ Hready Hr') as [<- <-].
    rewrite Hget in Hg'. injection Hg' as <-.
    exists m1, s, evs. auto.
Qed.
End FinalizeCases.

(** ** The claims about a finalize run *)

#[local] Arguments rounds : simpl never.

Lemma entry_of_lookup a files e : files !! a = Some e -> entry_of a files = e.
Proof. unfold entry_of. now intros ->. Qed.

(** C1. When [output.png] already exists in the archive entry,
    [finalize_job] returns at once and leaves the whole state as it was:
    the store (Job Record and artifacts) and the log of outside calls (no
    poll, no download, no sleep, no mirror call). *)
Theorem finalize_job_idempotent
    (cfg : config) (w : world) (task_id : json) (archive_id : string)
    (st : state) (e : entry) (content : bytes) :
  fs st !! archive_id = Some e ->
  output_png e = Some content ->
  finalize_job cfg w task_id archive_id st = (Ok tt, st).
Proof.
  intros He Ho. apply finalize_job_when_finalized with content.
  now rewrite (entry_of_lookup _ _ _ He).
Qed.

Lemma finalize_job_idempotent_witness :
  finalize_job sample_config
    (scripted_world [sample_url_reply] (Ok sample_png) true)
    (JStr "task-1") "a1" (init_state (<["a1" := finalized_entry]> ∅)) =
  (Ok tt, init_state (<["a1" := finalized_entry]> ∅)).
Proof.
  apply (finalize_job_idempotent sample_config
           (scripted_world [sample_url_reply] (Ok sample_png) true)
           (JStr "task-1") "a1" (init_state (<["a1" := finalized_entry]> ∅))
           finalized_entry sample_png).
  - vm_compute. reflexivity.
  - reflexivity.
Defined.

(** C4. Whatever the outside does, a finalize run makes at most 300 poll
    attempts, each failed attempt followed by a sleep of 2 seconds, and
    polls or sleeps nowhere else.  When no attempt sees a URL, the run
    returns after 300 rounds, the stored Job Record holds [finalizeError]
    and there is still no output artifact. *)
Theorem finalize_job_poll_budget
    (cfg : config) (w : world) (task_id : json) (archive_id : string)
    (st : state) :
  (exists k found rest,
      let polls := rounds cfg task_id k
                   ++ (if found : bool then [poll_event cfg task_id] else []) in
      trace (snd (finalize_job cfg w task_id archive_id st)) =
        trace st ++ polls ++ rest
      /\ count_polls (polls ++ rest) = k + (if found then 1 else 0)
      /\ k + (if found then 1 else 0) <= 300
      /\ Forall (fun e => quiet e = true) rest)
  /\ (output_png (entry_of archive_id (fs st)) = None ->
      never_ready cfg w task_id st ->
      exists st',
        finalize_job cfg w task_id archive_id st = (Ok tt, st')
        /\ trace st' = trace st ++ rounds cfg task_id 300
        /\ exists e',
             fs st' !! archive_id = Some e'
             /\ output_png e' = None
             /\ dict_lookup (record_of e') "finalizeError" =
                Some (JStr timeout_message)).
Proof.
  split.
  - destruct (finalize_job_runs cfg w task_id archive_id st)
      as (r & st' & -> & Hout).
    cbn [snd].
    inversion Hout as [c Hc | Hn Hnever | k u e Hn Hr Hg
                      | k u c m1 s evs Hn Hr Hg Hor Hfail Hq]; subst.
    + exists 0, false, []. cbv zeta. rewrite !app_nil_r.
      repeat split; auto. lia.
    + exists 300, false, []. cbv zeta.
      rewrite trace_add_events, trace_set_fs, !app_nil_r, count_polls_rounds.
      repeat split; auto.
    + exists k, true, [EGet u]. cbv zeta. destruct Hr as (Hk & _).
      rewrite trace_add_events, trace_set_fs.
      rewrite !count_polls_app, count_polls_rounds, <- !app_assoc.
      repeat split; auto; try (simpl; lia); quiet_tac.
    + exists k, true, (EGet u :: evs). cbv zeta. destruct Hr as (Hk & _).
      rewrite trace_add_events, trace_set_fs.
      rewrite !count_polls_app, count_polls_rounds, <- !app_assoc.
      rewrite (count_polls_quiet (EGet u :: evs)) by (constructor; auto).
      repeat split; auto; try (simpl; lia); quiet_tac.
  - intros Ho Hnever. eexists. split.
    + apply finalize_job_when_never_ready; assumption.
    + split; [reflexivity|]. eexists. split.
      * rewrite fs_add_events, fs_set_fs. apply lookup_insert_eq.
      * split; [exact Ho|]. apply dict_lookup_set_eq.
Qed.

Lemma finalize_job_poll_budget_witness :
  exists st',
    finalize_job sample_config (scripted_world [] (Ok sample_png) true)
      (JStr "task-1") "a1" (init_state ∅) = (Ok tt, st')
    /\ trace st' = trace (init_state ∅) ++ rounds sample_config (JStr "task-1") 300
    /\ exists e',
         fs st' !! "a1" = Some e'
         /\ output_png e' = None
         /\ dict_lookup (record_of e') "finalizeError" = Some (JStr timeout_message).
Proof.
  apply (proj2 (finalize_job_poll_budget sample_config
                  (scripted_world [] (Ok sample_png) true)
                  (JStr "task-1") "a1" (init_state ∅))).
  - reflexivity.
  - intros i Hi. unfold attempt_url, poll_reply, scripted_world, make_world.
    cbn [w_post].
    match goal with |- context [nth ?n _ _] => destruct n end; reflexivity.
Defined.

Lemma find_first_http_url_fileUrl d u :
  dict_lookup d "fileUrl" = Some (JStr u) ->
  String.prefix "http" u = true ->
  find_first_http_url (JDict d) = Some u.
Proof.
  intros Hl Hp. rewrite find_first_http_url_refines, first_http_url_spec_dict.
  apply dict_get_JStr in Hl. unfold candidate_keys, first_some.
  rewrite Hl. unfold http_string. now rewrite Hp.
Qed.

(** C9, as stated, fails: the third reply holds a URL under the key
    [fileUrl], at its top level next to a [data] field that is null, the
    first two replies hold no candidate, and the run does not stop at the
    third attempt; it polls 300 times, downloads nothing and leaves the
    entry without output artifact. *)
Lemma finalize_job_misses_url_beside_data :
  let st' := snd (finalize_job sample_config url_beside_data_world
                    (JStr "task-1") "a1" (init_state ∅)) in
  (forall i, i < 2 ->
     poll_reply sample_config url_beside_data_world (JStr "task-1") 0 i =
     ok_reply (JDict []))
  /\ (forall u, ~ candidate_in u (JDict []))
  /\ poll_reply sample_config url_beside_data_world (JStr "task-1") 0 2 =
     ok_reply url_beside_data
  /\ candidate_in "http://x/out.png" url_beside_data
  /\ wf_json url_beside_data = true
  /\ count_polls (trace st') = 300
  /\ List.filter is_download (trace st') = []
  /\ output_png (entry_of "a1" (fs st')) = None.
Proof.
  cbv zeta. split.
  { intros i Hi. destruct i as [|[|i]]; [reflexivity | reflexivity | lia]. }
  split.
  { intros u Hu. inversion Hu as [d k Hk Hl Hp | d k v Hkv Hc |]; subst.
    - discriminate.
    - destruct Hkv. }
  split; [reflexivity|]. split.
  { apply candidate_here with "fileUrl"; [simpl; auto | reflexivity | reflexivity]. }
  split; [reflexivity|].
  vm_compute. repeat split.
Qed.

(** C9, amended.  When the first two poll attempts see no candidate URL
    and the third reply has a status below 400 and a JSON object as body
    whose payload (its [data] field when it has that key, the object itself
    otherwise) has [u] as its first candidate URL, whatever the candidate
    key and the depth, then a finalize run on an entry without output
    artifact, when the download of [u] succeeds, returns after exactly 3
    polls, the third followed at once by the download of [u], and stores
    the bytes it got as the output artifact.  [u] is a candidate of the
    payload, and a URL under [fileUrl] at the top of a payload object is
    that first candidate. *)
Theorem finalize_job_third_poll
    (cfg : config) (w : world) (task_id : json) (archive_id : string)
    (st : state) (status : Z) (out : json) (text : string) (data : json)
    (u : string) (content : bytes) :
  output_png (entry_of archive_id (fs st)) = None ->
  attempt_url cfg w task_id (length (trace st)) 0 = None ->
  attempt_url cfg w task_id (length (trace st)) 1 = None ->
  poll_reply cfg w task_id (length (trace st)) 2 =
    PostResponse status (Some out) text ->
  (status < 400)%Z ->
  get_data out = Ok data ->
  first_http_url_spec data = Some u ->
  w_get w (length (trace st) + 5) u = Ok content ->
  (exists st' evs rest,
     finalize_job cfg w task_id archive_id st = (Ok tt, st')
     /\ trace st' = trace st ++ evs
     /\ evs = rounds cfg task_id 2 ++ [poll_event cfg task_id; EGet u] ++ rest
     /\ Forall (fun e => quiet e = true) rest
     /\ count_polls evs = 3
     /\ In (EGet u) evs
     /\ exists e',
          fs st' !! archive_id = Some e' /\ output_png e' = Some content)
  /\ candidate_in u data
  /\ (forall d u',
        data = JDict d ->
        dict_lookup d "fileUrl" = Some (JStr u') ->
        String.prefix "http" u' = true ->
        u' = u).
Proof.
  intros Ho H0 H1 H2 Hs Hd Hspec Hg.
  rewrite <- find_first_http_url_refines in Hspec.
  assert (Hready : first_ready cfg w task_id st 2 u).
  { split; [lia|]. split.
    - intros i Hi. destruct i as [|[|i]]; [exact H0 | exact H1 | lia].
    - unfold attempt_url, reply_url. rewrite H2. simpl.
      destruct (Z.geb_spec status 400) as [|_]; [lia|].
      now rewrite Hd. }
  replace (length (trace st) + 5) with (length (trace st) + 2 * 2 + 1) in Hg
    by lia.
  destruct (finalize_job_when_downloaded cfg w task_id archive_id st 2 u content
              Ho Hready Hg) as (meta1 & stamp & rest & Hrun & _ & _ & Hq).
  split; [|split].
  - eexists _, _, rest. split; [exact Hrun|].
    split; [reflexivity|]. split; [reflexivity|]. split; [exact Hq|]. split.
    + rewrite !count_polls_app, count_polls_rounds.
      rewrite (count_polls_quiet rest Hq). reflexivity.
    + split.
      * apply List.in_or_app. right. simpl. auto.
      * eexists. split; [rewrite fs_add_events, fs_set_fs; apply lookup_insert_eq|].
        reflexivity.
  - now apply find_first_http_url_sound.
  - intros d u' -> Hl Hp.
    rewrite (find_first_http_url_fileUrl d u' Hl Hp) in Hspec. congruence.
Qed.

Lemma finalize_job_third_poll_witness :
  (exists st' evs rest,
     finalize_job sample_config url_in_list_world (JStr "task-1") "a1"
       (init_state ∅) = (Ok tt, st')
     /\ trace st' = trace (init_state ∅) ++ evs
     /\ evs = rounds sample_config (JStr "task-1") 2
              ++ [poll_event sample_config (JStr "task-1");
                  EGet "http://x/out.png"] ++ rest
     /\ Forall (fun e => quiet e = true) rest
     /\ count_polls evs = 3
     /\ In (EGet "http://x/out.png") evs
     /\ exists e', fs st' !! "a1" = Some e' /\ output_png e' = Some sample_png)
  /\ candidate_in "http://x/out.png"
       (JList [JDict [("fileUrl", JStr "http://x/out.png")]])
  /\ (forall d u',
        JList [JDict [("fileUrl", JStr "http://x/out.png")]] = JDict d ->
        dict_lookup d "fileUrl" = Some (JStr u') ->
        String.prefix "http" u' = true ->
        u' = "http://x/out.png").
Proof.
  apply (finalize_job_third_poll sample_config url_in_list_world
           (JStr "task-1") "a1" (init_state ∅)
           200%Z url_in_list ""
           (JList [JDict [("fileUrl", JStr "http://x/out.png")]])
           "http://x/out.png" sample_png);
    reflexivity.
Defined.

(** The mirror folder of [api_run]: when no folder can be made, the
    submission goes on without one. *)
Lemma mirror_input_down cfg w archive_id img st :
  folders_fail w ->
  exists evs,
    mirror_input cfg w archive_id img st = (Ok JNull, add_events st evs)
    /\ Forall (fun e => quiet e = true) evs.
Proof.
  intros Hf. unfold mirror_input. destruct (GDRIVE_ENABLED cfg).
  2:{ exists []. rewrite add_events_nil. auto. }
  destruct (get_drive_runs cfg w st) as (r & evs & Hd & Hq).
  unfold try_catch. destruct r as [[]|e].
  - rewrite (bind_Ok _ _ _ _ _ Hd). unfold bind at 1, drive_create_folder.
    rewrite (bind_Ok _ _ _ _ _ (emit_eq _ _)), add_events_app.
    match goal with |- context [w_drive_create_folder w ?t ?n ?p] =>
      destruct (Hf t n p) as [e ->] end.
    simpl. eexists. split; [reflexivity|]. quiet_tac.
  - rewrite (bind_Raise _ _ _ _ _ Hd). eauto.
Qed.

(** C7. When every operation on the mirror fails (no folder can be made,
    no upload goes through), a finalize run whose poll finds a URL and
    whose download succeeds returns normally, with the downloaded bytes as
    output artifact and the Job Record extended by [outputUrl] and
    [finalizedAt]; and the mirror step of a submission gives no folder
    instead of raising. *)
Theorem finalize_job_mirror_down
    (cfg : config) (w : world) (task_id : json) (archive_id : string)
    (st : state) (k : nat) (u : string) (content : bytes) :
  uploads_fail w ->
  folders_fail w ->
  output_png (entry_of archive_id (fs st)) = None ->
  first_ready cfg w task_id st k u ->
  w_get w (length (trace st) + 2 * k + 1) u = Ok content ->
  (exists stamp st',
      finalize_job cfg w task_id archive_id st = (Ok tt, st')
      /\ fs st' =
         <[archive_id :=
             {| input_jpg := input_jpg (entry_of archive_id (fs st));
                output_png := Some content;
                meta_json :=
                  Some (dict_set
                          (dict_set (record_of (entry_of archive_id (fs st)))
                             "outputUrl" (JStr u))
                          "finalizedAt" (JStr stamp)) |}]> (fs st))
  /\ (forall a img s,
        exists s', mirror_input cfg w a img s = (Ok JNull, s') /\ fs s' = fs s).
Proof.
  intros Hup Hfold Ho Hready Hg. split.
  - destruct (finalize_job_when_downloaded cfg w task_id archive_id st k u content
                Ho Hready Hg) as (meta1 & stamp & evs & Hrun & _ & Hfail & _).
    rewrite (Hfail Hup) in Hrun.
    exists stamp. eexists. split; [exact Hrun|]. reflexivity.
  - intros a img s. destruct (mirror_input_down cfg w a img s Hfold) as (evs & H & _).
    eexists. split; [exact H|]. reflexivity.
Qed.

Lemma finalize_job_mirror_down_witness :
  (exists stamp st',
      finalize_job sample_config mirror_down_world (JStr "task-1") "a1"
        mirrored_state = (Ok tt, st')
      /\ fs st' =
         <["a1" :=
             {| input_jpg := input_jpg (entry_of "a1" (fs mirrored_state));
                output_png := Some sample_png;
                meta_json :=
                  Some (dict_set
                          (dict_set (record_of (entry_of "a1" (fs mirrored_state)))
                             "outputUrl" (JStr "http://x/out.png"))
                          "finalizedAt" (JStr stamp)) |}]> (fs mirrored_state))
  /\ (forall a img s,
        exists s',
          mirror_input sample_config mirror_down_world a img s = (Ok JNull, s')
          /\ fs s' = fs s).
Proof.
  apply (finalize_job_mirror_down sample_config mirror_down_world
           (JStr "task-1") "a1" mirrored_state 0 "http://x/out.png" sample_png).
  - intros t name data mime parent. eexists. reflexivity.
  - intros t name parents. eexists. reflexivity.
  - reflexivity.
  - split; [lia|]. split; [intros i Hi; lia | reflexivity].
  - reflexivity.
Defined.

(** C3, as stated, fails: a download error leaves [finalize_job], and the
    route [api_finalize] with it, as an exception, and nothing is written
    to the Job Record. *)
Lemma finalize_job_download_error_raised :
  fst (finalize_job sample_config broken_download_world (JStr "task-1") "a1"
         (init_state ∅)) = Raise (HTTPStatusError "404 Not Found")
  /\ fst (api_finalize sample_config broken_download_world "task-1" "a1"
            (init_state ∅)) = Raise (HTTPStatusError "404 Not Found")
  /\ fs (snd (finalize_job sample_config broken_download_world (JStr "task-1")
                "a1" (init_state ∅))) !! "a1" = Some empty_entry.
Proof. vm_compute. repeat split. Qed.

Lemma api_finalize_eq cfg w taskId archiveId st :
  api_finalize cfg w taskId archiveId st =
  match finalize_job cfg w (JStr taskId) archiveId st with
  | (Ok _, st') => (Ok (JSONResponse 200 (JDict [("ok", JBool true)])), st')
  | (Raise e, st') => (Raise e, st')
  end.
Proof. reflexivity. Qed.

(** C3, amended.  Of the two fatal conditions only the timeout is
    recorded: when no attempt sees a URL, [finalize_job] returns normally
    with [finalizeError] in the stored Job Record.  When the download of
    the URL found fails, its exception leaves [finalize_job] and
    [api_finalize], and the entry is as it was. *)
Theorem finalize_job_fatal_conditions
    (cfg : config) (w : world) (taskId archive_id : string) (st : state) :
  output_png (entry_of archive_id (fs st)) = None ->
  (never_ready cfg w (JStr taskId) st ->
   exists st',
     finalize_job cfg w (JStr taskId) archive_id st = (Ok tt, st')
     /\ api_finalize cfg w taskId archive_id st =
        (Ok (JSONResponse 200 (JDict [("ok", JBool true)])), st')
     /\ exists e',
          fs st' !! archive_id = Some e'
          /\ dict_lookup (record_of e') "finalizeError" =
             Some (JStr timeout_message))
  /\ (forall k u e,
        first_ready cfg w (JStr taskId) st k u ->
        w_get w (length (trace st) + 2 * k + 1) u = Raise e ->
        exists st',
          finalize_job cfg w (JStr taskId) archive_id st = (Raise e, st')
          /\ api_finalize cfg w taskId archive_id st = (Raise e, st')
          /\ fs st' !! archive_id = Some (entry_of archive_id (fs st))).
Proof.
  intros Ho. split.
  - intros Hnever.
    pose proof (finalize_job_when_never_ready cfg w (JStr taskId) archive_id st
                  Ho Hnever) as Hrun.
    eexists. split; [exact Hrun|]. split.
    + rewrite api_finalize_eq, Hrun. reflexivity.
    + eexists. split; [rewrite fs_add_events, fs_set_fs; apply lookup_insert_eq|].
      apply dict_lookup_set_eq.
  - intros k u e Hready Hg.
    pose proof (finalize_job_when_download_fails cfg w (JStr taskId) archive_id st
                  k u e Ho Hready Hg) as Hrun.
    eexists. split; [exact Hrun|]. split.
    + rewrite api_finalize_eq, Hrun. reflexivity.
    + rewrite fs_add_events, fs_set_fs. apply opened_lookup.
Qed.

Lemma finalize_job_fatal_conditions_witness :
  exists st',
    finalize_job sample_config broken_download_world (JStr "task-1") "a1"
      (init_state ∅) = (Raise (HTTPStatusError "404 Not Found"), st')
    /\ api_finalize sample_config broken_download_world "task-1" "a1"
         (init_state ∅) = (Raise (HTTPStatusError "404 Not Found"), st')
    /\ fs st' !! "a1" = Some (entry_of "a1" (fs (init_state ∅))).
Proof.
  refine (proj2 (finalize_job_fatal_conditions sample_config broken_download_world
                   "task-1" "a1" (init_state ∅) _)
            0 "http://x/out.png" (HTTPStatusError "404 Not Found") _ _).
  - reflexivity.
  - split; [lia|]. split; [intros i Hi; lia | reflexivity].
  - reflexivity.
Defined.

(** ** The shape of the Job Records *)

Lemma record_ok_empty : record_ok empty_entry.
Proof. split; [reflexivity | discriminate]. Qed.


Lemma store_ok_insert files a e :
  store_ok files -> record_ok e -> store_ok (<[a := e]> files).
Proof.
  intros Hs He b e' H. destruct (decide (a = b)) as [->|Hne].
  - rewrite lookup_insert_eq in H. now injection H as <-.
  - rewrite lookup_insert_ne in H by exact Hne. now apply (Hs b).
Qed.

Lemma store_ok_opened files a : store_ok files -> store_ok (opened a files).
Proof.
  intros Hs. unfold opened. destruct (files !! a); [exact Hs|].
  apply store_ok_insert; [exact Hs | apply record_ok_empty].
Qed.

Lemma record_ok_entry_of files a : store_ok files -> record_ok (entry_of a files).
Proof.
  intros Hs. unfold entry_of. destruct (files !! a) as [e|] eqn:E; simpl.
  - now apply (Hs a).
  - apply record_ok_empty.
Qed.

Lemma record_ok_with_input e data : record_ok e -> record_ok (with_input e data).
Proof. intros H. exact H. Qed.

(** A record without the success fields is fine on any entry. *)
Lemma record_ok_fresh e meta :
  dict_has meta "outputUrl" = false ->
  dict_has meta "finalizedAt" = false ->
  record_ok (with_meta e meta).
Proof.
  intros H1 H2. unfold record_ok.
  change (record_of (with_meta e meta)) with meta. rewrite H1, H2.
  split; [reflexivity | discriminate].
Qed.

Lemma record_ok_error e v :
  record_ok e ->
  record_ok (with_meta e (dict_set (record_of e) "finalizeError" v)).
Proof.
  intros [H1 H2]. unfold record_ok.
  change (record_of (with_meta e (dict_set (record_of e) "finalizeError" v)))
    with (dict_set (record_of e) "finalizeError" v).
  rewrite !dict_has_set_ne by discriminate. split; assumption.
Qed.

Lemma record_ok_commit e content meta u stamp :
  record_ok
    (with_meta (with_output e content)
       (dict_set (dict_set meta "outputUrl" u) "finalizedAt" stamp)).
Proof.
  unfold record_ok.
  change (record_of (with_meta (with_output e content)
            (dict_set (dict_set meta "outputUrl" u) "finalizedAt" stamp)))
    with (dict_set (dict_set meta "outputUrl" u) "finalizedAt" stamp).
  rewrite dict_has_set_eq, dict_has_set_ne, dict_has_set_eq by discriminate.
  split; [reflexivity | discriminate].
Qed.


Section Preserves.
Variable cfg : config.
Variable w : world.

Lemma preserves_ret {A} (a : A) : preserves (ret a).
Proof. intros st H. exact H. Qed.

Lemma preserves_raise {A} e : preserves (@raise A e).
Proof. intros st H. exact H. Qed.

Lemma preserves_bind {A B} (m : M A) (k : A -> M B) :
  preserves m -> (forall a, preserves (k a)) -> preserves (bind m k).
Proof.
  intros Hm Hk st H. unfold bind. specialize (Hm st H).
  destruct (m st) as [[a|e] st']; simpl in *; [now apply Hk | exact Hm].
Qed.

Lemma preserves_try_catch {A} (m : M A) h :
  preserves m -> (forall e, preserves (h e)) -> preserves (try_catch m h).
Proof.
  intros Hm Hh st H. unfold try_catch. specialize (Hm st H).
  destruct (m st) as [[a|e] st']; simpl in *; [exact Hm | now apply Hh].
Qed.

Lemma preserves_lift_result {A} (r : result A) : preserves (lift_result r).
Proof. destruct r; intros st H; exact H. Qed.

Lemma preserves_emit e : preserves (emit e).
Proof. intros st H. exact H. Qed.

Lemma preserves_get_fs : preserves get_fs.
Proof. intros st H. exact H. Qed.

Lemma preserves_add_task t a : preserves (add_task t a).
Proof. intros st H. exact H. Qed.

Lemma preserves_take_pending : preserves take_pending.
Proof. intros st H. exact H. Qed.

Lemma preserves_get_play_dir a : preserves (get_play_dir a).
Proof.
  intros st H. rewrite get_play_dir_eq. simpl. now apply store_ok_opened.
Qed.

Lemma preserves_update_entry a f :
  (forall e, record_ok e -> record_ok (f e)) -> preserves (update_entry a f).
Proof.
  intros Hf st H. unfold update_entry, bind, get_fs. cbn beta iota.
  destruct (fs st !! a) as [e|] eqn:E; simpl; [|exact H].
  apply store_ok_insert; [exact H|]. apply Hf. now apply (H a).
Qed.

Lemma preserves_finalize_job task_id archive_id :
  preserves (finalize_job cfg w task_id archive_id).
Proof.
  intros st H.
  destruct (finalize_job_runs cfg w task_id archive_id st)
    as (r & st' & -> & Hout).
  pose proof (record_ok_entry_of _ archive_id H) as He.
  cbn [snd]. inversion Hout; subst.
  - exact H.
  - rewrite fs_add_events, fs_set_fs.
    apply store_ok_insert; [exact H | now apply record_ok_error].
  - rewrite fs_add_events, fs_set_fs. now apply store_ok_opened.
  - rewrite fs_add_events, fs_set_fs.
    apply store_ok_insert; [exact H | apply record_ok_commit].
Qed.
End Preserves.

Create HintDb preserves.
#[local] Hint Resolve preserves_ret preserves_raise preserves_lift_result
  preserves_emit preserves_get_fs preserves_add_task preserves_take_pending
  preserves_get_play_dir preserves_finalize_job : preserves.

Ltac preserves_tac :=
  repeat first
    [ solve [auto with preserves]
    | apply preserves_update_entry; intros ? ?
    | apply preserves_bind; [|intros ?]
    | apply preserves_try_catch; [|intros ?]
    | match goal with
      | |- preserves (if ?b then _ else _) => destruct b
      | |- preserves (match ?x with _ => _ end) => destruct x
      end ].

Section PreservesRoutes.
Variable cfg : config.
Variable w : world.

Lemma preserves_rh_post_json url payload : preserves (rh_post_json w url payload).
Proof. unfold rh_post_json. preserves_tac. Qed.

Lemma preserves_now : preserves (now w).
Proof. unfold now. preserves_tac. Qed.

Lemma preserves_get_drive : preserves (get_drive cfg w).
Proof. unfold get_drive. preserves_tac. Qed.

Lemma preserves_drive_upload_bytes n d m p :
  preserves (drive_upload_bytes w n d m p).
Proof. unfold drive_upload_bytes. preserves_tac. Qed.

#[local] Hint Resolve preserves_rh_post_json preserves_now preserves_get_drive
  preserves_drive_upload_bytes : preserves.

Lemma preserves_mirror_meta meta folder : preserves (mirror_meta cfg w meta folder).
Proof. unfold mirror_meta, drive_upload_text. preserves_tac. Qed.

Lemma preserves_mirror_input a img : preserves (mirror_input cfg w a img).
Proof. unfold mirror_input, drive_create_folder. preserves_tac. Qed.

#[local] Hint Resolve preserves_mirror_meta preserves_mirror_input : preserves.

Lemma preserves_api_run photo templateId seed :
  preserves (api_run cfg w photo templateId seed).
Proof.
  unfold api_run, make_archive_id, write_input, write_meta, create_job, randint.
  preserves_tac. now apply record_ok_fresh.
Qed.

Lemma preserves_run_tasks tasks : preserves (run_tasks cfg w tasks).
Proof.
  induction tasks as [|[t a] tasks IH]; simpl; preserves_tac.
Qed.

Lemma preserves_handle req : preserves (handle cfg w req).
Proof.
  destruct req; simpl.
  - unfold serve_run. apply preserves_bind; [apply preserves_api_run|intros ?].
    apply preserves_bind; [|intros ?; apply preserves_ret].
    apply preserves_try_catch; [|intros ?; apply preserves_ret].
    apply preserves_bind; [apply preserves_take_pending|intros ?].
    apply preserves_run_tasks.
  - unfold api_result. preserves_tac.
  - unfold api_finalize. preserves_tac.
  - unfold api_download, output_exists. preserves_tac.
Qed.
End PreservesRoutes.

(** ** The pieces of a finalize run *)

Lemma finalize_begin_eq task_id a st :
  finalize_begin task_id a st =
  (Ok match output_png (entry_of a (fs st)) with
      | Some _ => None
      | None =>
          Some {| run_task := task_id; run_archive := a;
                  run_meta := record_of (entry_of a (fs st));
                  run_url := None; run_phase := Polling 300 |}
      end,
   set_fs st (opened a (fs st))).
Proof.
  unfold finalize_begin.
  rewrite (bind_Ok _ _ _ _ _ (get_play_dir_eq _ _)).
  rewrite (bind_Ok _ _ _ _ _ (read_meta_eq _ _)).
  rewrite (bind_Ok _ _ _ _ _ (output_exists_eq _ _)).
  rewrite !fs_set_fs, entry_of_opened.
  now destruct (output_png (entry_of a (fs st))).
Qed.

Section Pieces.
Variable cfg : config.
Variable w : world.



Lemma run_step_end r st :
  match run_phase r with Polling (S _) => False | _ => True end ->
  run_step cfg w r st =
  match finalize_end cfg w (run_archive r) (run_meta r) (run_url r) st with
  | (Ok _, st') => (Ok None, st')
  | (Raise e, st') => (Raise e, st')
  end.
Proof.
  intros H. unfold run_step.
  destruct (run_phase r) as [[|n]|]; [| contradiction |]; reflexivity.
Qed.

Lemma run_alone_end fuel r st :
  match run_phase r with Polling (S _) => False | _ => True end ->
  run_alone cfg w (S fuel) r st =
  finalize_end cfg w (run_archive r) (run_meta r) (run_url r) st.
Proof.
  intros H. cbn [run_alone]. unfold bind. rewrite (run_step_end r st H).
  now destruct (finalize_end cfg w _ _ _ st) as [[[]|e] st'].
Qed.

(** The pieces of a run, one after the other, are the poll loop and what
    follows it. *)
Lemma run_alone_poll_loop n : forall fuel t a meta url st,
  n < fuel ->
  run_alone cfg w fuel
    {| run_task := t; run_archive := a; run_meta := meta; run_url := url;
       run_phase := Polling n |} st =
  bind (poll_loop cfg w n t url) (finalize_end cfg w a meta) st.
Proof.
  induction n as [|n IH]; intros fuel t a meta url st Hn;
    (destruct fuel as [|fuel]; [lia|]).
  - rewrite run_alone_end by exact I. reflexivity.
  - cbn [run_alone poll_loop]. unfold run_step. cbn [run_phase run_task run_url
      run_archive run_meta]. unfold bind.
    destruct (poll_once cfg w t url st) as [[[u b]|e] st1]; [|reflexivity].
    cbn [fst snd]. destruct b.
    + unfold ret. 
      destruct fuel as [|fuel]; [lia|].
      rewrite run_alone_end by exact I. reflexivity.
    + rewrite sleep_eq. unfold ret.
      rewrite IH by lia. reflexivity.
Qed.

(** [finalize_job] is a run scheduled alone. *)
Lemma finalize_job_sequential task_id a st :
  finalize_job cfg w task_id a st =
  match finalize_begin task_id a st with
  | (Ok (Some r), st1) => run_alone cfg w 301 r st1
  | (Ok None, st1) => (Ok tt, st1)
  | (Raise e, st1) => (Raise e, st1)
  end.
Proof.
  rewrite finalize_begin_eq. unfold finalize_job.
  rewrite (bind_Ok _ _ _ _ _ (get_play_dir_eq _ _)).
  rewrite (bind_Ok _ _ _ _ _ (read_meta_eq _ _)).
  rewrite (bind_Ok _ _ _ _ _ (output_exists_eq _ _)).
  rewrite !fs_set_fs, entry_of_opened.
  destruct (output_png (entry_of a (fs st))); [reflexivity|].
  rewrite run_alone_poll_loop by lia. reflexivity.
Qed.
End Pieces.

Lemma try_catch_bind {A B} (m : M A) (k : A -> M B) h st :
  try_catch (bind m k) h st =
  match m st with
  | (Ok a, st1) => try_catch (k a) h st1
  | (Raise e, st1) => h e st1
  end.
Proof. unfold try_catch, bind. now destruct (m st) as [[a|e] st1]. Qed.

Lemma bind_case {A B C} (m : M A) (k : A -> M B) (F : result B * state -> C) st :
  F (bind m k st) =
  match m st with
  | (Ok a, st1) => F (k a st1)
  | (Raise e, st1) => F (Raise e, st1)
  end.
Proof. unfold bind. now destruct (m st) as [[a|e] st1]. Qed.

(** [api_run] is a submission whose two pieces follow each other. *)
Lemma api_run_segments cfg w photo templateId seed st :
  api_run cfg w photo templateId seed st =
  match require_env cfg with
  | Some missing => (Ok missing, st)
  | None =>
      match submit_begin cfg w photo templateId seed st with
      | (Ok s, st1) =>
          try_catch (submit_end cfg w s) (fun e => ret (ErrorResponse 500 e)) st1
      | (Raise e, st1) => (Ok (ErrorResponse 500 e), st1)
      end
  end.
Proof.
  unfold api_run. destruct (require_env cfg); [reflexivity|].
  set (h := fun e : exn => ret (ErrorResponse 500 e)).
  set (F := fun rs : result submission * state =>
              match rs with
              | (Ok s, st1) => try_catch (submit_end cfg w s) h st1
              | (Raise e, st1) => h e st1
              end).
  change (try_catch
            (let img_bytes := photo in
             let img_b64 := b64encode img_bytes in
             let* archive_id := make_archive_id w in
             get_play_dir archive_id ;;
             write_input archive_id img_bytes ;;
             let* seed :=
               match seed with
               | Some s => ret s
               | None => randint w 100000000 999999999
               end in
             let* drive_folder_id := mirror_input cfg w archive_id img_bytes in
             let* task_id := create_job cfg w img_b64 templateId seed in
             let* created := now w in
             let meta :=
               [("archiveId", JStr archive_id);
                ("taskId", task_id);
                ("templateId", JStr templateId);
                ("seed", JInt seed);
                ("createdAt", JStr created);
                ("driveFolderId", drive_folder_id)] in
             write_meta archive_id meta ;;
             mirror_meta cfg w meta drive_folder_id ;;
             add_task task_id archive_id ;;
             ret (JSONResponse 200
                    (JDict [("taskId", task_id); ("archiveId", JStr archive_id)])))
            h st =
          F (submit_begin cfg w photo templateId seed st)).
  unfold submit_begin. cbv zeta.
  do 5 (rewrite try_catch_bind, (bind_case _ _ F);
        match goal with
        | |- match ?m ?s with _ => _ end = _ =>
            destruct (m s) as [[?|?] ?]; [|reflexivity]
        end).
  rewrite (bind_case _ _ F), emit_eq.
  unfold F, create_job, rh_post_json, submit_end, try_catch, bind.
  rewrite emit_eq. unfold ret at 1 2. cbn beta iota.
  cbn [sub_archive sub_template sub_seed sub_folder sub_payload sub_sent].
  destruct (decode_reply _) as [run_resp|e]; [|reflexivity].
  cbn [lift_result]. unfold ret. cbn beta iota.
  destruct (check_task_id run_resp); reflexivity.
Qed.

(** ** What every piece keeps *)

Lemma keeps_dirs_ret {A} (a : A) : keeps_dirs (ret a).
Proof. intros st b H. exact H. Qed.

Lemma keeps_dirs_raise {A} e : keeps_dirs (@raise A e).
Proof. intros st b H. exact H. Qed.

Lemma keeps_dirs_bind {A B} (m : M A) (k : A -> M B) :
  keeps_dirs m -> (forall a, keeps_dirs (k a)) -> keeps_dirs (bind m k).
Proof.
  intros Hm Hk st b H. unfold bind. specialize (Hm st b H).
  destruct (m st) as [[a|e] st']; simpl in *; [now apply Hk | exact Hm].
Qed.

Lemma keeps_dirs_try_catch {A} (m : M A) h :
  keeps_dirs m -> (forall e, keeps_dirs (h e)) -> keeps_dirs (try_catch m h).
Proof.
  intros Hm Hh st b H. unfold try_catch. specialize (Hm st b H).
  destruct (m st) as [[a|e] st']; simpl in *; [exact Hm | now apply Hh].
Qed.

Lemma keeps_dirs_lift_result {A} (r : result A) : keeps_dirs (lift_result r).
Proof. destruct r; intros st b H; exact H. Qed.

Lemma keeps_dirs_emit e : keeps_dirs (emit e).
Proof. intros st b H. exact H. Qed.

Lemma keeps_dirs_get_fs : keeps_dirs get_fs.
Proof. intros st b H. exact H. Qed.

Lemma keeps_dirs_add_task t a : keeps_dirs (add_task t a).
Proof. intros st b H. exact H. Qed.

Lemma is_Some_insert (files : gmap string entry) a e b :
  is_Some (files !! b) -> is_Some (<[a := e]> files !! b).
Proof.
  intros H. destruct (decide (a = b)) as [->|Hne].
  - rewrite lookup_insert_eq. eauto.
  - now rewrite lookup_insert_ne.
Qed.

Lemma is_Some_opened (files : gmap string entry) a b :
  is_Some (files !! b) -> is_Some (opened a files !! b).
Proof.
  intros H. unfold opened. destruct (files !! a); [exact H|].
  now apply is_Some_insert.
Qed.

Lemma keeps_dirs_get_play_dir a : keeps_dirs (get_play_dir a).
Proof. intros st b H. rewrite get_play_dir_eq. now apply is_Some_opened. Qed.

Lemma keeps_dirs_update_entry a f : keeps_dirs (update_entry a f).
Proof.
  intros st b H. unfold update_entry, bind, get_fs. cbn beta iota.
  destruct (fs st !! a) as [e|]; simpl; [|exact H]. now apply is_Some_insert.
Qed.

Create HintDb dirs.
#[local] Hint Resolve keeps_dirs_ret keeps_dirs_raise keeps_dirs_lift_result
  keeps_dirs_emit keeps_dirs_get_fs keeps_dirs_add_task keeps_dirs_get_play_dir
  keeps_dirs_update_entry : dirs.

Ltac dirs_tac :=
  repeat first
    [ solve [auto with dirs]
    | apply keeps_dirs_bind; [|intros ?]
    | apply keeps_dirs_try_catch; [|intros ?]
    | match goal with
      | |- keeps_dirs (if ?b then _ else _) => destruct b
      | |- keeps_dirs (match ?x with _ => _ end) => destruct x
      end ].

Section PiecesKeep.
Variable cfg : config.
Variable w : world.

Lemma preserves_finalize_begin task_id a : preserves (finalize_begin task_id a).
Proof. unfold finalize_begin, read_meta, output_exists. preserves_tac. Qed.




Lemma keeps_dirs_finalize_begin task_id a : keeps_dirs (finalize_begin task_id a).
Proof. unfold finalize_begin, read_meta, output_exists. dirs_tac. Qed.






End PiecesKeep.

(** ** The invariant of the event loop *)








(** ** Schedules *)


Section Alone.
Variable cfg : config.
Variable w : world.

(** A run scheduled alone is a schedule of the event loop. *)
Lemma run_alone_interleaved fuel : forall r st rs subs,
  match run_phase r with Polling n => S n | Leaving => 1 end <= fuel ->
  interleaved cfg {| store := st; runs := rs ++ [r]; submissions := subs |} ->
  interleaved cfg
    {| store := snd (run_alone cfg w fuel r st); runs := rs; submissions := subs |}.
Proof.
  induction fuel as [|fuel IH]; intros r st rs subs Hm Hreach.
  { destruct (run_phase r); lia. }
  pose proof (interleaved_act cfg _ w (Resume (length rs)) Hreach) as Hact.
  cbn [act runs store submissions] in Hact.
  rewrite list_lookup_middle in Hact by reflexivity.
  cbn [run_alone]. unfold bind.
  destruct (run_phase r) as [[|n]|] eqn:Ep.
  - rewrite run_step_end in Hact |- * by now rewrite Ep.
    destruct (finalize_end cfg w _ _ _ st) as [[[]|e] st'];
      rewrite delete_middle, app_nil_r in Hact; exact Hact.
  - unfold run_step in Hact |- *. rewrite Ep in Hact |- *.
    unfold bind in Hact |- *.
    destruct (poll_once cfg w (run_task r) (run_url r) st) as [[[u b]|e] st1].
    + cbn [fst snd] in Hact |- *. destruct b.
      * unfold ret in Hact |- *.
        rewrite insert_app_r_alt, Nat.sub_diag in Hact by lia.
        apply IH; [cbn [run_phase]; lia | exact Hact].
      * rewrite sleep_eq in Hact |- *. unfold ret in Hact |- *.
        rewrite insert_app_r_alt, Nat.sub_diag in Hact by lia.
        apply IH; [cbn [run_phase]; lia | exact Hact].
    + rewrite delete_middle, app_nil_r in Hact. exact Hact.
  - rewrite run_step_end in Hact |- * by now rewrite Ep.
    destruct (finalize_end cfg w _ _ _ st) as [[[]|e] st'];
      rewrite delete_middle, app_nil_r in Hact; exact Hact.
Qed.

(** So is a call of [finalize_job] that nothing interrupts. *)
Lemma interleaved_finalize_job task_id a sv :
  interleaved cfg sv ->
  interleaved cfg
    {| store := snd (finalize_job cfg w task_id a (store sv));
       runs := runs sv; submissions := submissions sv |}.
Proof.
  intros Hreach.
  pose proof (interleaved_act cfg _ w (Start task_id a) Hreach) as Hact.
  cbn [act] in Hact. unfold start in Hact.
  rewrite finalize_job_sequential.
  destruct (finalize_begin task_id a (store sv)) as [[[r|]|e] st1] eqn:Eb;
    try exact Hact.
  apply run_alone_interleaved; [|exact Hact].
  rewrite finalize_begin_eq in Eb.
  destruct (output_png (entry_of a (fs (store sv)))); [discriminate|].
  injection Eb as <- _. cbn [run_phase]. lia.
Qed.


Lemma opened_opened a (files : gmap string entry) :
  opened a (opened a files) = opened a files.
Proof.
  unfold opened at 1. now rewrite opened_lookup.
Qed.

Lemma finalize_job_opened task_id a st :
  finalize_job cfg w task_id a (set_fs st (opened a (fs st))) =
  finalize_job cfg w task_id a st.
Proof.
  unfold finalize_job.
  rewrite !(bind_Ok _ _ _ _ _ (get_play_dir_eq _ _)).
  now rewrite fs_set_fs, opened_opened, set_fs_set_fs.
Qed.

(** [api_download] moves the store as the finalize run it makes. *)
Lemma api_download_store taskId archiveId st :
  snd (api_download cfg w taskId archiveId st) =
  snd (finalize_job cfg w (JStr taskId) archiveId st).
Proof.
  unfold api_download.
  rewrite (bind_Ok _ _ _ _ _ (get_play_dir_eq _ _)).
  rewrite (bind_Ok _ _ _ _ _ (output_exists_eq _ _)).
  rewrite fs_set_fs, entry_of_opened.
  destruct (output_png (entry_of archiveId (fs st))) as [content|] eqn:Eo.
  - rewrite (finalize_job_when_finalized cfg w _ _ _ content Eo).
    rewrite (output_opened _ _ _ Eo), set_fs_same. cbn [negb snd].
    unfold bind, ret, get_fs. cbn beta iota.
    now destruct (fs st !! archiveId) as [[i [o|] m]|].
  - cbn [negb]. unfold bind at 1. rewrite finalize_job_opened.
    destruct (finalize_job cfg w (JStr taskId) archiveId st) as [[[]|e] st'];
      [|reflexivity].
    unfold bind, ret, get_fs. cbn beta iota.
    now destruct (fs st' !! archiveId) as [[i [o|] m]|].
Qed.

Lemma interleaved_api_download taskId archiveId st :
  interleaved cfg (at_rest st) ->
  interleaved cfg
    (at_rest (snd (handle cfg w (DownloadRequest taskId archiveId) st))).
Proof.
  intros Hreach. cbn [handle]. rewrite api_download_store.
  exact (interleaved_finalize_job (JStr taskId) archiveId _ Hreach).
Qed.

(** A submission that nothing interrupts, its background task still to
    come. *)
Lemma interleaved_api_run photo templateId seed st :
  interleaved cfg (at_rest st) ->
  interleaved cfg (at_rest (snd (api_run cfg w photo templateId seed st))).
Proof.
  intros Hreach. rewrite api_run_segments.
  pose proof (interleaved_act cfg _ w (Submit photo templateId seed) Hreach)
    as Hact.
  cbn [act at_rest store runs submissions] in Hact.
  destruct (require_env cfg); [exact Hreach|].
  destruct (submit_begin cfg w photo templateId seed st) as [[s|e] st1];
    [|exact Hact].
  pose proof (interleaved_act cfg _ w (Answer 0) Hact) as Hend.
  cbn [act store runs submissions app] in Hend. simpl in Hend.
  unfold try_catch.
  destruct (submit_end cfg w s st1) as [[resp|e] st2]; exact Hend.
Qed.

Lemma interleaved_api_result taskId st :
  interleaved cfg (at_rest st) ->
  interleaved cfg (at_rest (snd (handle cfg w (ResultRequest taskId) st))).
Proof.
  intros Hreach. exact (interleaved_act cfg _ w (Ask taskId) Hreach).
Qed.
End Alone.

Lemma entry_of_insert a e files : entry_of a (<[a := e]> files) = e.
Proof. unfold entry_of. now rewrite lookup_insert_eq. Qed.




(** ** Job creation *)

Section ApiRun.
Variable cfg : config.
Variable w : world.

Lemma make_archive_id_eq st :
  make_archive_id w st =
  (Ok (w_now w (length (trace st)) ++ "_" ++ w_uuid w (length (trace st) + 1))%string,
   add_events st [ENow; EUuid]).
Proof.
  unfold make_archive_id.
  rewrite (bind_Ok _ _ _ _ _ (now_eq _ _)).
  rewrite (bind_Ok _ _ _ _ _ (emit_eq _ _)), add_events_app.
  unfold ret. rewrite trace_add_events, length_app. reflexivity.
Qed.

Lemma rh_post_json_eq url payload st :
  rh_post_json w url payload st =
  (decode_reply (w_post w (length (trace st)) url payload),
   add_events st [EPost url payload]).
Proof.
  unfold rh_post_json. rewrite (bind_Ok _ _ _ _ _ (emit_eq _ _)).
  now destruct (decode_reply _).
Qed.

Lemma create_job_eq img_b64 templateId seed st :
  create_job cfg w img_b64 templateId seed st =
  (created (w_post w (length (trace st)) (RH_CREATE cfg)
              (create_payload cfg img_b64 templateId seed)),
   add_events st
     [EPost (RH_CREATE cfg) (create_payload cfg img_b64 templateId seed)]).
Proof.
  unfold create_job, created, bind. rewrite rh_post_json_eq.
  destruct (decode_reply _) as [run_resp|e]; [|reflexivity].
  now destruct (check_task_id run_resp).
Qed.

Lemma mirror_input_runs archive_id img st :
  exists folder evs,
    mirror_input cfg w archive_id img st = (Ok folder, add_events st evs).
Proof.
  unfold mirror_input. destruct (GDRIVE_ENABLED cfg).
  2:{ exists JNull, []. now rewrite add_events_nil. }
  destruct (get_drive_runs cfg w st) as (r & evs & Hd & _).
  unfold try_catch. destruct r as [[]|e].
  - rewrite (bind_Ok _ _ _ _ _ Hd). unfold bind at 1, drive_create_folder.
    rewrite (bind_Ok _ _ _ _ _ (emit_eq _ _)), add_events_app.
    destruct (w_drive_create_folder w _ _ _) as [folder|e]; simpl.
    + unfold bind at 1. rewrite drive_upload_bytes_runs, add_events_app.
      destruct (w_drive_upload w _ _ _ _ _) as [[]|e]; simpl; eauto.
    + eauto.
  - rewrite (bind_Raise _ _ _ _ _ Hd). simpl. eauto.
Qed.

Lemma randint_eq lo hi st :
  randint w lo hi st =
  (Ok (lo + w_random w (length (trace st)) mod (hi - lo + 1))%Z,
   add_events st [ERandint lo hi]).
Proof. reflexivity. Qed.

(** [api_run] sends the create request whatever the template and the
    mirror do, and answers by what job creation makes of the reply. *)
Lemma api_run_outcome photo templateId seed st :
  require_env cfg = None ->
  exists archive_id seed' t st',
    (forall s, seed = Some s -> seed' = s)
    /\ api_run cfg w photo templateId seed st =
       (Ok (run_response archive_id
              (created (w_post w t (RH_CREATE cfg)
                          (create_payload cfg (b64encode photo) templateId seed')))),
        st')
    /\ In (EPost (RH_CREATE cfg)
             (create_payload cfg (b64encode photo) templateId seed'))
          (trace st')
    /\ (forall task_id,
          created (w_post w t (RH_CREATE cfg)
                     (create_payload cfg (b64encode photo) templateId seed')) =
          Ok task_id ->
          pending st' = pending st ++ [(task_id, archive_id)]
          /\ exists e, fs st' !! archive_id = Some e
               /\ input_jpg e = Some photo
               /\ dict_lookup (record_of e) "taskId" = Some task_id).
Proof.
  intros Henv. unfold api_run. rewrite Henv. unfold try_catch.
  rewrite (bind_Ok _ _ _ _ _ (make_archive_id_eq _)).
  set (aid := (w_now w (length (trace st)) ++ "_"
               ++ w_uuid w (length (trace st) + 1))%string).
  rewrite (bind_Ok _ _ _ _ _ (get_play_dir_eq _ _)).
  unfold write_input.
  erewrite (bind_Ok _ _ _ tt) by (apply update_entry_eq, opened_lookup).
  rewrite fs_set_fs, fs_add_events, insert_opened, set_fs_set_fs.
  set (e1 := with_input (entry_of aid (fs st)) photo).
  set (S2 := set_fs (add_events st [ENow; EUuid]) (<[aid := e1]> (fs st))).
  assert (Hseed : exists seed' evs,
             (forall s, seed = Some s -> seed' = s)
             /\ match seed with
                | Some s => ret s
                | None => randint w 100000000 999999999
                end S2 = (Ok seed', add_events S2 evs)).
  { destruct seed as [s|].
    - exists s, []. split; [now intros ? [= ->]|]. now rewrite add_events_nil.
    - eexists _, _. split; [discriminate|]. apply randint_eq. }
  destruct Hseed as (seed' & evs_s & Hseed' & Hs).
  rewrite (bind_Ok _ _ _ _ _ Hs).
  destruct (mirror_input_runs aid photo (add_events S2 evs_s))
    as (folder & evs_m & Hm).
  rewrite (bind_Ok _ _ _ _ _ Hm), add_events_app.
  set (S4 := add_events S2 (evs_s ++ evs_m)).
  exists aid, seed', (length (trace S4)).
  pose proof (create_job_eq (b64encode photo) templateId seed' S4) as Hc.
  destruct (created _) as [task_id|e] eqn:Ecr.
  - rewrite (bind_Ok _ _ _ _ _ Hc).
    rewrite (bind_Ok _ _ _ _ _ (now_eq _ _)), add_events_app.
    unfold write_meta.
    erewrite (bind_Ok _ _ _ tt).
    2:{ apply update_entry_eq. unfold S4, S2.
        rewrite !fs_add_events, fs_set_fs. apply lookup_insert_eq. }
    match goal with |- context [mirror_meta cfg w ?m ?f] =>
      match goal with |- context [bind (mirror_meta cfg w m f) _ ?s] =>
        destruct (mirror_meta_runs cfg w m f s) as (evs_mm & Hmm & _)
      end
    end.
    rewrite (bind_Ok _ _ _ _ _ Hmm).
    unfold bind, add_task, ret. cbn beta iota.
    eexists. split; [exact Hseed'|]. split; [reflexivity|]. split.
    + cbn [trace add_events set_fs]. unfold S4.
      rewrite !trace_add_events. rewrite !List.in_app_iff. simpl. auto.
    + intros tid [= <-]. split; [reflexivity|].
      eexists. split.
      * cbn [fs add_events set_fs]. apply lookup_insert_eq.
      * split; reflexivity.
  - rewrite (bind_Raise _ _ _ _ _ Hc). unfold ret.
    eexists. split; [exact Hseed'|]. split; [reflexivity|]. split.
    + rewrite trace_add_events, List.in_app_iff. right. now left.
    + discriminate.
Qed.
End ApiRun.

Lemma check_task_id_consulted (r : dict) :
  check_task_id (JDict r) =
  match first_truthy (consulted r) with
  | Some task_id => Ok task_id
  | None => Raise (RuntimeError "Missing taskId from run response:" [JDict r])
  end.
Proof.
  unfold check_task_id, extract_task_id, consulted, first_truthy, py_or.
  destruct (dict_get r "data") as [| | | | s | l | dd]; cbn [List.find].
  all: repeat match goal with
         | |- context [if truthy ?x then _ else _] =>
             destruct (truthy x) eqn:?; cbn [negb]
         end;
       repeat match goal with
         | H : truthy ?x = _ |- context [truthy ?x] => rewrite H
         end;
       cbn [negb]; try reflexivity; try congruence.
Qed.

Lemma created_ok_reply status r text :
  (status < 400)%Z ->
  created (PostResponse status (Some (JDict r)) text) = check_task_id (JDict r).
Proof.
  intros H. unfold created, decode_reply.
  destruct (Z.geb_spec status 400) as [|_]; [lia | reflexivity].
Qed.

(** C6, as stated, fails: a reply with a task identifier under the
    top-level key [taskId] and a [data] object without one is turned
    down. *)
Lemma create_job_misses_top_level_id :
  wf_json stray_id_response = true
  /\ has_recognized_id stray_id_response = true
  /\ check_task_id stray_id_response =
     Raise (RuntimeError "Missing taskId from run response:" [stray_id_response])
  /\ fst (api_run sample_config stray_id_world sample_png "fai_chun_01" (Some 5%Z)
            (init_state ∅)) =
     Ok (ErrorResponse 500
           (RuntimeError "Missing taskId from run response:" [stray_id_response])).
Proof. vm_compute. repeat split. Qed.

(** C6, amended.  Job creation looks at one group of keys only, chosen by
    the shape of [data]: [taskId], [task_id], [id] of [data] when it is an
    object; [data] itself when it is a string; the top-level [taskId],
    [task_id] otherwise.  It returns the first truthy value of that group,
    in that order, and fails with the missing-task-id error, a 500
    response, when the group holds none. *)
Theorem create_job_by_shape (r : dict) :
  check_task_id (JDict r) =
    match first_truthy (consulted r) with
    | Some task_id => Ok task_id
    | None => Raise (RuntimeError "Missing taskId from run response:" [JDict r])
    end
  /\ (forall cfg w photo templateId seed st status text,
        require_env cfg = None ->
        (forall t payload,
            w_post w t (RH_CREATE cfg) payload =
            PostResponse status (Some (JDict r)) text) ->
        (status < 400)%Z ->
        exists archive_id,
          fst (api_run cfg w photo templateId seed st) =
          Ok match first_truthy (consulted r) with
             | Some task_id =>
                 JSONResponse 200
                   (JDict [("taskId", task_id); ("archiveId", JStr archive_id)])
             | None =>
                 ErrorResponse 500
                   (RuntimeError "Missing taskId from run response:" [JDict r])
             end).
Proof.
  split; [apply check_task_id_consulted|].
  intros cfg w photo templateId seed st status text Henv Hw Hs.
  destruct (api_run_outcome cfg w photo templateId seed st Henv)
    as (archive_id & seed' & t & st' & _ & Hrun & _).
  exists archive_id. rewrite Hrun, Hw, (created_ok_reply _ _ _ Hs).
  rewrite check_task_id_consulted. cbn [fst].
  now destruct (first_truthy (consulted r)).
Qed.

(** C8. The switch value of a template is given by the table
    [fai_chun_01] to [fai_chun_04] giving 1 to 4 and every other string
    giving 1; and whatever the template is, a configured [api_run] sends
    the create request, with that switch value in node 582. *)
Theorem switch_value_total (templateId : string) :
  switch_value templateId =
    (if String.eqb templateId "fai_chun_01" then 1
     else if String.eqb templateId "fai_chun_02" then 2
     else if String.eqb templateId "fai_chun_03" then 3
     else if String.eqb templateId "fai_chun_04" then 4
     else 1)%Z
  /\ (1 <= switch_value templateId <= 4)%Z
  /\ (forall cfg w photo seed st,
        require_env cfg = None ->
        exists seed',
          In (EPost (RH_CREATE cfg)
                (JDict [("apiKey", JStr (API_KEY cfg));
                        ("workflowId", JStr (WORKFLOW_ID cfg));
                        ("nodeInfoList",
                         JList [node_info "627" "data" (b64encode photo);
                                node_info "582" "value"
                                  (str_of_int (switch_value templateId));
                                node_info "471" "noise_seed" (str_of_int seed')])]))
             (trace (snd (api_run cfg w photo templateId seed st)))).
Proof.
  assert (Htable :
    switch_value templateId =
      (if String.eqb templateId "fai_chun_01" then 1
       else if String.eqb templateId "fai_chun_02" then 2
       else if String.eqb templateId "fai_chun_03" then 3
       else if String.eqb templateId "fai_chun_04" then 4
       else 1)%Z).
  { destruct (String.eqb_spec templateId "fai_chun_01") as [->|H1];
      [reflexivity|].
    destruct (String.eqb_spec templateId "fai_chun_02") as [->|H2];
      [reflexivity|].
    destruct (String.eqb_spec templateId "fai_chun_03") as [->|H3];
      [reflexivity|].
    destruct (String.eqb_spec templateId "fai_chun_04") as [->|H4];
      [reflexivity|].
    unfold switch_value, TEMPLATE_TO_INT.
    rewrite !lookup_insert_ne by congruence. now rewrite lookup_empty. }
  split; [exact Htable|]. split.
  - rewrite Htable.
    repeat match goal with |- context [if ?b then _ else _] => destruct b end; lia.
  - intros cfg w photo seed st Henv.
    destruct (api_run_outcome cfg w photo templateId seed st Henv)
      as (archive_id & seed' & t & st' & _ & Hrun & Hin & _).
    exists seed'. rewrite Hrun. exact Hin.
Qed.

(** * Further properties of the routes *)

(** ** api_download *)

Section Download.
Variable cfg : config.
Variable w : world.

Lemma api_download_eq taskId archiveId st :
  api_download cfg w taskId archiveId st =
  match output_png (entry_of archiveId (fs st)) with
  | Some content =>
      (Ok (FileResponse content "image/png" (download_name archiveId)), st)
  | None =>
      match finalize_job cfg w (JStr taskId) archiveId
              (set_fs st (opened archiveId (fs st))) with
      | (Ok _, st') =>
          (Ok match output_png (entry_of archiveId (fs st')) with
              | Some content =>
                  FileResponse content "image/png" (download_name archiveId)
              | None => not_ready_response
              end, st')
      | (Raise e, st') => (Raise e, st')
      end
  end.
Proof.
  unfold api_download.
  rewrite (bind_Ok _ _ _ _ _ (get_play_dir_eq _ _)).
  rewrite (bind_Ok _ _ _ _ _ (output_exists_eq _ _)).
  rewrite fs_set_fs, entry_of_opened.
  destruct (output_png (entry_of archiveId (fs st))) as [content|] eqn:Eo.
  - cbn [negb]. rewrite (output_opened _ _ _ Eo), set_fs_same.
    unfold bind, ret, get_fs. cbn beta iota.
    unfold entry_of in Eo. destruct (fs st !! archiveId) as [e|]; [|discriminate].
    simpl in Eo. destruct e as [i o m]. simpl in Eo. subst o. reflexivity.
  - cbn [negb]. unfold bind at 1.
    destruct (finalize_job cfg w (JStr taskId) archiveId _) as [[[]|e] st'];
      [|reflexivity].
    unfold bind, get_fs, ret, entry_of. cbn beta iota.
    destruct (fs st' !! archiveId) as [[i [c|] m]|]; reflexivity.
Qed.
End Download.


(** X1. When the output artifact is already archived, [api_download]
    serves it as [image/png] under the name [AI_FaiChun_<archiveId>.png]
    and does nothing else: no outside call, no change of the store. *)
Theorem api_download_serves_archive
    (cfg : config) (w : world) (taskId archiveId : string) (st : state)
    (e : entry) (content : bytes) :
  fs st !! archiveId = Some e ->
  output_png e = Some content ->
  api_download cfg w taskId archiveId st =
  (Ok (FileResponse content "image/png" ("AI_FaiChun_" ++ archiveId ++ ".png")),
   st).
Proof.
  intros He Ho. rewrite api_download_eq, (entry_of_lookup _ _ _ He), Ho.
  reflexivity.
Qed.

Lemma api_download_serves_archive_witness :
  api_download sample_config never_ready_world "task-1" "a1"
    (init_state (<["a1" := finalized_entry]> ∅)) =
  (Ok (FileResponse sample_png "image/png" ("AI_FaiChun_" ++ "a1" ++ ".png")),
   init_state (<["a1" := finalized_entry]> ∅)).
Proof.
  apply (api_download_serves_archive sample_config never_ready_world "task-1" "a1"
           (init_state (<["a1" := finalized_entry]> ∅)) finalized_entry sample_png).
  - vm_compute. reflexivity.
  - reflexivity.
Defined.



(** X3. When there is no output artifact and the inline finalize finds a
    URL, [api_download] serves the bytes it has just downloaded and
    archived; when that download fails, its exception leaves
    [api_download] and no output artifact is written. *)
Theorem api_download_inline_finalize
    (cfg : config) (w : world) (taskId archiveId : string) (st : state)
    (k : nat) (u : string) :
  output_png (entry_of archiveId (fs st)) = None ->
  first_ready cfg w (JStr taskId) st k u ->
  (forall content,
      w_get w (length (trace st) + 2 * k + 1) u = Ok content ->
      exists st',
        api_download cfg w taskId archiveId st =
          (Ok (FileResponse content "image/png"
                 ("AI_FaiChun_" ++ archiveId ++ ".png")), st')
        /\ output_png (entry_of archiveId (fs st')) = Some content)
  /\ (forall e,
        w_get w (length (trace st) + 2 * k + 1) u = Raise e ->
        exists st',
          api_download cfg w taskId archiveId st = (Raise e, st')
          /\ output_png (entry_of archiveId (fs st')) = None).
Proof.
  intros Ho Hready.
  assert (Ho1 : output_png
                  (entry_of archiveId
                     (fs (set_fs st (opened archiveId (fs st))))) = None)
    by (rewrite fs_set_fs, entry_of_opened; exact Ho).
  split.
  - intros content Hg.
    destruct (finalize_job_when_downloaded cfg w (JStr taskId) archiveId
                (set_fs st (opened archiveId (fs st))) k u content Ho1 Hready Hg)
      as (meta1 & stamp & evs & Hrun & _).
    rewrite api_download_eq, Ho, Hrun.
    rewrite !fs_add_events, !fs_set_fs, entry_of_insert.
    eexists. split; [reflexivity|].
    rewrite fs_add_events, fs_set_fs, entry_of_insert. reflexivity.
  - intros e Hg.
    rewrite api_download_eq, Ho.
    rewrite (finalize_job_when_download_fails cfg w (JStr taskId) archiveId
               (set_fs st (opened archiveId (fs st))) k u e Ho1 Hready Hg).
    eexists. split; [reflexivity|].
    rewrite fs_add_events, !fs_set_fs, !entry_of_opened. exact Ho.
Qed.

Lemma api_download_inline_finalize_witness :
  exists st',
    api_download sample_config ready_world "task-1" "a1" (init_state ∅) =
      (Ok (FileResponse sample_png "image/png" ("AI_FaiChun_" ++ "a1" ++ ".png")),
       st')
    /\ output_png (entry_of "a1" (fs st')) = Some sample_png.
Proof.
  refine (proj1 (api_download_inline_finalize sample_config ready_world
                   "task-1" "a1" (init_state ∅) 0 "http://x/out.png" _ _)
            sample_png _).
  - reflexivity.
  - split; [lia|]. split; [intros i Hi; lia | reflexivity].
  - reflexivity.
Defined.

(** ** require_env and api_result *)

Lemma require_env_missing cfg :
  API_KEY cfg = "" \/ WORKFLOW_ID cfg = "" ->
  require_env cfg = Some missing_env_response.
Proof.
  unfold require_env. intros [-> | ->].
  - reflexivity.
  - rewrite orb_true_r. reflexivity.
Qed.

Lemma require_env_present cfg :
  API_KEY cfg <> "" -> WORKFLOW_ID cfg <> "" -> require_env cfg = None.
Proof.
  intros Hk Hw. unfold require_env.
  destruct (String.eqb_spec (API_KEY cfg) ""); [contradiction|].
  destruct (String.eqb_spec (WORKFLOW_ID cfg) ""); [contradiction|].
  reflexivity.
Qed.

(** X4. Without an API key or without a workflow id, [api_run] and
    [api_result] answer 500 with the missing-configuration message and do
    nothing else: no archive entry is made, nothing is sent, no task is
    scheduled. *)
Theorem routes_need_env
    (cfg : config) (w : world) (photo : bytes) (templateId taskId : string)
    (seed : option Z) (st : state) :
  API_KEY cfg = "" \/ WORKFLOW_ID cfg = "" ->
  api_run cfg w photo templateId seed st =
    (Ok (JSONResponse 500
           (JDict [("error",
                    JStr "Missing RUNNINGHUB_API_KEY or RUNNINGHUB_WORKFLOW_ID")])),
     st)
  /\ api_result cfg w taskId st =
    (Ok (JSONResponse 500
           (JDict [("error",
                    JStr "Missing RUNNINGHUB_API_KEY or RUNNINGHUB_WORKFLOW_ID")])),
     st).
Proof.
  intros H. apply require_env_missing in H.
  unfold api_run, api_result. rewrite H. split; reflexivity.
Qed.

Lemma routes_need_env_witness :
  api_run keyless_config ready_world sample_photo "fai_chun_01" None (init_state ∅) =
    (Ok (JSONResponse 500
           (JDict [("error",
                    JStr "Missing RUNNINGHUB_API_KEY or RUNNINGHUB_WORKFLOW_ID")])),
     init_state ∅)
  /\ api_result keyless_config ready_world "task-1" (init_state ∅) =
    (Ok (JSONResponse 500
           (JDict [("error",
                    JStr "Missing RUNNINGHUB_API_KEY or RUNNINGHUB_WORKFLOW_ID")])),
     init_state ∅).
Proof.
  apply (routes_need_env keyless_config ready_world sample_photo "fai_chun_01"
           "task-1" None (init_state ∅)).
  left. reflexivity.
Defined.

(** X5. A configured [api_result] is a one-shot check: it sends exactly
    one request, the poll for the task, never sleeps, never raises and
    leaves the store alone.  It answers [ready] with the URL exactly when
    URL extraction finds one in the payload of the reply, [ready: false]
    when the reply holds none, and 500 with the error when the call or
    the reading of the reply raises. *)
Theorem api_result_one_shot
    (cfg : config) (w : world) (taskId : string) (st : state) :
  require_env cfg = None ->
  api_result cfg w taskId st =
  (Ok match reply_data (w_post w (length (trace st)) (RH_OUTPUTS cfg)
                          (outputs_payload cfg (JStr taskId))) with
      | Ok data =>
          match find_first_http_url data with
          | Some u =>
              JSONResponse 200 (JDict [("ready", JBool true); ("imageUrl", JStr u)])
          | None =>
              JSONResponse 200 (JDict [("ready", JBool false); ("imageUrl", JNull)])
          end
      | Raise e => ErrorResponse 500 e
      end,
   add_events st [EPost (RH_OUTPUTS cfg) (outputs_payload cfg (JStr taskId))]).
Proof.
  intros Henv. unfold api_result, reply_data. rewrite Henv.
  unfold try_catch, bind at 1. rewrite rh_post_json_eq.
  destruct (decode_reply _) as [out|e]; [|reflexivity].
  unfold bind, lift_result.
  destruct (get_data out) as [data|e]; [|reflexivity].
  cbn beta iota. unfold ret.
  destruct (find_first_http_url data) as [u|] eqn:E; [|reflexivity].
  now rewrite (find_first_http_url_truthy _ _ E).
Qed.

Lemma api_result_one_shot_witness :
  api_result sample_config ready_world "task-1" (init_state ∅) =
  (Ok match reply_data (w_post ready_world (length (trace (init_state ∅)))
                          (RH_OUTPUTS sample_config)
                          (outputs_payload sample_config (JStr "task-1"))) with
      | Ok data =>
          match find_first_http_url data with
          | Some u =>
              JSONResponse 200 (JDict [("ready", JBool true); ("imageUrl", JStr u)])
          | None =>
              JSONResponse 200 (JDict [("ready", JBool false); ("imageUrl", JNull)])
          end
      | Raise e => ErrorResponse 500 e
      end,
   add_events (init_state ∅)
     [EPost (RH_OUTPUTS sample_config)
        (outputs_payload sample_config (JStr "task-1"))]).
Proof.
  apply (api_result_one_shot sample_config ready_world "task-1" (init_state ∅)).
  reflexivity.
Defined.

(** ** api_run *)

Section ApiRunCases.
Variable cfg : config.
Variable w : world.

Lemma mirror_input_result archive_id img st :
  exists folder evs,
    mirror_input cfg w archive_id img st = (Ok folder, add_events st evs)
    /\ (folder = JNull \/ exists f, folder = JStr f)
    /\ (GDRIVE_ENABLED cfg = false -> folder = JNull /\ evs = []).
Proof.
  unfold mirror_input. destruct (GDRIVE_ENABLED cfg).
  2:{ exists JNull, []. rewrite add_events_nil. auto. }
  destruct (get_drive_runs cfg w st) as (r & evs & Hd & _).
  unfold try_catch. destruct r as [[]|e].
  - rewrite (bind_Ok _ _ _ _ _ Hd). unfold bind at 1, drive_create_folder.
    rewrite (bind_Ok _ _ _ _ _ (emit_eq _ _)), add_events_app.
    destruct (w_drive_create_folder w _ _ _) as [folder|e]; simpl.
    + unfold bind at 1. rewrite drive_upload_bytes_runs, add_events_app.
      destruct (w_drive_upload w _ _ _ _ _) as [[]|e]; simpl;
        eexists _, _; (split; [reflexivity|]); split; eauto; discriminate.
    + eexists _, _. split; [reflexivity|]. split; [auto | discriminate].
  - rewrite (bind_Raise _ _ _ _ _ Hd). simpl.
    eexists _, _. split; [reflexivity|]. split; [auto | discriminate].
Qed.

(** What a configured [api_run] does, by what job creation makes of the
    reply to the create request. *)
Lemma api_run_cases photo templateId seed st :
  require_env cfg = None ->
  exists seed' folder t,
    (forall s, seed = Some s -> seed' = s)
    /\ (seed = None -> (100000000 <= seed' <= 999999999)%Z)
    /\ (folder = JNull \/ exists f, folder = JStr f)
    /\ (GDRIVE_ENABLED cfg = false -> folder = JNull)
    /\ (forall task_id,
          created (w_post w t (RH_CREATE cfg)
                     (create_payload cfg (b64encode photo) templateId seed')) =
          Ok task_id ->
          exists stamp st',
            api_run cfg w photo templateId seed st =
              (Ok (JSONResponse 200
                     (JDict [("taskId", task_id);
                             ("archiveId",
                              JStr (archive_id_at w (length (trace st))))])),
               st')
            /\ fs st' =
               <[archive_id_at w (length (trace st)) :=
                   with_meta
                     (with_input
                        (entry_of (archive_id_at w (length (trace st))) (fs st))
                        photo)
                     (new_record (archive_id_at w (length (trace st))) task_id
                        templateId seed' stamp folder)]> (fs st)
            /\ pending st' =
               pending st ++ [(task_id, archive_id_at w (length (trace st)))])
    /\ (forall e,
          created (w_post w t (RH_CREATE cfg)
                     (create_payload cfg (b64encode photo) templateId seed')) =
          Raise e ->
          exists st',
            api_run cfg w photo templateId seed st =
              (Ok (ErrorResponse 500 e), st')
            /\ fs st' =
               <[archive_id_at w (length (trace st)) :=
                   with_input
                     (entry_of (archive_id_at w (length (trace st))) (fs st))
                     photo]> (fs st)
            /\ pending st' = pending st).
Proof.
  intros Henv. unfold api_run. rewrite Henv. unfold try_catch.
  rewrite (bind_Ok _ _ _ _ _ (make_archive_id_eq _ _)).
  fold (archive_id_at w (length (trace st))).
  set (aid := archive_id_at w (length (trace st))).
  rewrite (bind_Ok _ _ _ _ _ (get_play_dir_eq _ _)).
  unfold write_input.
  erewrite (bind_Ok _ _ _ tt) by (apply update_entry_eq, opened_lookup).
  rewrite fs_set_fs, fs_add_events, insert_opened, set_fs_set_fs.
  set (e1 := with_input (entry_of aid (fs st)) photo).
  set (S2 := set_fs (add_events st [ENow; EUuid]) (<[aid := e1]> (fs st))).
  assert (Hseed : exists seed' evs,
             (forall s, seed = Some s -> seed' = s)
             /\ (seed = None -> (100000000 <= seed' <= 999999999)%Z)
             /\ match seed with
                | Some s => ret s
                | None => randint w 100000000 999999999
                end S2 = (Ok seed', add_events S2 evs)).
  { destruct seed as [s|].
    - exists s, []. split; [now intros ? [= ->]|]. split; [discriminate|].
      now rewrite add_events_nil.
    - eexists _, _. split; [discriminate|]. split; [|apply randint_eq].
      intros _.
      pose proof (Z.mod_pos_bound (w_random w (length (trace S2)))
                    (999999999 - 100000000 + 1)%Z ltac:(lia)).
      lia. }
  destruct Hseed as (seed' & evs_s & Hseed' & Hrange & Hs).
  rewrite (bind_Ok _ _ _ _ _ Hs).
  destruct (mirror_input_result aid photo (add_events S2 evs_s))
    as (folder & evs_m & Hm & Hfolder & Hoff).
  rewrite (bind_Ok _ _ _ _ _ Hm), add_events_app.
  set (S4 := add_events S2 (evs_s ++ evs_m)).
  exists seed', folder, (length (trace S4)).
  split; [exact Hseed'|]. split; [exact Hrange|]. split; [exact Hfolder|].
  split; [intros Hd; now destruct (Hoff Hd)|].
  pose proof (create_job_eq cfg w (b64encode photo) templateId seed' S4) as Hc.
  split.
  - intros task_id Ecr. rewrite Ecr in Hc.
    rewrite (bind_Ok _ _ _ _ _ Hc).
    rewrite (bind_Ok _ _ _ _ _ (now_eq _ _)), add_events_app.
    unfold write_meta.
    erewrite (bind_Ok _ _ _ tt).
    2:{ apply update_entry_eq. unfold S4, S2.
        rewrite !fs_add_events, fs_set_fs. apply lookup_insert_eq. }
    match goal with |- context [mirror_meta cfg w ?m ?f] =>
      match goal with |- context [bind (mirror_meta cfg w m f) _ ?s] =>
        destruct (mirror_meta_runs cfg w m f s) as (evs_mm & Hmm & _)
      end
    end.
    rewrite (bind_Ok _ _ _ _ _ Hmm).
    unfold bind, add_task, ret. cbn beta iota.
    eexists _, _. split; [reflexivity|]. split.
    + cbn [fs add_events set_fs]. unfold S4, S2.
      cbn [fs add_events set_fs]. apply insert_insert_eq.
    + reflexivity.
  - intros e Ecr. rewrite Ecr in Hc.
    rewrite (bind_Raise _ _ _ _ _ Hc). unfold ret.
    eexists. split; [reflexivity|]. split; reflexivity.
Qed.
End ApiRunCases.

Lemma api_run_returns cfg w photo templateId seed st :
  exists resp st', api_run cfg w photo templateId seed st = (Ok resp, st').
Proof.
  destruct (require_env cfg) as [missing|] eqn:Henv.
  - unfold api_run. rewrite Henv. eexists _, _. reflexivity.
  - destruct (api_run_cases cfg w photo templateId seed st Henv)
      as (seed' & folder & t & _ & _ & _ & _ & Hok & Hfail).
    destruct (created _) as [task_id|e].
    + destruct (Hok task_id eq_refl) as (stamp & st' & Hrun & _). eauto.
    + destruct (Hfail e eq_refl) as (st' & Hrun & _). eauto.
Qed.

(** X6. [api_run] never raises: whatever the upstream and the mirror do,
    it answers, either 200 with the task id and the archive id or 500. *)
Theorem api_run_always_answers
    (cfg : config) (w : world) (photo : bytes) (templateId : string)
    (seed : option Z) (st : state) :
  exists resp st',
    api_run cfg w photo templateId seed st = (Ok resp, st')
    /\ ((exists task_id archive_id,
            resp = JSONResponse 200
                     (JDict [("taskId", task_id); ("archiveId", JStr archive_id)]))
        \/ (exists content, resp = JSONResponse 500 content)
        \/ (exists e, resp = ErrorResponse 500 e)).
Proof.
  destruct (require_env cfg) as [missing|] eqn:Henv.
  - unfold api_run. rewrite Henv. unfold require_env in Henv.
    destruct (_ || _); [|discriminate]. injection Henv as <-.
    eexists _, _. split; [reflexivity|]. right. left. eauto.
  - destruct (api_run_cases cfg w photo templateId seed st Henv)
      as (seed' & folder & t & _ & _ & _ & _ & Hok & Hfail).
    destruct (created _) as [task_id|e].
    + destruct (Hok task_id eq_refl) as (stamp & st' & Hrun & _).
      eexists _, _. split; [exact Hrun|]. left. eauto.
    + destruct (Hfail e eq_refl) as (st' & Hrun & _).
      eexists _, _. split; [exact Hrun|]. right. right. eauto.
Qed.

(** X7. When job creation fails (the create call raises, the upstream
    answers with an error status, or no task id is found), a configured
    [api_run] answers 500 with that error.  The photo has then already
    been archived as [input.jpg] under the new archive id, but no Job
    Record is written and no finalize is scheduled. *)
Theorem api_run_refused
    (cfg : config) (w : world) (photo : bytes) (templateId : string)
    (seed : option Z) (st : state) (e : exn) :
  require_env cfg = None ->
  (forall t payload, created (w_post w t (RH_CREATE cfg) payload) = Raise e) ->
  exists st',
    api_run cfg w photo templateId seed st = (Ok (ErrorResponse 500 e), st')
    /\ fs st' =
       <[archive_id_at w (length (trace st)) :=
           {| input_jpg := Some photo;
              output_png :=
                output_png (entry_of (archive_id_at w (length (trace st))) (fs st));
              meta_json :=
                meta_json (entry_of (archive_id_at w (length (trace st))) (fs st))
           |}]> (fs st)
    /\ pending st' = pending st.
Proof.
  intros Henv Hw.
  destruct (api_run_cases cfg w photo templateId seed st Henv)
    as (seed' & folder & t & _ & _ & _ & _ & _ & Hfail).
  exact (Hfail e (Hw _ _)).
Qed.

Lemma api_run_refused_witness :
  exists st',
    api_run sample_config refusing_world sample_photo "fai_chun_02" None
      (init_state ∅) =
      (Ok (ErrorResponse 500
             (RuntimeError "RunningHub HTTP"
                [JInt 500; JDict [("raw", JStr "Internal Server Error")]])), st')
    /\ fs st' =
       <[archive_id_at refusing_world (length (trace (init_state ∅))) :=
           {| input_jpg := Some sample_photo;
              output_png :=
                output_png
                  (entry_of
                     (archive_id_at refusing_world (length (trace (init_state ∅))))
                     (fs (init_state ∅)));
              meta_json :=
                meta_json
                  (entry_of
                     (archive_id_at refusing_world (length (trace (init_state ∅))))
                     (fs (init_state ∅)))
           |}]> (fs (init_state ∅))
    /\ pending st' = pending (init_state ∅).
Proof.
  apply (api_run_refused sample_config refusing_world sample_photo "fai_chun_02"
           None (init_state ∅)).
  - reflexivity.
  - intros t payload. reflexivity.
Defined.



(** ** What a finalize run leaves alone *)

Lemma dict_set_idem d k v : dict_set (dict_set d k v) k v = dict_set d k v.
Proof.
  induction d as [|[k' v'] d IH]; simpl.
  - now rewrite String.eqb_refl.
  - destruct (String.eqb k' k) eqn:E; simpl; rewrite E; [reflexivity|].
    now rewrite IH.
Qed.

(** X9. A finalize run changes little of the entry it works on:
    [input.jpg] is as before, the list of scheduled tasks is as before, and
    every field of the Job Record other than [finalizeError], [outputUrl],
    [finalizedAt] and [driveOutputUploadedAt] keeps its value (so
    [archiveId], [taskId], [templateId], [seed], [driveFolderId] are never
    rewritten). *)
Theorem finalize_job_frame
    (cfg : config) (w : world) (task_id : json) (archive_id : string)
    (st : state) :
  let st' := snd (finalize_job cfg w task_id archive_id st) in
  input_jpg (entry_of archive_id (fs st')) =
  input_jpg (entry_of archive_id (fs st))
  /\ pending st' = pending st
  /\ (forall k,
        ~ In k finalize_keys ->
        dict_lookup (record_of (entry_of archive_id (fs st'))) k =
        dict_lookup (record_of (entry_of archive_id (fs st))) k).
Proof.
  destruct (finalize_job_runs cfg w task_id archive_id st)
    as (r & st' & -> & Hout).
  cbn [snd]. cbv zeta.
  inversion Hout as [c Hc | Hn Hnever | k u e Hn Hr Hg
                    | k u c m1 s evs Hn Hr Hg Hor Hfail Hq]; subst.
  - repeat split; auto.
  - rewrite fs_add_events, fs_set_fs, entry_of_insert.
    repeat split; auto.
    intros k Hk. change (record_of (with_meta ?e ?m)) with m.
    apply dict_lookup_set_ne. intros <-. apply Hk. simpl. auto.
  - rewrite fs_add_events, fs_set_fs, entry_of_opened.
    repeat split; auto.
  - rewrite fs_add_events, fs_set_fs, entry_of_insert.
    repeat split; auto.
    intros k0 Hk. change (record_of (with_meta ?e ?m)) with m.
    rewrite !dict_lookup_set_ne by (intros <-; apply Hk; simpl; auto).
    destruct Hor as [->|[x ->]]; [reflexivity|].
    apply dict_lookup_set_ne. intros <-. apply Hk. simpl. auto.
Qed.



(** X11. A finalize run after one that timed out starts from scratch:
    when the upstream is still not ready it polls 300 times again, and it
    leaves the store exactly as the first timeout left it. *)
Theorem finalize_job_retry_after_timeout
    (cfg : config) (w1 w2 : world) (task_id : json) (archive_id : string)
    (st : state) :
  output_png (entry_of archive_id (fs st)) = None ->
  never_ready cfg w1 task_id st ->
  never_ready cfg w2 task_id (snd (finalize_job cfg w1 task_id archive_id st)) ->
  finalize_job cfg w2 task_id archive_id
    (snd (finalize_job cfg w1 task_id archive_id st)) =
  (Ok tt,
   add_events (snd (finalize_job cfg w1 task_id archive_id st))
     (rounds cfg task_id 300)).
Proof.
  intros Ho Hn1.
  rewrite (finalize_job_when_never_ready cfg w1 task_id archive_id st Ho Hn1).
  cbn [snd]. intros Hn2.
  rewrite (finalize_job_when_never_ready cfg w2 task_id archive_id _).
  - rewrite fs_add_events, fs_set_fs, entry_of_insert.
    change (record_of (with_meta ?e ?m)) with m.
    rewrite dict_set_idem, insert_insert_eq.
    reflexivity.
  - rewrite fs_add_events, fs_set_fs, entry_of_insert. exact Ho.
  - exact Hn2.
Qed.

Lemma finalize_job_retry_after_timeout_witness :
  finalize_job sample_config (make_world (fun _ => ok_reply (JDict [])) (Ok sample_png) true)
    (JStr "task-1") "a1"
    (snd (finalize_job sample_config never_ready_world (JStr "task-1") "a1"
            (init_state ∅))) =
  (Ok tt,
   add_events
     (snd (finalize_job sample_config never_ready_world (JStr "task-1") "a1"
             (init_state ∅)))
     (rounds sample_config (JStr "task-1") 300)).
Proof.
  apply (finalize_job_retry_after_timeout sample_config never_ready_world
           (make_world (fun _ => ok_reply (JDict [])) (Ok sample_png) true)
           (JStr "task-1") "a1" (init_state ∅)).
  - reflexivity.
  - intros i Hi. unfold attempt_url, poll_reply, never_ready_world,
      scripted_world, make_world. cbn [w_post].
    match goal with |- context [nth ?n _ _] => destruct n end; reflexivity.
  - intros i Hi. reflexivity.
Defined.

(** ** What the handlers log *)

Section EmitsOnly.
Variable P : event -> bool.

Lemma emits_only_ret {A} (a : A) : emits_only P (ret a).
Proof. intros st. exists []. simpl. now rewrite app_nil_r. Qed.

Lemma emits_only_raise {A} e : emits_only P (@raise A e).
Proof. intros st. exists []. simpl. now rewrite app_nil_r. Qed.

Lemma emits_only_lift_result {A} (r : result A) : emits_only P (lift_result r).
Proof. destruct r; [apply emits_only_ret | apply emits_only_raise]. Qed.

Lemma emits_only_bind {A B} (m : M A) (k : A -> M B) :
  emits_only P m -> (forall a, emits_only P (k a)) -> emits_only P (bind m k).
Proof.
  intros Hm Hk st. unfold bind. destruct (Hm st) as (evs1 & E1 & Q1).
  destruct (m st) as [[a|e] st1]; simpl in *.
  - destruct (Hk a st1) as (evs2 & E2 & Q2).
    exists (evs1 ++ evs2). rewrite E2, E1, app_assoc.
    split; [reflexivity | now apply Forall_app].
  - eauto.
Qed.

Lemma emits_only_try_catch {A} (m : M A) h :
  emits_only P m -> (forall e, emits_only P (h e)) ->
  emits_only P (try_catch m h).
Proof.
  intros Hm Hh st. unfold try_catch. destruct (Hm st) as (evs1 & E1 & Q1).
  destruct (m st) as [[a|e] st1]; simpl in *.
  - eauto.
  - destruct (Hh e st1) as (evs2 & E2 & Q2).
    exists (evs1 ++ evs2). rewrite E2, E1, app_assoc.
    split; [reflexivity | now apply Forall_app].
Qed.

Lemma emits_only_emit e : P e = true -> emits_only P (emit e).
Proof. intros H st. exists [e]. split; [reflexivity | now constructor]. Qed.

Lemma emits_only_get_fs : emits_only P get_fs.
Proof. intros st. exists []. simpl. now rewrite app_nil_r. Qed.

Lemma emits_only_put_fs files : emits_only P (put_fs files).
Proof. intros st. exists []. simpl. now rewrite app_nil_r. Qed.

Lemma emits_only_add_task t a : emits_only P (add_task t a).
Proof. intros st. exists []. simpl. now rewrite app_nil_r. Qed.

Lemma emits_only_take_pending : emits_only P take_pending.
Proof. intros st. exists []. simpl. now rewrite app_nil_r. Qed.
End EmitsOnly.

Create HintDb emits.
#[local] Hint Resolve emits_only_ret emits_only_raise emits_only_lift_result
  emits_only_get_fs emits_only_put_fs emits_only_add_task
  emits_only_take_pending : emits.

Ltac emits_tac :=
  repeat first
    [ solve [auto with emits]
    | apply emits_only_emit; reflexivity
    | apply emits_only_bind; [|intros ?]
    | apply emits_only_try_catch; [|intros ?]
    | match goal with
      | |- emits_only _ (if ?b then _ else _) => destruct b
      | |- emits_only _ (match ?x with _ => _ end) => destruct x
      end ].

Section NoDrive.
Variable cfg : config.
Variable w : world.
Hypothesis mirror_off : GDRIVE_ENABLED cfg = false.

Lemma no_drive_mirror_input a img : emits_only no_drive (mirror_input cfg w a img).
Proof. unfold mirror_input. rewrite mirror_off. emits_tac. Qed.

Lemma no_drive_mirror_output img meta folder :
  emits_only no_drive (mirror_output cfg w img meta folder).
Proof. unfold mirror_output. rewrite mirror_off. cbn [andb]. emits_tac. Qed.

Lemma no_drive_mirror_meta meta folder :
  emits_only no_drive (mirror_meta cfg w meta folder).
Proof. unfold mirror_meta. rewrite mirror_off. cbn [andb]. emits_tac. Qed.

Lemma no_drive_poll_loop n task_id image_url :
  emits_only no_drive (poll_loop cfg w n task_id image_url).
Proof.
  revert image_url. induction n as [|n IH]; intros image_url; simpl.
  - emits_tac.
  - apply emits_only_bind; [unfold poll_once, rh_post_json; emits_tac|].
    intros [u b]. destruct b; simpl; [emits_tac|].
    apply emits_only_bind; [unfold sleep; emits_tac | intros _; apply IH].
Qed.

Lemma no_drive_finalize_job task_id archive_id :
  emits_only no_drive (finalize_job cfg w task_id archive_id).
Proof.
  unfold finalize_job.
  apply emits_only_bind; [emits_tac | intros _].
  apply emits_only_bind; [emits_tac | intros meta].
  apply emits_only_bind; [emits_tac | intros finalized].
  destruct finalized; [emits_tac|].
  apply emits_only_bind; [apply no_drive_poll_loop | intros image_url].
  assert (Ht : forall m, emits_only no_drive (finalize_timeout archive_id m))
    by (intros m; unfold finalize_timeout, write_meta; emits_tac).
  destruct image_url as [u|]; [|apply Ht].
  destruct (truthy_url (Some u)); [|apply Ht].
  unfold finalize_commit, download, write_output, write_meta, now.
  apply emits_only_bind; [emits_tac | intros img].
  apply emits_only_bind; [emits_tac | intros _].
  apply emits_only_bind; [apply no_drive_mirror_output | intros meta1].
  apply emits_only_bind; [emits_tac | intros stamp].
  apply emits_only_bind; [emits_tac | intros _].
  apply no_drive_mirror_meta.
Qed.

Lemma no_drive_run_tasks tasks : emits_only no_drive (run_tasks cfg w tasks).
Proof.
  induction tasks as [|[t a] tasks IH]; simpl; [emits_tac|].
  apply emits_only_bind; [apply no_drive_finalize_job | intros _; apply IH].
Qed.

Lemma no_drive_api_run photo templateId seed :
  emits_only no_drive (api_run cfg w photo templateId seed).
Proof.
  unfold api_run. destruct (require_env cfg); [emits_tac|].
  apply emits_only_try_catch; [|intros e; emits_tac].
  apply emits_only_bind;
    [unfold make_archive_id, now; emits_tac | intros archive_id].
  apply emits_only_bind; [emits_tac | intros _].
  apply emits_only_bind; [unfold write_input; emits_tac | intros _].
  apply emits_only_bind; [unfold randint; emits_tac | intros seed'].
  apply emits_only_bind; [apply no_drive_mirror_input | intros folder].
  apply emits_only_bind;
    [unfold create_job, rh_post_json; emits_tac | intros task_id].
  apply emits_only_bind; [unfold now; emits_tac | intros stamp].
  apply emits_only_bind; [unfold write_meta; emits_tac | intros _].
  apply emits_only_bind; [apply no_drive_mirror_meta | intros _].
  emits_tac.
Qed.

Lemma no_drive_handle req : emits_only no_drive (handle cfg w req).
Proof.
  destruct req; simpl.
  - unfold serve_run.
    apply emits_only_bind; [apply no_drive_api_run | intros resp].
    apply emits_only_bind; [|intros _; emits_tac].
    apply emits_only_try_catch; [|intros e; emits_tac].
    apply emits_only_bind; [emits_tac | intros tasks].
    apply no_drive_run_tasks.
  - unfold api_result, rh_post_json. emits_tac.
  - unfold api_finalize.
    apply emits_only_bind; [apply no_drive_finalize_job | intros _; emits_tac].
  - unfold api_download.
    apply emits_only_bind; [emits_tac | intros _].
    apply emits_only_bind; [emits_tac | intros finalized].
    apply emits_only_bind;
      [destruct finalized; simpl;
       [emits_tac | apply no_drive_finalize_job] | intros _].
    emits_tac.
Qed.
End NoDrive.

(** X12. With the mirror disabled ([GDRIVE_ENABLED] off), no request ever
    touches Google Drive: whatever is served, with its background
    finalize, the log only grows, and by no token check, no client build,
    no folder creation and no upload. *)
Theorem mirror_disabled_no_drive
    (cfg : config) (w : world) (req : request) (st : state) :
  GDRIVE_ENABLED cfg = false ->
  exists evs,
    trace (snd (handle cfg w req st)) = trace st ++ evs
    /\ Forall (fun e => is_drive e = false) evs.
Proof.
  intros Hoff. destruct (no_drive_handle cfg w Hoff req st) as (evs & E & Q).
  exists evs. split; [exact E|].
  eapply Forall_impl; [exact Q|]. intros e He. unfold no_drive in He.
  now destruct (is_drive e).
Qed.

Lemma mirror_disabled_no_drive_witness :
  exists evs,
    trace (snd (handle local_config accepting_world
                  (RunRequest sample_photo "fai_chun_01" None) (init_state ∅))) =
      trace (init_state ∅) ++ evs
    /\ Forall (fun e => is_drive e = false) evs.
Proof.
  apply (mirror_disabled_no_drive local_config accepting_world
           (RunRequest sample_photo "fai_chun_01" None) (init_state ∅)).
  reflexivity.
Defined.

Section SubmitOnly.
Variable cfg : config.
Variable w : world.

Lemma submit_only_get_drive : emits_only (submit_event cfg) (get_drive cfg w).
Proof. unfold get_drive. emits_tac. Qed.

Lemma submit_only_mirror_meta meta folder :
  emits_only (submit_event cfg) (mirror_meta cfg w meta folder).
Proof.
  unfold mirror_meta, drive_upload_text, drive_upload_bytes.
  destruct (_ && _); [|emits_tac].
  apply emits_only_try_catch; [|intros e; emits_tac].
  apply emits_only_bind; [apply submit_only_get_drive | intros _]. emits_tac.
Qed.

Lemma submit_only_mirror_input a img :
  emits_only (submit_event cfg) (mirror_input cfg w a img).
Proof.
  unfold mirror_input, drive_create_folder, drive_upload_bytes.
  destruct (GDRIVE_ENABLED cfg); [|emits_tac].
  apply emits_only_try_catch; [|intros e; emits_tac].
  apply emits_only_bind; [apply submit_only_get_drive | intros _]. emits_tac.
Qed.

Lemma submit_only_create_job img_b64 templateId seed :
  emits_only (submit_event cfg) (create_job cfg w img_b64 templateId seed).
Proof.
  unfold create_job, rh_post_json.
  apply emits_only_bind; [|intros r; emits_tac].
  apply emits_only_bind; [|intros t; emits_tac].
  apply emits_only_emit. apply String.eqb_refl.
Qed.
End SubmitOnly.

(** X13. [api_run] does not wait for the job: whatever happens, it only
    adds to the log, and neither a sleep, nor a download, nor a request to
    any endpoint other than the create endpoint (polling is left to the
    finalize task it schedules). *)
Theorem api_run_submits_only
    (cfg : config) (w : world) (photo : bytes) (templateId : string)
    (seed : option Z) (st : state) :
  exists evs,
    trace (snd (api_run cfg w photo templateId seed st)) = trace st ++ evs
    /\ Forall (fun e =>
                 match e with
                 | ESleep _ | EGet _ => False
                 | EPost url _ => url = RH_CREATE cfg
                 | _ => True
                 end) evs.
Proof.
  assert (H : emits_only (submit_event cfg) (api_run cfg w photo templateId seed)).
  { unfold api_run. destruct (require_env cfg); [emits_tac|].
    apply emits_only_try_catch; [|intros e; emits_tac].
    apply emits_only_bind;
      [unfold make_archive_id, now; emits_tac | intros archive_id].
    apply emits_only_bind; [emits_tac | intros _].
    apply emits_only_bind; [unfold write_input; emits_tac | intros _].
    apply emits_only_bind; [unfold randint; emits_tac | intros seed'].
    apply emits_only_bind; [apply submit_only_mirror_input | intros folder].
    apply emits_only_bind; [apply submit_only_create_job | intros task_id].
    apply emits_only_bind; [unfold now; emits_tac | intros stamp].
    apply emits_only_bind; [unfold write_meta; emits_tac | intros _].
    apply emits_only_bind; [apply submit_only_mirror_meta | intros _].
    emits_tac. }
  destruct (H st) as (evs & E & Q). exists evs. split; [exact E|].
  eapply Forall_impl; [exact Q|]. intros e He.
  destruct e; simpl in He; try discriminate; auto.
  now apply String.eqb_eq.
Qed.

(** X14. The mirror folder of a submission counts only if the input got
    into it: once the mirror is reached and the folder made, [api_run]'s
    mirror step keeps the folder id when the upload of [input.jpg]
    succeeds and gives none when that upload fails, although the folder
    then exists remotely. *)
Theorem mirror_input_needs_upload
    (cfg : config) (w : world) (archive_id : string) (img : bytes)
    (st : state) (folder : string) :
  GDRIVE_ENABLED cfg = true ->
  w_token_exists w (length (trace st)) = true ->
  w_drive_build w (length (trace st) + 1) = Ok tt ->
  w_drive_create_folder w (length (trace st) + 2) archive_id
    (if String.eqb (GDRIVE_ROOT_FOLDER_ID cfg) ""
     then [] else [GDRIVE_ROOT_FOLDER_ID cfg]) = Ok folder ->
  mirror_input cfg w archive_id img st =
  (Ok match w_drive_upload w (length (trace st) + 3) "input.jpg" (Raw img)
              "image/jpeg" (JStr folder) with
      | Ok _ => JStr folder
      | Raise _ => JNull
      end,
   add_events st
     [ETokenExists; EDriveBuild;
      EDriveCreateFolder archive_id
        (if String.eqb (GDRIVE_ROOT_FOLDER_ID cfg) ""
         then [] else [GDRIVE_ROOT_FOLDER_ID cfg]);
      EDriveUpload "input.jpg" (Raw img) "image/jpeg" (JStr folder)]).
Proof.
  intros Hon Htok Hbuild Hmk.
  unfold mirror_input, get_drive, drive_create_folder, try_catch.
  rewrite Hon.
  assert (L1 : length (trace (add_events st [ETokenExists])) =
               length (trace st) + 1)
    by (rewrite trace_add_events, length_app; reflexivity).
  assert (L2 : length (trace (add_events st [ETokenExists; EDriveBuild])) =
               length (trace st) + 2)
    by (rewrite trace_add_events, length_app; reflexivity).
  erewrite (bind_Ok _ _ _ tt (add_events st [ETokenExists; EDriveBuild])).
  2:{ rewrite (bind_Ok _ _ _ _ _ (emit_eq _ _)), Htok. cbn [negb].
      rewrite (bind_Ok _ _ _ _ _ (emit_eq _ _)), add_events_app, L1, Hbuild.
      reflexivity. }
  erewrite (bind_Ok _ _ _ folder).
  2:{ rewrite (bind_Ok _ _ _ _ _ (emit_eq _ _)), add_events_app, L2, Hmk.
      reflexivity. }
  unfold bind. rewrite drive_upload_bytes_runs, add_events_app.
  rewrite trace_add_events, length_app. cbn [length app].
  destruct (w_drive_upload w _ _ _ _ _) as [[]|e]; reflexivity.
Qed.

Lemma mirror_input_needs_upload_witness :
  mirror_input sample_config half_mirror_world "a1" sample_photo (init_state ∅) =
  (Ok match w_drive_upload half_mirror_world (length (trace (init_state ∅)) + 3)
              "input.jpg" (Raw sample_photo) "image/jpeg" (JStr "folder-1") with
      | Ok _ => JStr "folder-1"
      | Raise _ => JNull
      end,
   add_events (init_state ∅)
     [ETokenExists; EDriveBuild;
      EDriveCreateFolder "a1"
        (if String.eqb (GDRIVE_ROOT_FOLDER_ID sample_config) ""
         then [] else [GDRIVE_ROOT_FOLDER_ID sample_config]);
      EDriveUpload "input.jpg" (Raw sample_photo) "image/jpeg" (JStr "folder-1")]).
Proof.
  apply (mirror_input_needs_upload sample_config half_mirror_world "a1"
           sample_photo (init_state ∅) "folder-1"); reflexivity.
Defined.

(** ** Submission with its background finalize *)

Section ServeRun.
Variable cfg : config.
Variable w : world.

Lemma finalize_job_pending task_id archive_id st :
  pending (snd (finalize_job cfg w task_id archive_id st)) = pending st.
Proof.
  destruct (finalize_job_runs cfg w task_id archive_id st)
    as (r & st' & -> & Hout).
  inversion Hout; subst; reflexivity.
Qed.

Lemma run_tasks_pending tasks st :
  pending (snd (run_tasks cfg w tasks st)) = pending st.
Proof.
  revert st. induction tasks as [|[t a] tasks IH]; intros st; [reflexivity|].
  simpl. unfold bind.
  pose proof (finalize_job_pending t a st) as H.
  destruct (finalize_job cfg w t a st) as [[[]|e] st1]; simpl in *.
  - now rewrite IH.
  - exact H.
Qed.

End ServeRun.



(** ** What reaches the mirror *)

Ltac copies_tac :=
  repeat first
    [ assumption
    | apply Forall_app; split
    | apply List.Forall_nil
    | apply List.Forall_cons; [unfold mirror_copy; auto 7|] ].

Section MirrorCopies.
Variable cfg : config.
Variable w : world.

Lemma get_drive_events st :
  exists r evs,
    get_drive cfg w st = (r, add_events st evs)
    /\ Forall (fun e => e = ETokenExists \/ e = EDriveBuild) evs.
Proof.
  unfold get_drive.
  rewrite (bind_Ok _ _ _ _ _ (emit_eq _ _)).
  destruct (w_token_exists w (length (trace st))); simpl.
  - rewrite (bind_Ok _ _ _ _ _ (emit_eq _ _)), add_events_app.
    destruct (w_drive_build w _) as [[]|e]; simpl;
      eexists _, _; (split; [reflexivity|]); copies_tac.
  - eexists _, _. split; [reflexivity|]. copies_tac.
Qed.

Lemma mirror_output_events img meta folder st record :
  exists meta1 evs,
    mirror_output cfg w img meta folder st = (Ok meta1, add_events st evs)
    /\ Forall (mirror_copy img record folder) evs
    /\ (evs <> [] -> GDRIVE_ENABLED cfg = true /\ truthy folder = true).
Proof.
  unfold mirror_output.
  destruct (GDRIVE_ENABLED cfg); cbn [andb].
  2:{ exists meta, []. rewrite add_events_nil. repeat split; auto; congruence. }
  destruct (truthy folder).
  2:{ exists meta, []. rewrite add_events_nil. repeat split; auto; congruence. }
  destruct (get_drive_events st) as (r & evs & Hd & Hq).
  assert (Hq' : Forall (mirror_copy img record folder) evs).
  { eapply Forall_impl; [exact Hq|]. intros e [->| ->]; unfold mirror_copy; auto. }
  unfold try_catch. destruct r as [[]|e].
  - rewrite (bind_Ok _ _ _ _ _ Hd). unfold bind at 1.
    rewrite drive_upload_bytes_runs, add_events_app.
    destruct (w_drive_upload w _ _ _ _ _) as [[]|e].
    + rewrite (bind_Ok _ _ _ _ _ (now_eq _ _)), add_events_app.
      eexists _, _. split; [reflexivity|]. split; [|auto].
      copies_tac.
    + eexists _, _. split; [reflexivity|]. split; [|auto].
      copies_tac.
  - rewrite (bind_Raise _ _ _ _ _ Hd).
    eexists _, _. split; [reflexivity|]. auto.
Qed.

Lemma mirror_meta_events meta folder st content :
  exists evs,
    mirror_meta cfg w meta folder st = (Ok tt, add_events st evs)
    /\ Forall (mirror_copy content meta folder) evs
    /\ (evs <> [] -> GDRIVE_ENABLED cfg = true /\ truthy folder = true).
Proof.
  unfold mirror_meta.
  destruct (GDRIVE_ENABLED cfg); cbn [andb].
  2:{ exists []. rewrite add_events_nil. repeat split; auto; congruence. }
  destruct (truthy folder).
  2:{ exists []. rewrite add_events_nil. repeat split; auto; congruence. }
  destruct (get_drive_events st) as (r & evs & Hd & Hq).
  assert (Hq' : Forall (mirror_copy content meta folder) evs).
  { eapply Forall_impl; [exact Hq|]. intros e [->| ->]; unfold mirror_copy; auto. }
  unfold try_catch. destruct r as [[]|e].
  - rewrite (bind_Ok _ _ _ _ _ Hd). unfold drive_upload_text.
    rewrite drive_upload_bytes_runs, add_events_app.
    destruct (w_drive_upload w _ _ _ _ _) as [[]|e];
      eexists; (split; [reflexivity|]); (split; [|auto]); copies_tac.
  - rewrite (bind_Raise _ _ _ _ _ Hd). eauto.
Qed.

Lemma finalize_commit_events a meta u st e1 content :
  fs st !! a = Some e1 ->
  w_get w (length (trace st)) u = Ok content ->
  exists st' evs,
    finalize_commit cfg w a meta u st = (Ok tt, st')
    /\ trace st' = trace st ++ EGet u :: evs
    /\ Forall (mirror_copy content (record_of (entry_of a (fs st')))
                 (dict_get meta "driveFolderId")) evs
    /\ output_png (entry_of a (fs st')) = Some content
    /\ (forall e, In e evs -> is_drive e = true ->
        GDRIVE_ENABLED cfg = true
        /\ truthy (dict_get meta "driveFolderId") = true).
Proof.
  intros He Hg. unfold finalize_commit.
  rewrite (bind_Ok _ _ _ content (add_events st [EGet u])) by
    now rewrite download_eq, Hg.
  unfold write_output, write_meta.
  rewrite (bind_Ok _ _ _ _ _
             (update_entry_eq a _ (add_events st [EGet u]) e1 He)).
  set (folder := dict_get meta "driveFolderId").
  set (S1 := set_fs (add_events st [EGet u]) _).
  assert (Hfinal : exists meta1 stamp evs1,
             mirror_output cfg w content meta folder S1 =
               (Ok meta1, add_events S1 evs1)
             /\ stamp = w_now w (length (trace (add_events S1 evs1)))
             /\ (evs1 <> [] ->
                 GDRIVE_ENABLED cfg = true /\ truthy folder = true)
             /\ Forall (mirror_copy content
                          (dict_set (dict_set meta1 "outputUrl" (JStr u))
                             "finalizedAt" (JStr stamp)) folder) evs1).
  { destruct (mirror_output_events content meta folder S1 [])
      as (meta1 & evs1 & Hm & _ & Hon).
    exists meta1, (w_now w (length (trace (add_events S1 evs1)))), evs1.
    split; [exact Hm|]. split; [reflexivity|]. split; [exact Hon|].
    destruct (mirror_output_events content meta folder S1
                (dict_set (dict_set meta1 "outputUrl" (JStr u)) "finalizedAt"
                   (JStr (w_now w (length (trace (add_events S1 evs1)))))))
      as (meta1' & evs1' & Hm' & Hq' & _).
    rewrite Hm in Hm'. injection Hm' as <- Htr.
    apply app_inv_head in Htr. now subst evs1'. }
  destruct Hfinal as (meta1 & stamp & evs1 & Hm & Hstamp & Hon1 & Hq1).
  rewrite (bind_Ok _ _ _ _ _ Hm).
  rewrite (bind_Ok _ _ _ _ _ (now_eq _ _)). rewrite <- Hstamp.
  erewrite (bind_Ok _ _ _ tt).
  2:{ apply update_entry_eq. unfold S1. rewrite !fs_add_events, fs_set_fs.
      apply lookup_insert_eq. }
  match goal with |- context [mirror_meta cfg w ?m ?f ?s] =>
    destruct (mirror_meta_events m f s content) as (evs2 & Hmm & Hq2 & Hon2)
  end.
  rewrite Hmm. eexists _, (evs1 ++ [ENow] ++ evs2).
  split; [reflexivity|].
  rewrite !fs_add_events, !fs_set_fs. unfold S1.
  rewrite !fs_add_events, !fs_set_fs, entry_of_insert.
  change (record_of (with_meta ?e ?m)) with m.
  split.
  { cbn [trace add_events set_fs]. rewrite <- !app_assoc. reflexivity. }
  split.
  { copies_tac. }
  split; [reflexivity|].
  intros e Hin Hd. rewrite !List.in_app_iff in Hin.
  destruct Hin as [Hin | [Hin | Hin]].
  - apply Hon1. intros ->. destruct Hin.
  - destruct Hin as [<-|[]]. discriminate.
  - apply Hon2. intros ->. destruct Hin.
Qed.
End MirrorCopies.

Section FinalizeLog.
Variable cfg : config.
Variable w : world.
Variable task_id : json.
Variable archive_id : string.
Variable st : state.

Lemma in_rounds e k :
  In e (rounds cfg task_id k) -> e = poll_event cfg task_id \/ e = ESleep 2.
Proof.
  induction k as [|k IH]; [intros []|].
  change (rounds cfg task_id (S k)) with
    (poll_event cfg task_id :: ESleep 2 :: rounds cfg task_id k).
  intros [<-|[<-|H]]; auto.
Qed.

Lemma finalize_job_commit_eq k u :
  output_png (entry_of archive_id (fs st)) = None ->
  first_ready cfg w task_id st k u ->
  finalize_job cfg w task_id archive_id st =
  finalize_commit cfg w archive_id (record_of (entry_of archive_id (fs st))) u
    (add_events (set_fs st (opened archive_id (fs st)))
       (rounds cfg task_id k ++ [poll_event cfg task_id])).
Proof.
  intros Ho (Hk & Hnone & Hsome). unfold finalize_job.
  rewrite (bind_Ok _ _ _ _ _ (get_play_dir_eq _ _)).
  rewrite (bind_Ok _ _ _ _ _ (read_meta_eq _ _)).
  rewrite (bind_Ok _ _ _ _ _ (output_exists_eq _ _)).
  rewrite !fs_set_fs, entry_of_opened, Ho.
  rewrite (bind_Ok _ _ _ (Some u)
             (add_events (set_fs st (opened archive_id (fs st)))
                (rounds cfg task_id k ++ [poll_event cfg task_id])))
    by (apply poll_loop_found; assumption).
  now rewrite (attempt_url_truthy cfg w _ _ _ _ Hsome).
Qed.

(** The log of a run, case by case. *)
Lemma finalize_job_log :
  exists evs,
    trace (snd (finalize_job cfg w task_id archive_id st)) = trace st ++ evs
    /\ (evs = []
        \/ evs = rounds cfg task_id 300
        \/ (exists k u,
               evs = rounds cfg task_id k ++ [poll_event cfg task_id; EGet u])
        \/ (exists k u content evs',
               evs = rounds cfg task_id k
                     ++ [poll_event cfg task_id; EGet u] ++ evs'
               /\ Forall
                    (mirror_copy content
                       (record_of
                          (entry_of archive_id
                             (fs (snd (finalize_job cfg w task_id archive_id st)))))
                       (dict_get (record_of (entry_of archive_id (fs st)))
                          "driveFolderId")) evs'
               /\ output_png
                    (entry_of archive_id
                       (fs (snd (finalize_job cfg w task_id archive_id st)))) =
                  Some content
               /\ (forall e, In e evs' -> is_drive e = true ->
                   GDRIVE_ENABLED cfg = true
                   /\ truthy (dict_get (record_of (entry_of archive_id (fs st)))
                                "driveFolderId") = true))).
Proof.
  destruct (output_png (entry_of archive_id (fs st))) as [c|] eqn:Ho.
  { rewrite (finalize_job_when_finalized cfg w task_id archive_id st c Ho).
    exists []. rewrite app_nil_r. auto. }
  destruct (first_attempt 300 (attempt_url cfg w task_id (length (trace st))))
    as [Hnone | (k & u & Hk & Hnone & Hsome)].
  { rewrite (finalize_job_when_never_ready cfg w task_id archive_id st Ho Hnone).
    eexists. split; [reflexivity|]. auto. }
  assert (Hready : first_ready cfg w task_id st k u) by (split; auto).
  destruct (w_get w (length (trace st) + 2 * k + 1) u) as [content|e] eqn:Hg.
  - rewrite (finalize_job_commit_eq k u Ho Hready).
    destruct (finalize_commit_events cfg w archive_id
                (record_of (entry_of archive_id (fs st))) u
                (add_events (set_fs st (opened archive_id (fs st)))
                   (rounds cfg task_id k ++ [poll_event cfg task_id]))
                (entry_of archive_id (fs st)) content)
      as (st' & evs' & Hrun & Htr & Hq & Hout & Hon).
    { rewrite fs_add_events, fs_set_fs. apply opened_lookup. }
    { rewrite trace_add_events, trace_set_fs, !length_app, length_rounds.
      simpl. rewrite <- Hg. f_equal. lia. }
    rewrite Hrun. cbn [snd].
    exists (rounds cfg task_id k ++ [poll_event cfg task_id; EGet u] ++ evs').
    split.
    + rewrite Htr, trace_add_events, trace_set_fs, <- !app_assoc. reflexivity.
    + right. right. right. exists k, u, content, evs'. auto.
  - rewrite (finalize_job_when_download_fails cfg w task_id archive_id st
               k u e Ho Hready Hg).
    eexists. split; [reflexivity|]. right. right. left. eauto.
Qed.
End FinalizeLog.

(** X17. A finalize run sends to the mirror nothing but copies of the
    local archive: every upload it makes is [output.png] with the bytes
    now stored as the output artifact, or [meta.json] with the Job Record
    as now stored, and goes into the folder the record named under
    [driveFolderId] before the run; it uploads only with the mirror
    enabled and that folder id truthy. *)
Theorem finalize_job_mirrors_archive
    (cfg : config) (w : world) (task_id : json) (archive_id : string)
    (st : state) :
  exists evs,
    trace (snd (finalize_job cfg w task_id archive_id st)) = trace st ++ evs
    /\ forall name data mime parent,
         In (EDriveUpload name data mime parent) evs ->
         GDRIVE_ENABLED cfg = true
         /\ truthy parent = true
         /\ parent =
            dict_get (record_of (entry_of archive_id (fs st))) "driveFolderId"
         /\ ((name = "output.png" /\ mime = "image/png"
              /\ exists content,
                   data = Raw content
                   /\ output_png
                        (entry_of archive_id
                           (fs (snd (finalize_job cfg w task_id archive_id st)))) =
                      Some content)
             \/ (name = "meta.json" /\ mime = "application/json"
                 /\ data =
                    JsonText
                      (record_of
                         (entry_of archive_id
                            (fs (snd (finalize_job cfg w task_id archive_id st))))))).
Proof.
  destruct (finalize_job_log cfg w task_id archive_id st)
    as (evs & Htr & Hcases).
  exists evs. split; [exact Htr|]. intros name data mime parent Hin.
  destruct Hcases as [-> | [-> | [(k & u & ->) | (k & u & c & evs' & -> & Hq & Ho & Hon)]]].
  - destruct Hin.
  - apply in_rounds in Hin as [H|H]; discriminate.
  - apply List.in_app_iff in Hin as [Hin | [H|[H|[]]]]; try discriminate.
    apply in_rounds in Hin as [H|H]; discriminate.
  - apply List.in_app_iff in Hin as [Hin | [H|[H|Hin]]]; try discriminate.
    { apply in_rounds in Hin as [H|H]; discriminate. }
    destruct (Hon _ Hin eq_refl) as [Hen Htruthy].
    rewrite List.Forall_forall in Hq. specialize (Hq _ Hin).
    destruct Hq as [H|[H|[H|[H|H]]]]; try discriminate;
      injection H as -> -> -> ->; (split; [exact Hen|]);
      (split; [exact Htruthy|]); (split; [reflexivity|]).
    + left. eauto.
    + right. auto.
Qed.

(** X18. A finalize run downloads at most once, and only after its last
    poll: its log holds at most one GET, and no POST or sleep after it. *)
Theorem finalize_job_downloads_once
    (cfg : config) (w : world) (task_id : json) (archive_id : string)
    (st : state) :
  exists before after,
    trace (snd (finalize_job cfg w task_id archive_id st)) =
      trace st ++ before ++ after
    /\ Forall (fun e => is_download e = false) before
    /\ (after = []
        \/ exists u rest,
             after = EGet u :: rest
             /\ Forall (fun e => is_download e = false /\ quiet e = true) rest).
Proof.
  assert (Hrounds : forall k,
             Forall (fun e => is_download e = false) (rounds cfg task_id k)).
  { intros k. apply List.Forall_forall. intros e He.
    apply in_rounds in He as [->| ->]; reflexivity. }
  destruct (finalize_job_log cfg w task_id archive_id st)
    as (evs & Htr & Hcases).
  destruct Hcases as [-> | [-> | [(k & u & ->) | (k & u & c & evs' & -> & Hq & Ho & Hon)]]].
  - exists [], []. split; [exact Htr|]. split; [constructor | now left].
  - exists (rounds cfg task_id 300), []. rewrite app_nil_r.
    split; [exact Htr|]. split; [apply Hrounds | now left].
  - exists (rounds cfg task_id k ++ [poll_event cfg task_id]), [EGet u].
    rewrite <- app_assoc. split; [exact Htr|]. split.
    + apply Forall_app. split; [apply Hrounds | repeat constructor].
    + right. exists u, []. split; [reflexivity | constructor].
  - exists (rounds cfg task_id k ++ [poll_event cfg task_id]), (EGet u :: evs').
    rewrite <- app_assoc. split; [exact Htr|]. split.
    + apply Forall_app. split; [apply Hrounds | repeat constructor].
    + right. exists u, evs'. split; [reflexivity|].
      eapply Forall_impl; [exact Hq|].
      intros e [->|[->|[->|[->| ->]]]]; split; reflexivity.
Qed.

(** ** What a poll attempt sees *)

(** X19. A poll attempt sees a URL only in a reply with a status below
    400 whose body is a JSON object, and then it searches the [data]
    field alone when the object has one (the object itself otherwise):
    a failed call, an error status, a body that is no JSON or no object
    give nothing, whatever they contain. *)
Theorem reply_url_sees (r : post_reply) (u : string) :
  reply_url r = Some u <->
  exists status o text,
    r = PostResponse status (Some (JDict o)) text
    /\ (status < 400)%Z
    /\ find_first_http_url
         match dict_lookup o "data" with
         | Some data => data
         | None => JDict o
         end = Some u.
Proof.
  unfold reply_url, decode_reply, get_data, dict_get_default. split.
  - destruct r as [e|status body text]; [discriminate|].
    destruct (Z.geb_spec status 400) as [|Hlt]; [discriminate|].
    destruct body as [j|].
    + destruct j; try discriminate. intros H. eauto 6.
    + simpl. discriminate.
  - intros (status & o & text & -> & Hlt & H).
    destruct (Z.geb_spec status 400) as [|_]; [lia|]. exact H.
Qed.

(** X20. [api_result] and the poll loop of [finalize_job] read a reply
    the same way: a configured [api_result] answers [ready] with the URL
    [u] exactly when a poll attempt made at that moment for the same task
    would see [u]. *)
Theorem api_result_agrees_with_poll
    (cfg : config) (w : world) (taskId : string) (st : state) (u : string) :
  require_env cfg = None ->
  (fst (api_result cfg w taskId st) =
     Ok (JSONResponse 200 (JDict [("ready", JBool true); ("imageUrl", JStr u)]))
   <-> attempt_url cfg w (JStr taskId) (length (trace st)) 0 = Some u).
Proof.
  intros Henv. unfold api_result. rewrite Henv.
  unfold try_catch, bind at 1. rewrite rh_post_json_eq.
  unfold attempt_url, poll_reply, reply_url. rewrite Nat.add_0_r.
  destruct (decode_reply _) as [out|e]; [|split; discriminate].
  unfold bind, lift_result.
  destruct (get_data out) as [data|e]; [|split; discriminate].
  cbn beta iota. unfold ret.
  destruct (find_first_http_url data) as [v|] eqn:E; [|split; discriminate].
  rewrite (find_first_http_url_truthy _ _ E). cbn [fst].
  split; intros H; congruence.
Qed.

Lemma api_result_agrees_with_poll_witness :
  fst (api_result sample_config ready_world "task-1" (init_state ∅)) =
    Ok (JSONResponse 200
          (JDict [("ready", JBool true); ("imageUrl", JStr "http://x/out.png")]))
  <-> attempt_url sample_config ready_world (JStr "task-1")
        (length (trace (init_state ∅))) 0 = Some "http://x/out.png".
Proof.
  apply (api_result_agrees_with_poll sample_config ready_world "task-1"
           (init_state ∅) "http://x/out.png").
  reflexivity.
Defined.

(** ** A record without mirror folder *)

Section NoFolder.
Variable cfg : config.
Variable w : world.

Lemma mirror_output_no_folder img meta folder st :
  truthy folder = false ->
  mirror_output cfg w img meta folder st = (Ok meta, st).
Proof.
  intros H. unfold mirror_output. rewrite H, andb_false_r. reflexivity.
Qed.

Lemma mirror_meta_no_folder meta folder st :
  truthy folder = false -> mirror_meta cfg w meta folder st = (Ok tt, st).
Proof.
  intros H. unfold mirror_meta. rewrite H, andb_false_r. reflexivity.
Qed.
End NoFolder.

(** X23. When the Job Record names no mirror folder ([driveFolderId]
    missing, null or empty, as after a submission whose mirror step
    failed, or when there is no record at all), a successful finalize run
    does not contact the mirror: after its polls it logs the download and
    one reading of the clock, stores the bytes, and adds exactly
    [outputUrl] and [finalizedAt] to the record. *)
Theorem finalize_job_without_folder
    (cfg : config) (w : world) (task_id : json) (archive_id : string)
    (st : state) (k : nat) (u : string) (content : bytes) :
  truthy (dict_get (record_of (entry_of archive_id (fs st))) "driveFolderId") =
    false ->
  output_png (entry_of archive_id (fs st)) = None ->
  first_ready cfg w task_id st k u ->
  w_get w (length (trace st) + 2 * k + 1) u = Ok content ->
  finalize_job cfg w task_id archive_id st =
  (Ok tt,
   {| fs :=
        <[archive_id :=
            {| input_jpg := input_jpg (entry_of archive_id (fs st));
               output_png := Some content;
               meta_json :=
                 Some (dict_set
                         (dict_set (record_of (entry_of archive_id (fs st)))
                            "outputUrl" (JStr u))
                         "finalizedAt"
                         (JStr (w_now w (length (trace st) + 2 * k + 2)))) |}]>
          (fs st);
      trace :=
        trace st ++ rounds cfg task_id k
        ++ [poll_event cfg task_id; EGet u; ENow];
      pending := pending st |}).
Proof.
  intros Hfolder Ho Hready Hg.
  rewrite (finalize_job_commit_eq cfg w task_id archive_id st k u Ho Hready).
  set (S0 := add_events (set_fs st (opened archive_id (fs st)))
               (rounds cfg task_id k ++ [poll_event cfg task_id])).
  assert (Hlen : length (trace S0) = length (trace st) + 2 * k + 1).
  { unfold S0. rewrite trace_add_events, trace_set_fs, !length_app,
      length_rounds. simpl. lia. }
  unfold finalize_commit.
  rewrite (bind_Ok _ _ _ content (add_events S0 [EGet u]))
    by (rewrite download_eq, Hlen, Hg; reflexivity).
  unfold write_output, write_meta.
  erewrite (bind_Ok _ _ _ tt).
  2:{ apply update_entry_eq. unfold S0.
      rewrite !fs_add_events, fs_set_fs. apply opened_lookup. }
  rewrite (bind_Ok _ _ _ _ _ (mirror_output_no_folder cfg w _ _ _ _ Hfolder)).
  rewrite (bind_Ok _ _ _ _ _ (now_eq _ _)).
  rewrite trace_set_fs, trace_add_events, length_app, Hlen. cbn [length].
  replace (length (trace st) + 2 * k + 1 + 1) with (length (trace st) + 2 * k + 2)
    by lia.
  erewrite (bind_Ok _ _ _ tt).
  2:{ apply update_entry_eq. rewrite !fs_add_events, fs_set_fs.
      apply lookup_insert_eq. }
  rewrite (mirror_meta_no_folder cfg w _ _ _ Hfolder).
  unfold S0, add_events, set_fs. cbn [fs trace pending].
  rewrite insert_insert_eq, insert_opened, <- !app_assoc.
  reflexivity.
Qed.

Lemma finalize_job_without_folder_witness :
  finalize_job sample_config ready_world (JStr "task-1") "a1" (init_state ∅) =
  (Ok tt,
   {| fs :=
        <["a1" :=
            {| input_jpg := input_jpg (entry_of "a1" (fs (init_state ∅)));
               output_png := Some sample_png;
               meta_json :=
                 Some (dict_set
                         (dict_set (record_of (entry_of "a1" (fs (init_state ∅))))
                            "outputUrl" (JStr "http://x/out.png"))
                         "finalizedAt"
                         (JStr (w_now ready_world
                                  (length (trace (init_state ∅)) + 2 * 0 + 2)))) |}]>
          (fs (init_state ∅));
      trace :=
        trace (init_state ∅) ++ rounds sample_config (JStr "task-1") 0
        ++ [poll_event sample_config (JStr "task-1"); EGet "http://x/out.png";
            ENow];
      pending := pending (init_state ∅) |}).
Proof.
  apply (finalize_job_without_folder sample_config ready_world (JStr "task-1")
           "a1" (init_state ∅) 0 "http://x/out.png" sample_png).
  - reflexivity.
  - reflexivity.
  - split; [lia|]. split; [intros i Hi; lia | reflexivity].
  - reflexivity.
Defined.

(** ** The list [walk] builds *)

(** X24. [walk] only appends to [found], and what it appends for a value
    are exactly the strings that start with "http" and sit under a
    candidate key of some dictionary in that value. *)
Theorem walk_collects_candidates (x : json) (found : list string) :
  (exists added, walk x found = found ++ added)
  /\ (forall u, In u (walk x found) <-> In u found \/ candidate_in u x).
Proof.
  split.
  - exists (all_urls x). apply walk_app.
  - intros u. rewrite walk_app, List.in_app_iff, in_all_urls. reflexivity.
Qed.
